(** * INIS QA agent: correction matchers, deterministic checks, aggregation,
      orchestration

    A shallow embedding of the correction pipeline of the INIS QA agent
    (auto_correction_processor.py, auto_correction_applier.py,
    o4-INISQAChecker.py, qa_email_sender.py, inis_daily_qa_automation.py)
    and the properties of its specification that concern these functions.

    Modelling conventions.
    - A JSON document whose keys the code reads by name is a record; a key
      that the code reads with [d.get(k, default)] or tests with [k in d]
      is an [option] field ([None]: the key is absent).
    - A Python [str] is a [string]; the empty string is the only falsy one.
    - A function that mutates its argument in place returns the new value of
      that argument next to its Python return value.  Where the code reads
      [record.get("metadata", {})] and the key is absent, the default
      dictionary is a fresh object: writes to it never reach the record.
    - Objects that are shared between variables live in a store indexed by
      locations ([gmap loc record]); a variable holds a location.
    - What lies outside the process (the repository, the assistant, the
      mail server, the clock, the environment) is a variable of a section:
      a function from what the program sends to what it receives.  What
      the program does to the outside is kept in its state, oldest first.
    - A call that may raise returns an [outcome]; where the code catches
      every exception and returns [False] or [None], so does the model. *)

From Stdlib Require Import ZArith List Bool Ascii String Lia.
From stdpp Require Import base option list strings gmap.

Open Scope string_scope.

(** ** Data model *)

(** [{"name": ..., "id": ...}] inside [creator["affiliations"]]. *)
Record affiliation := mk_affiliation {
  aff_name : option string;
  aff_id : option string
}.

(** [creator["person_or_org"]]. *)
Record person_or_org := mk_person_or_org {
  po_type : option string;
  po_name : option string
}.

Record creator := mk_creator {
  cr_person_or_org : option person_or_org;
  cr_affiliations : option (list affiliation)
}.

(** An entry of [metadata["related_identifiers"]], also the payload of a
    related-identifier correction. *)
Record related_identifier := mk_related_identifier {
  ri_identifier : option string;
  ri_scheme : option string;
  ri_relation_type : option string
}.

Record metadata := mk_metadata {
  md_title : option string;
  md_description : option string;
  md_publication_date : option string;
  md_creators : option (list creator);
  md_related_identifiers : option (list related_identifier)
}.

Record custom_fields := mk_custom_fields {
  cf_qa_checked : option bool;
  cf_descriptors_cai_text : option (list string);
  cf_lead_record_id : option string
}.

(** A record of the repository, or any JSON object the REST API answers
    with (every key may be missing). *)
Record record := mk_record {
  rec_id : option string;
  rec_metadata : option metadata;
  rec_custom_fields : option custom_fields
}.

(** The dictionary [{}]. *)
Definition empty_metadata : metadata := mk_metadata None None None None None.
Definition empty_custom_fields : custom_fields := mk_custom_fields None None None.
Definition empty_record : record := mk_record None None None.

(** [not d] for a dictionary [d]: true exactly on [{}]. *)
Definition is_empty_dict (r : record) : bool :=
  match rec_id r, rec_metadata r, rec_custom_fields r with
  | None, None, None => true
  | _, _, _ => false
  end.

(** *** Field updates ([d[k] = v]) *)

Definition set_aff_name (n : string) (a : affiliation) : affiliation :=
  mk_affiliation (Some n) (aff_id a).

Definition set_po_name (n : string) (p : person_or_org) : person_or_org :=
  mk_person_or_org (po_type p) (Some n).

Definition set_cr_person_or_org (p : person_or_org) (c : creator) : creator :=
  mk_creator (Some p) (cr_affiliations c).

Definition set_cr_affiliations (l : list affiliation) (c : creator) : creator :=
  mk_creator (cr_person_or_org c) (Some l).

Definition set_md_title (t : string) (m : metadata) : metadata :=
  mk_metadata (Some t) (md_description m) (md_publication_date m)
              (md_creators m) (md_related_identifiers m).

Definition set_md_description (t : string) (m : metadata) : metadata :=
  mk_metadata (md_title m) (Some t) (md_publication_date m)
              (md_creators m) (md_related_identifiers m).

Definition set_md_publication_date (t : string) (m : metadata) : metadata :=
  mk_metadata (md_title m) (md_description m) (Some t)
              (md_creators m) (md_related_identifiers m).

Definition set_md_creators (l : list creator) (m : metadata) : metadata :=
  mk_metadata (md_title m) (md_description m) (md_publication_date m)
              (Some l) (md_related_identifiers m).

Definition set_md_related_identifiers (l : list related_identifier)
    (m : metadata) : metadata :=
  mk_metadata (md_title m) (md_description m) (md_publication_date m)
              (md_creators m) (Some l).

Definition set_cf_qa_checked (b : bool) (c : custom_fields) : custom_fields :=
  mk_custom_fields (Some b) (cf_descriptors_cai_text c) (cf_lead_record_id c).

Definition set_cf_descriptors (l : list string) (c : custom_fields)
    : custom_fields :=
  mk_custom_fields (cf_qa_checked c) (Some l) (cf_lead_record_id c).

Definition set_rec_metadata (m : metadata) (r : record) : record :=
  mk_record (rec_id r) (Some m) (rec_custom_fields r).

Definition set_rec_custom_fields (c : custom_fields) (r : record) : record :=
  mk_record (rec_id r) (rec_metadata r) (Some c).

(** *** Python primitives *)

(** Truth value of a [str]. *)
Definition str_truthy (s : string) : bool := negb (String.eqb s "").

(** Truth value of [d.get(flag)] for a JSON boolean: a missing flag is
    [None], which is falsy. *)
Definition flag_truthy (f : option bool) : bool := default false f.

(** [x in l] for a list of strings. *)
Definition str_in (x : string) (l : list string) : bool :=
  existsb (String.eqb x) l.

(** [d.get(k, "")]. *)
Definition get_str (o : option string) : string := default "" o.

(** [d.get(k, [])]. *)
Definition get_list {A : Type} (o : option (list A)) : list A := default [] o.

(** A loop that rewrites the elements of a list in place and counts: the
    body [f] returns the new element and the number of counter increments
    it made. *)
Fixpoint map_count {A : Type} (f : A -> A * nat) (l : list A) : list A * nat :=
  match l with
  | [] => ([], 0)
  | x :: l' =>
      let '(x', n) := f x in
      let '(l'', m) := map_count f l' in
      (x' :: l'', n + m)
  end.

(** ** Report of the QA check *)

(** An element of [affiliation_corrections]. *)
Record affiliation_correction := mk_affiliation_correction {
  old_affiliation : option string;
  recommended_affiliation : option string
}.

(** An element of [organizational_author_corrections]. *)
Record organizational_author_correction := mk_organizational_author_correction {
  old_organizational_author : option string;
  recommended_organizational_author : option string
}.

(** [corrections["delete_descriptor"]]: a string or a list of strings. *)
Inductive descriptor_arg :=
  | OneDescriptor (d : string)
  | DescriptorList (l : list string).

(** [corrections["related_identifiers"]]: one object or a list of them. *)
Inductive identifiers_arg :=
  | OneIdentifier (i : related_identifier)
  | IdentifierList (l : list related_identifier).

(** The [corrections] mapping.  [c_other] holds the keys that no function
    reads by name, each with its value as [str] prints it.  [c_keys]
    holds the keys of the mapping in the order of the JSON object, the
    order that a dictionary keeps and in which [items()] lists it. *)
Record corrections := mk_corrections {
  c_title : option string;
  c_abstract : option string;
  c_delete_descriptor : option descriptor_arg;
  c_publication_date : option string;
  c_related_identifiers : option identifiers_arg;
  c_other : list (string * string);
  c_keys : list string
}.

Definition no_corrections : corrections :=
  mk_corrections None None None None None [] [].

Record qa_report := mk_qa_report {
  record_id : option string;
  title_corrected : option bool;
  abstract_corrected : option bool;
  descriptor_corrected : option bool;
  date_corrected : option bool;
  affiliation_correction_recommended : option bool;
  scope_ok : option bool;
  duplicate_by_title : option bool;
  duplicate_by_doi : option bool;
  suspicious_content : option bool;
  historical_context_required : option bool;
  qa_corrections : option corrections;
  affiliation_corrections : option (list affiliation_correction);
  organizational_author_corrections :
    option (list organizational_author_correction);
  recommendations : option (list string)
}.

(** [qa_data.get("corrections", {})]. *)
Definition get_corrections (q : qa_report) : corrections :=
  default no_corrections (qa_corrections q).

(** ** Observations on records *)

(** The names of all creator affiliation entries, creator by creator, an
    entry without a name counting as [""] (as [affiliation.get("name", "")]
    reads it). *)
Definition creator_affiliation_names (c : creator) : list string :=
  map (fun a => get_str (aff_name a)) (get_list (cr_affiliations c)).

Definition creators_of (r : record) : list creator :=
  match rec_metadata r with
  | Some m => get_list (md_creators m)
  | None => []
  end.

Definition affiliation_names (r : record) : list string :=
  concat (map creator_affiliation_names (creators_of r)).

Definition title_of (r : record) : option string :=
  m ← rec_metadata r; md_title m.

Definition description_of (r : record) : option string :=
  m ← rec_metadata r; md_description m.

Definition publication_date_of (r : record) : option string :=
  m ← rec_metadata r; md_publication_date m.

Definition related_identifiers_of (r : record) : list related_identifier :=
  match rec_metadata r with
  | Some m => get_list (md_related_identifiers m)
  | None => []
  end.

Definition descriptors_of (r : record) : list string :=
  match rec_custom_fields r with
  | Some c => get_list (cf_descriptors_cai_text c)
  | None => []
  end.

Definition qa_checked_of (r : record) : option bool :=
  c ← rec_custom_fields r; cf_qa_checked c.

(** ** auto_correction_processor.py: class AutoCorrectionProcessor *)

Module Processor.

(** *** Matchers

    Each matcher takes the record it mutates and returns the record as the
    call leaves it together with the value the Python method returns.  The
    [try]/[except Exception] around each body is not needed on documents of
    the types above: no operation of the bodies raises on them. *)

Definition apply_title_correction (r : record) (correction : string)
    : record * bool :=
  (* if "metadata" not in record: record["metadata"] = {} *)
  let md := default empty_metadata (rec_metadata r) in
  (set_rec_metadata (set_md_title correction md) r, true).

Definition apply_abstract_correction (r : record) (correction : string)
    : record * bool :=
  let md := default empty_metadata (rec_metadata r) in
  (set_rec_metadata (set_md_description correction md) r, true).

Definition apply_date_correction (r : record) (correction : string)
    : record * bool :=
  let md := default empty_metadata (rec_metadata r) in
  (set_rec_metadata (set_md_publication_date correction md) r, true).

(** Body of [for i, affiliation in enumerate(affiliations)]. *)
Definition correct_affiliation (old new : string) (a : affiliation)
    : affiliation * nat :=
  if String.eqb (get_str (aff_name a)) old
  then (set_aff_name new a, 1)
  else (a, 0).

(** Body of [for creator in creators]; a creator without the key
    [affiliations] yields the default [[]] and nothing is scanned. *)
Definition correct_creator (old new : string) (c : creator) : creator * nat :=
  match cr_affiliations c with
  | Some affs =>
      let '(affs', n) := map_count (correct_affiliation old new) affs in
      (set_cr_affiliations affs' c, n)
  | None => (c, 0)
  end.

(** [for correction in corrections]: one scan of all creators per
    correction, in order, each scan seeing the names the previous scans
    left.  The second component is [corrections_applied]. *)
Fixpoint affiliation_passes (corrections : list affiliation_correction)
    (creators : list creator) : list creator * nat :=
  match corrections with
  | [] => (creators, 0)
  | correction :: rest =>
      let old := get_str (old_affiliation correction) in
      let new := get_str (recommended_affiliation correction) in
      if negb (str_truthy old) || negb (str_truthy new)
      then affiliation_passes rest creators
      else
        let '(creators1, n) := map_count (correct_creator old new) creators in
        let '(creators2, m) := affiliation_passes rest creators1 in
        (creators2, n + m)
  end.

(** The record after [apply_affiliation_corrections] and the final value
    of its counter [corrections_applied]. *)
Definition affiliation_corrections_applied (r : record)
    (corrections : list affiliation_correction) : record * nat :=
  match rec_metadata r with
  | Some md =>
      match md_creators md with
      | Some creators =>
          let '(creators', n) := affiliation_passes corrections creators in
          (set_rec_metadata (set_md_creators creators' md) r, n)
      | None => (r, 0)
      end
  | None => (r, 0)
  end.

Definition apply_affiliation_corrections (r : record)
    (corrections : list affiliation_correction) : record * bool :=
  let '(r', corrections_applied) :=
    affiliation_corrections_applied r corrections in
  (r', (0 <? corrections_applied)%nat).

Section Lower.

(** [str.lower]. *)
Variable lower : string -> string.

Definition apply_descriptor_deletions (r : record) (deletions : list string)
    : record * bool :=
  match rec_custom_fields r with
  | Some cf =>
      match cf_descriptors_cai_text cf with
      | Some descriptors =>
          match descriptors with
          | [] => (r, false)            (* if not descriptors *)
          | _ :: _ =>
              let original_count := length descriptors in
              let deletions_lower := map lower deletions in
              let descriptors' :=
                List.filter
                  (fun d => negb (str_in (lower d) deletions_lower))
                  descriptors in
              let removed_count := original_count - length descriptors' in
              (set_rec_custom_fields (set_cf_descriptors descriptors' cf) r,
               (0 <? removed_count)%nat)
          end
      | None => (r, false)
      end
  | None => (r, false)
  end.

End Lower.

Definition add_related_identifier (r : record)
    (identifier_data : related_identifier) : record * bool :=
  (* metadata = record.get("metadata", {}): the stored dictionary, or a
     fresh one that is not attached to the record *)
  let md := default empty_metadata (rec_metadata r) in
  let attach (m : metadata) : record :=
    match rec_metadata r with
    | Some _ => set_rec_metadata m r
    | None => r
    end in
  (* if "related_identifiers" not in metadata: metadata[...] = [] *)
  let related := get_list (md_related_identifiers md) in
  let existing_identifiers :=
    map (fun ri => get_str (ri_identifier ri)) related in
  let new_identifier := get_str (ri_identifier identifier_data) in
  if str_truthy new_identifier
     && negb (str_in new_identifier existing_identifiers)
  then
    (attach (set_md_related_identifiers (related ++ [identifier_data]) md),
     true)
  else (attach (set_md_related_identifiers related md), false).

(** *** Processing a report *)

Record stats := mk_stats {
  records_processed : nat;
  records_corrected : nat;
  title_corrections : nat;
  affiliation_corrections_n : nat;
  abstract_corrections : nat;
  descriptor_corrections : nat;
  date_corrections : nat;
  errors : nat
}.

Definition initial_stats : stats := mk_stats 0 0 0 0 0 0 0 0.

Definition incr_records_processed (s : stats) : stats :=
  mk_stats (S (records_processed s)) (records_corrected s)
    (title_corrections s) (affiliation_corrections_n s)
    (abstract_corrections s) (descriptor_corrections s)
    (date_corrections s) (errors s).

Definition incr_records_corrected (s : stats) : stats :=
  mk_stats (records_processed s) (S (records_corrected s))
    (title_corrections s) (affiliation_corrections_n s)
    (abstract_corrections s) (descriptor_corrections s)
    (date_corrections s) (errors s).

Definition incr_title_corrections (s : stats) : stats :=
  mk_stats (records_processed s) (records_corrected s)
    (S (title_corrections s)) (affiliation_corrections_n s)
    (abstract_corrections s) (descriptor_corrections s)
    (date_corrections s) (errors s).

Definition incr_affiliation_corrections (s : stats) : stats :=
  mk_stats (records_processed s) (records_corrected s)
    (title_corrections s) (S (affiliation_corrections_n s))
    (abstract_corrections s) (descriptor_corrections s)
    (date_corrections s) (errors s).

Definition incr_abstract_corrections (s : stats) : stats :=
  mk_stats (records_processed s) (records_corrected s)
    (title_corrections s) (affiliation_corrections_n s)
    (S (abstract_corrections s)) (descriptor_corrections s)
    (date_corrections s) (errors s).

Definition incr_descriptor_corrections (s : stats) : stats :=
  mk_stats (records_processed s) (records_corrected s)
    (title_corrections s) (affiliation_corrections_n s)
    (abstract_corrections s) (S (descriptor_corrections s))
    (date_corrections s) (errors s).

Definition incr_date_corrections (s : stats) : stats :=
  mk_stats (records_processed s) (records_corrected s)
    (title_corrections s) (affiliation_corrections_n s)
    (abstract_corrections s) (descriptor_corrections s)
    (S (date_corrections s)) (errors s).

Definition incr_errors (s : stats) : stats :=
  mk_stats (records_processed s) (records_corrected s)
    (title_corrections s) (affiliation_corrections_n s)
    (abstract_corrections s) (descriptor_corrections s)
    (date_corrections s) (S (errors s)).

(** One correction block of [process_qa_report] ([if flag and key: if
    matcher(corrected_record, ...): corrections_applied += 1; stats += 1]),
    as a function of the document behind [corrected_record] and of
    [self.stats]; the [nat] is what the block adds to
    [corrections_applied]. *)
Definition block : Type := record -> stats -> record * stats * nat.

Definition title_block (qa_data : qa_report) : block := fun r st =>
  let corrections := get_corrections qa_data in
  match flag_truthy (title_corrected qa_data), c_title corrections with
  | true, Some title =>
      let '(r', ok) := apply_title_correction r title in
      if ok then (r', incr_title_corrections st, 1) else (r', st, 0)
  | _, _ => (r, st, 0)
  end.

Definition abstract_block (qa_data : qa_report) : block := fun r st =>
  let corrections := get_corrections qa_data in
  match flag_truthy (abstract_corrected qa_data), c_abstract corrections with
  | true, Some abstract =>
      let '(r', ok) := apply_abstract_correction r abstract in
      if ok then (r', incr_abstract_corrections st, 1) else (r', st, 0)
  | _, _ => (r, st, 0)
  end.

Definition affiliation_block (qa_data : qa_report) : block := fun r st =>
  if flag_truthy (affiliation_correction_recommended qa_data) then
    let affiliation_corrections :=
      get_list (affiliation_corrections qa_data) in
    match affiliation_corrections with
    | [] => (r, st, 0)
    | _ :: _ =>
        let '(r', ok) :=
          apply_affiliation_corrections r affiliation_corrections in
        if ok then (r', incr_affiliation_corrections st, 1) else (r', st, 0)
    end
  else (r, st, 0).

(** [if isinstance(deletions, str): deletions = [deletions]]. *)
Definition normalize_deletions (d : descriptor_arg) : list string :=
  match d with
  | OneDescriptor s => [s]
  | DescriptorList l => l
  end.

(** [if not isinstance(identifiers, list): identifiers = [identifiers]]. *)
Definition normalize_identifiers (i : identifiers_arg)
    : list related_identifier :=
  match i with
  | OneIdentifier x => [x]
  | IdentifierList l => l
  end.

Definition descriptor_block (lower : string -> string) (qa_data : qa_report)
    : block := fun r st =>
  let corrections := get_corrections qa_data in
  match flag_truthy (descriptor_corrected qa_data),
        c_delete_descriptor corrections with
  | true, Some deletions =>
      let deletions := normalize_deletions deletions in
      match deletions with
      | [] => (r, st, 0)
      | _ :: _ =>
          let '(r', ok) := apply_descriptor_deletions lower r deletions in
          if ok then (r', incr_descriptor_corrections st, 1) else (r', st, 0)
      end
  | _, _ => (r, st, 0)
  end.

Definition date_block (qa_data : qa_report) : block := fun r st =>
  let corrections := get_corrections qa_data in
  match flag_truthy (date_corrected qa_data),
        c_publication_date corrections with
  | true, Some date =>
      let '(r', ok) := apply_date_correction r date in
      if ok then (r', incr_date_corrections st, 1) else (r', st, 0)
  | _, _ => (r, st, 0)
  end.

(** [for identifier in identifiers: if self.add_related_identifier(...):
    corrections_applied += 1]. *)
Fixpoint add_related_identifiers (r : record)
    (identifiers : list related_identifier) : record * nat :=
  match identifiers with
  | [] => (r, 0)
  | identifier :: rest =>
      let '(r1, ok) := add_related_identifier r identifier in
      let '(r2, n) := add_related_identifiers r1 rest in
      (r2, (if ok then 1 else 0) + n)
  end.

Definition related_identifier_block (qa_data : qa_report) : block :=
  fun r st =>
  let corrections := get_corrections qa_data in
  match c_related_identifiers corrections with
  | Some identifiers =>
      let '(r', n) :=
        add_related_identifiers r (normalize_identifiers identifiers) in
      (r', st, n)
  | None => (r, st, 0)
  end.

(** *** The object store

    [original_record] and [corrected_record] are references.  The store
    maps a location to the document it holds; a matcher called on a
    reference rewrites the document at that location. *)

Definition loc := nat.

Record correction_metadata := mk_correction_metadata {
  original_record_id : string;
  correction_date : string;
  corrections_applied : nat;
  qa_report_source : string;
  corrections_summary : corrections
}.

(** The dictionary [corrected_data] that [process_qa_report] returns; its
    record entries are references. *)
Record corrected_data := mk_corrected_data {
  corrected_record : loc;
  correction_metadata_of : correction_metadata;
  original_record : loc
}.

(** The text that [json.dump(corrected_data, f)] writes: the documents
    behind the references at the time of the call. *)
Record snapshot := mk_snapshot {
  snap_corrected_record : record;
  snap_correction_metadata : correction_metadata;
  snap_original_record : record
}.

Record world := mk_world {
  heap : gmap loc record;
  self_stats : stats;
  files : list (string * snapshot)
}.

Definition initial_world : world := mk_world ∅ initial_stats [].

(** Computations of the processor: state passing over [world]. *)
Definition M (A : Type) : Type := world -> A * world.

Definition ret {A : Type} (x : A) : M A := fun w => (x, w).

Definition bind {A B : Type} (m : M A) (k : A -> M B) : M B :=
  fun w => let '(x, w') := m w in k x w'.

Notation "'let*' x ':=' m 'in' k" := (bind m (fun x => k))
  (at level 10, x pattern, m at level 100, k at level 200).

(** A new object holding [r]. *)
Definition alloc (r : record) : M loc := fun w =>
  let l := fresh (dom (heap w)) in
  (l, mk_world (<[l := r]> (heap w)) (self_stats w) (files w)).

(** The document behind a reference (a reference held by a variable is
    always allocated; the default is never used). *)
Definition load (l : loc) : M record := fun w =>
  (default empty_record (heap w !! l), w).

(** [json.loads(json.dumps(x))]: a new object with the same contents. *)
Definition deep_copy (l : loc) : M loc :=
  let* r := load l in alloc r.

Definition update_stats (f : stats -> stats) : M unit := fun w =>
  (tt, mk_world (heap w) (f (self_stats w)) (files w)).

Definition write_file (name : string) (s : snapshot) : M unit := fun w =>
  (tt, mk_world (heap w) (self_stats w) (files w ++ [(name, s)])).

(** Runs a correction block on the object behind [l]. *)
Definition run_block (l : loc) (b : block) : M nat := fun w =>
  match heap w !! l with
  | Some r =>
      let '(r', st', n) := b r (self_stats w) in
      (n, mk_world (<[l := r']> (heap w)) st' (files w))
  | None => (0, w)
  end.

Fixpoint run_blocks (l : loc) (bs : list block) : M nat :=
  match bs with
  | [] => ret 0
  | b :: rest =>
      let* n := run_block l b in
      let* m := run_blocks l rest in
      ret (n + m)
  end.

Section Environment.

Variable lower : string -> string.
Variable invenio_url : string.
Variable output_dir : string.
(** The answer of the repository to a GET, [{}] when curl or the JSON
    parser fails. *)
Variable curl_json : string -> record.
(** [datetime.now().isoformat()]. *)
Variable now_iso : string.

Definition fetch_record (record_id : string) : option record :=
  let url := invenio_url ++ "/api/records/" ++ record_id in
  let record_data := curl_json url in
  if is_empty_dict record_data then None else Some record_data.

(** The correction blocks of [process_qa_report] in program order. *)
Definition correction_blocks (qa_data : qa_report) : list block :=
  [ title_block qa_data;
    abstract_block qa_data;
    affiliation_block qa_data;
    descriptor_block lower qa_data;
    date_block qa_data;
    related_identifier_block qa_data ].

(** [process_qa_report]; [parsed] is what [json.load] made of the report
    file, [None] when it raised. *)
Definition process_qa_report (report_path : string)
    (parsed : option qa_report) : M (option corrected_data) :=
  match parsed with
  | None => let* _ := update_stats incr_errors in ret None
  | Some qa_data =>
      let record_id := get_str (record_id qa_data) in
      if negb (str_truthy record_id) then ret None
      else
        match fetch_record record_id with
        | None => ret None
        | Some record_data =>
            let* original_record := alloc record_data in
            let* corrected_record := deep_copy original_record in
            let* corrections_applied :=
              run_blocks corrected_record (correction_blocks qa_data) in
            if (0 <? corrections_applied)%nat then
              let output_file :=
                output_dir ++ "/" ++ record_id ++ "_corrected.json" in
              let correction_metadata :=
                mk_correction_metadata record_id now_iso corrections_applied
                  report_path (get_corrections qa_data) in
              let* corrected := load corrected_record in
              let* original := load original_record in
              let* _ :=
                write_file output_file
                  (mk_snapshot corrected correction_metadata original) in
              let* _ := update_stats incr_records_corrected in
              ret (Some (mk_corrected_data corrected_record
                           correction_metadata original_record))
            else ret None
        end
  end.

(** *** Processing a batch of reports *)

(** What [process_qa_reports] writes to [correction_statistics.json]. *)
Record statistics_file := mk_statistics_file {
  processing_date : string;
  statistics : stats;
  processed_files : list string
}.

(** [for report_file in report_files] of [process_qa_reports]: a report
    file is its path and what [json.load] makes of it.  The result is
    [corrections_applied], the number of reports for which
    [process_qa_report] returned a snapshot. *)
Fixpoint process_report_files
    (report_files : list (string * option qa_report)) : M nat :=
  match report_files with
  | [] => ret 0
  | (report_path, parsed) :: rest =>
      let* _ := update_stats incr_records_processed in
      let* result := process_qa_report report_path parsed in
      let* n := process_report_files rest in
      ret (match result with Some _ => S n | None => n end)
  end.

(** [process_qa_reports]: the count it returns and the statistics file it
    writes. *)
Definition process_qa_reports
    (report_files : list (string * option qa_report))
    : M (nat * statistics_file) :=
  let* corrections_applied := process_report_files report_files in
  fun w =>
    ((corrections_applied,
      mk_statistics_file now_iso (self_stats w) (map fst report_files)),
     w).


End Environment.

End Processor.

(** ** auto_correction_applier.py: class INISCorrectionApplier *)

Module Applier.

(** *** Matchers *)

Definition apply_title_correction (record_data : record) (new_title : string)
    : record * bool :=
  let md := default empty_metadata (rec_metadata record_data) in
  (set_rec_metadata (set_md_title new_title md) record_data, true).

(** [for correction in corrections] for one affiliation entry.
    [current_name] was read before the loop and is not refreshed when the
    entry is overwritten. *)
Fixpoint correct_affiliation (current_name : string)
    (corrections : list affiliation_correction) (a : affiliation)
    : affiliation * nat :=
  match corrections with
  | [] => (a, 0)
  | correction :: rest =>
      let old_aff := get_str (old_affiliation correction) in
      let new_aff := get_str (recommended_affiliation correction) in
      if String.eqb current_name old_aff && str_truthy new_aff then
        let '(a', n) :=
          correct_affiliation current_name rest (set_aff_name new_aff a) in
        (a', S n)
      else correct_affiliation current_name rest a
  end.

Definition correct_creator (corrections : list affiliation_correction)
    (c : creator) : creator * nat :=
  match cr_affiliations c with
  | Some affs =>
      let '(affs', n) :=
        map_count
          (fun a => correct_affiliation (get_str (aff_name a)) corrections a)
          affs in
      (set_cr_affiliations affs' c, n)
  | None => (c, 0)
  end.

(** The record after [apply_affiliation_corrections] and the final value
    of its counter [applied_count]. *)
Definition affiliation_corrections_applied (record_data : record)
    (corrections : list affiliation_correction) : record * nat :=
  match rec_metadata record_data with
  | Some md =>
      match md_creators md with
      | Some creators =>
          let '(creators', n) :=
            map_count (correct_creator corrections) creators in
          (set_rec_metadata (set_md_creators creators' md) record_data, n)
      | None => (record_data, 0)
      end
  | None => (record_data, 0)
  end.

Definition apply_affiliation_corrections (record_data : record)
    (corrections : list affiliation_correction) : record * bool :=
  let '(r', applied_count) :=
    affiliation_corrections_applied record_data corrections in
  (r', (0 <? applied_count)%nat).

Fixpoint correct_org_name (current_name : string)
    (corrections : list organizational_author_correction)
    (p : person_or_org) : person_or_org * nat :=
  match corrections with
  | [] => (p, 0)
  | correction :: rest =>
      let old_org := get_str (old_organizational_author correction) in
      let new_org :=
        get_str (recommended_organizational_author correction) in
      if String.eqb current_name old_org && str_truthy new_org then
        let '(p', n) :=
          correct_org_name current_name rest (set_po_name new_org p) in
        (p', S n)
      else correct_org_name current_name rest p
  end.

Definition correct_org_creator
    (corrections : list organizational_author_correction) (c : creator)
    : creator * nat :=
  match cr_person_or_org c with
  | Some person_org =>
      match po_type person_org with
      | Some ty =>
          if String.eqb ty "organizational" then
            let '(p', n) :=
              correct_org_name (get_str (po_name person_org)) corrections
                person_org in
            (set_cr_person_or_org p' c, n)
          else (c, 0)
      | None => (c, 0)
      end
  | None => (c, 0)
  end.

Definition organizational_author_corrections_applied (record_data : record)
    (corrections : list organizational_author_correction) : record * nat :=
  match rec_metadata record_data with
  | Some md =>
      match md_creators md with
      | Some creators =>
          let '(creators', n) :=
            map_count (correct_org_creator corrections) creators in
          (set_rec_metadata (set_md_creators creators' md) record_data, n)
      | None => (record_data, 0)
      end
  | None => (record_data, 0)
  end.

Definition apply_organizational_author_corrections (record_data : record)
    (corrections : list organizational_author_correction) : record * bool :=
  let '(r', applied_count) :=
    organizational_author_corrections_applied record_data corrections in
  (r', (0 <? applied_count)%nat).

Definition mark_qa_checked (record_data : record) : record :=
  (* if "custom_fields" not in record_data: record_data[...] = {} *)
  let cf := default empty_custom_fields (rec_custom_fields record_data) in
  set_rec_custom_fields (set_cf_qa_checked true cf) record_data.

(** *** Requests and statistics *)

Inductive request :=
  | Post (url : string)
  | Get (url : string)
  | Put (url : string) (payload : record).

Record stats := mk_stats {
  records_processed : nat;
  records_updated : nat;
  records_qa_checked_only : nat;
  title_corrections : nat;
  affiliation_corrections_n : nat;
  organizational_author_corrections_n : nat;
  errors : nat
}.

Definition initial_stats : stats := mk_stats 0 0 0 0 0 0 0.

Definition incr_records_processed (s : stats) : stats :=
  mk_stats (S (records_processed s)) (records_updated s)
    (records_qa_checked_only s) (title_corrections s)
    (affiliation_corrections_n s) (organizational_author_corrections_n s)
    (errors s).

Definition incr_records_updated (s : stats) : stats :=
  mk_stats (records_processed s) (S (records_updated s))
    (records_qa_checked_only s) (title_corrections s)
    (affiliation_corrections_n s) (organizational_author_corrections_n s)
    (errors s).

Definition incr_records_qa_checked_only (s : stats) : stats :=
  mk_stats (records_processed s) (records_updated s)
    (S (records_qa_checked_only s)) (title_corrections s)
    (affiliation_corrections_n s) (organizational_author_corrections_n s)
    (errors s).

Definition incr_title_corrections (s : stats) : stats :=
  mk_stats (records_processed s) (records_updated s)
    (records_qa_checked_only s) (S (title_corrections s))
    (affiliation_corrections_n s) (organizational_author_corrections_n s)
    (errors s).

Definition incr_affiliation_corrections (s : stats) : stats :=
  mk_stats (records_processed s) (records_updated s)
    (records_qa_checked_only s) (title_corrections s)
    (S (affiliation_corrections_n s)) (organizational_author_corrections_n s)
    (errors s).

Definition incr_organizational_author_corrections (s : stats) : stats :=
  mk_stats (records_processed s) (records_updated s)
    (records_qa_checked_only s) (title_corrections s)
    (affiliation_corrections_n s) (S (organizational_author_corrections_n s))
    (errors s).

Definition incr_errors (s : stats) : stats :=
  mk_stats (records_processed s) (records_updated s)
    (records_qa_checked_only s) (title_corrections s)
    (affiliation_corrections_n s) (organizational_author_corrections_n s)
    (S (errors s)).

(** The applier: its statistics and the requests it has sent to the
    repository, oldest first. *)
Record state := mk_state {
  self_stats : stats;
  sent : list request
}.

Definition initial_state : state := mk_state initial_stats [].

Definition M (A : Type) : Type := state -> A * state.

Definition ret {A : Type} (x : A) : M A := fun s => (x, s).

Definition bind {A B : Type} (m : M A) (k : A -> M B) : M B :=
  fun s => let '(x, s') := m s in k x s'.

Notation "'let*' x ':=' m 'in' k" := (bind m (fun x => k))
  (at level 10, x pattern, m at level 100, k at level 200).

Definition update_stats (f : stats -> stats) : M unit := fun s =>
  (tt, mk_state (f (self_stats s)) (sent s)).

(** Lines 262-284 of [update_record]: the corrections on the local
    document [full_draft], the statistics and [corrections_applied]. *)
Definition correct_draft (corrections_data : qa_report) (full_draft : record)
    (st : stats) : record * stats * nat :=
  (* Apply title correction *)
  let '(d1, st1, n1) :=
    match c_title (get_corrections corrections_data) with
    | Some new_title =>
        let '(d, ok) := apply_title_correction full_draft new_title in
        if ok then (d, incr_title_corrections st, 1) else (d, st, 0)
    | None => (full_draft, st, 0)
    end in
  (* Apply affiliation corrections *)
  let aff_corrections := get_list (affiliation_corrections corrections_data) in
  let '(d2, st2, n2) :=
    match aff_corrections with
    | [] => (d1, st1, n1)
    | _ :: _ =>
        let '(d, ok) := apply_affiliation_corrections d1 aff_corrections in
        if ok then (d, incr_affiliation_corrections st1, S n1)
        else (d, st1, n1)
    end in
  (* Apply organizational author corrections *)
  let org_corrections :=
    get_list (organizational_author_corrections corrections_data) in
  let '(d3, st3, n3) :=
    match org_corrections with
    | [] => (d2, st2, n2)
    | _ :: _ =>
        let '(d, ok) :=
          apply_organizational_author_corrections d2 org_corrections in
        if ok then (d, incr_organizational_author_corrections st2, S n2)
        else (d, st2, n2)
    end in
  (* Mark as QA checked *)
  (mark_qa_checked d3, st3, n3).

Section Environment.

Variable base_url : string.
Variable dry_run : bool.
(** The repository: its JSON answer to a request, given the requests it
    has received before ([{}] when curl or the JSON parser fails). *)
Variable respond : list request -> request -> record.

Definition curl_post (url : string) : M record := fun s =>
  (respond (sent s) (Post url), mk_state (self_stats s) (sent s ++ [Post url])).

Definition curl_get (url : string) : M record := fun s =>
  (respond (sent s) (Get url), mk_state (self_stats s) (sent s ++ [Get url])).

Definition curl_put (url : string) (payload : record) : M unit := fun s =>
  (tt, mk_state (self_stats s) (sent s ++ [Put url payload])).

(** ["id" in resp]. *)
Definition has_id (resp : record) : bool :=
  match rec_id resp with Some _ => true | None => false end.

Definition draft_url_of (record_id : string) : string :=
  base_url ++ "/" ++ record_id ++ "/draft".

Definition publish_url_of (record_id : string) : string :=
  draft_url_of record_id ++ "/actions/publish".

(** The tail shared by [update_record] and
    [mark_record_as_qa_checked_only]: [if not self.dry_run: ... else: ...];
    [on_success] is the statistics update of the caller. *)
Definition apply_or_log (record_id : string) (full_draft : record)
    (on_success : stats -> stats) : M bool :=
  if negb dry_run then
    let* _ := curl_put (draft_url_of record_id) full_draft in
    let* pub_resp := curl_post (publish_url_of record_id) in
    if negb (is_empty_dict pub_resp) && has_id pub_resp then
      let* _ := update_stats on_success in ret true
    else
      let* _ := update_stats incr_errors in ret false
  else
    let* _ := update_stats on_success in ret true.

Definition update_record (record_id : string) (corrections_data : qa_report)
    : M bool :=
  let* _ := update_stats incr_records_processed in
  (* Create draft *)
  let* draft_resp := curl_post (draft_url_of record_id) in
  if negb (has_id draft_resp) then
    let* _ := update_stats incr_errors in ret false
  else
    (* Get full draft data *)
    let* full_draft := curl_get (draft_url_of record_id) in
    if is_empty_dict full_draft then
      let* _ := update_stats incr_errors in ret false
    else
      fun s =>
        let '(full_draft', st', _) :=
          correct_draft corrections_data full_draft (self_stats s) in
        apply_or_log record_id full_draft' incr_records_updated
          (mk_state st' (sent s)).

Definition mark_record_as_qa_checked_only (record_id : string) : M bool :=
  let* _ := update_stats incr_records_processed in
  let* draft_resp := curl_post (draft_url_of record_id) in
  if negb (has_id draft_resp) then
    let* _ := update_stats incr_errors in ret false
  else
    let* full_draft := curl_get (draft_url_of record_id) in
    if is_empty_dict full_draft then
      let* _ := update_stats incr_errors in ret false
    else
      apply_or_log record_id (mark_qa_checked full_draft)
        (fun st => incr_records_qa_checked_only (incr_records_updated st)).

(** The test [has_applicable_corrections] of [process_qa_folder]. *)
Definition has_applicable_corrections (report_data : qa_report) : bool :=
  match c_title (get_corrections report_data) with
  | Some _ => true
  | None =>
      match get_list (affiliation_corrections report_data),
            get_list (organizational_author_corrections report_data) with
      | [], [] => false
      | _, _ => true
      end
  end.

(** Body of [for json_file in json_files]; [None] is a file on which
    [json.load] raised [JSONDecodeError]. *)
Definition process_report_file (parsed : option qa_report) : M unit :=
  match parsed with
  | None => update_stats incr_errors
  | Some report_data =>
      let record_id := get_str (record_id report_data) in
      if negb (str_truthy record_id) then ret tt
      else if has_applicable_corrections report_data then
        let* _ := update_record record_id report_data in ret tt
      else
        let* _ := mark_record_as_qa_checked_only record_id in ret tt
  end.

Fixpoint process_report_files (json_files : list (option qa_report))
    : M unit :=
  match json_files with
  | [] => ret tt
  | f :: rest =>
      let* _ := process_report_file f in process_report_files rest
  end.

(** [process_qa_folder]; [None] is a folder that does not exist. *)
Definition process_qa_folder (qa_folder : option (list (option qa_report)))
    : M bool :=
  match qa_folder with
  | None => ret false
  | Some [] => ret false
  | Some json_files =>
      let* _ := process_report_files json_files in ret true
  end.

End Environment.

End Applier.

(** ** o4-INISQAChecker.py: the future-date check *)

Module Checker.

Open Scope Z_scope.

(** A naive [datetime]. *)
Record datetime := mk_datetime {
  year : Z; month : Z; day : Z;
  hour : Z; minute : Z; second : Z; microsecond : Z
}.

(** [a > b] on naive datetimes: lexicographic on the seven fields. *)
Definition datetime_gt (a b : datetime) : bool :=
  let fields (d : datetime) :=
    [year d; month d; day d; hour d; minute d; second d; microsecond d] in
  (fix gt (x y : list Z) : bool :=
     match x, y with
     | u :: x', v :: y' => (v <? u) || ((u =? v) && gt x' y')
     | _, _ => false
     end) (fields a) (fields b).

Definition is_leap (y : Z) : bool :=
  ((y mod 4 =? 0) && negb (y mod 100 =? 0)) || (y mod 400 =? 0).

Definition days_in_month (y m : Z) : Z :=
  if m =? 2 then (if is_leap y then 29 else 28)
  else if (m =? 4) || (m =? 6) || (m =? 9) || (m =? 11) then 30
  else 31.

(** [datetime(y, m, d)], [None] when the constructor raises
    [ValueError]. *)
Definition make_date (y m d : Z) : option datetime :=
  if (1 <=? y) && (y <=? 9999) && (1 <=? m) && (m <=? 12)
     && (1 <=? d) && (d <=? days_in_month y m)
  then Some (mk_datetime y m d 0 0 0 0)
  else None.

(** *** The regular expressions of [strptime]

    [strptime] turns a format into a regular expression, takes the first
    match at the start of the string in the backtracking order of the
    alternatives, and raises [ValueError] when there is no match or when
    text remains after it.  A matcher returns every way to match a prefix
    of its input, in that order, each with the text that remains.  Strings
    are read as ASCII text: [\d] is one of the ten ASCII digits. *)

Definition matcher (A : Type) : Type := list ascii -> list (A * list ascii).

Definition in_range (lo hi c : ascii) : bool :=
  (Ascii.leb lo c && Ascii.leb c hi)%bool.

Definition digit_value (c : ascii) : Z := Z.of_nat (nat_of_ascii c) - 48.

(** A literal character of the format. *)
Definition lit (c : ascii) : matcher unit := fun s =>
  match s with
  | x :: rest => if Ascii.eqb x c then [(tt, rest)] else []
  | [] => []
  end.

(** [%Y]: [\d\d\d\d]. *)
Definition re_Y : matcher Z := fun s =>
  match s with
  | a :: b :: c :: d :: rest =>
      if in_range "0" "9" a && in_range "0" "9" b
         && in_range "0" "9" c && in_range "0" "9" d
      then [(1000 * digit_value a + 100 * digit_value b
             + 10 * digit_value c + digit_value d, rest)]
      else []
  | _ => []
  end.

(** One alternative made of two character classes. *)
Definition two_chars (lo1 hi1 lo2 hi2 : ascii) (value : ascii -> ascii -> Z)
    : matcher Z := fun s =>
  match s with
  | a :: b :: rest =>
      if in_range lo1 hi1 a && in_range lo2 hi2 b
      then [(value a b, rest)] else []
  | _ => []
  end.

(** One alternative made of one character class. *)
Definition one_char (lo hi : ascii) : matcher Z := fun s =>
  match s with
  | a :: rest => if in_range lo hi a then [(digit_value a, rest)] else []
  | [] => []
  end.

Definition two_digits (a b : ascii) : Z := 10 * digit_value a + digit_value b.

(** [%m]: [1[0-2]|0[1-9]|[1-9]]. *)
Definition re_m : matcher Z := fun s =>
  (two_chars "1" "1" "0" "2" two_digits s
   ++ two_chars "0" "0" "1" "9" two_digits s
   ++ one_char "1" "9" s)%list.

(** [%d]: [3[0-1]|[1-2]\d|0[1-9]|[1-9]| [1-9]]. *)
Definition re_d : matcher Z := fun s =>
  (two_chars "3" "3" "0" "1" two_digits s
   ++ two_chars "1" "2" "0" "9" two_digits s
   ++ two_chars "0" "0" "1" "9" two_digits s
   ++ one_char "1" "9" s
   ++ two_chars " " " " "1" "9" (fun _ b => digit_value b) s)%list.

(** Sequencing of matchers, alternatives in backtracking order. *)
Definition seq {A B : Type} (p : matcher A) (k : A -> matcher B)
    : matcher B := fun s =>
  concat (map (fun '(x, rest) => k x rest) (p s)).

(** [re.match] followed by the test that no text remains. *)
Definition full_match {A : Type} (p : matcher A) (s : string) : option A :=
  match p (list_ascii_of_string s) with
  | (x, []) :: _ => Some x
  | _ => None
  end.

(** [datetime.strptime(s, "%Y-%m-%d")], [None] for [ValueError]. *)
Definition strptime_Ymd (s : string) : option datetime :=
  match full_match
          (seq re_Y (fun y => seq (lit "-") (fun _ =>
           seq re_m (fun m => seq (lit "-") (fun _ =>
           seq re_d (fun d rest => [((y, m, d), rest)])))))) s with
  | Some (y, m, d) => make_date y m d
  | None => None
  end.

(** [datetime.strptime(s, "%Y-%m")]: the day defaults to 1. *)
Definition strptime_Ym (s : string) : option datetime :=
  match full_match
          (seq re_Y (fun y => seq (lit "-") (fun _ =>
           seq re_m (fun m rest => [((y, m), rest)])))) s with
  | Some (y, m) => make_date y m 1
  | None => None
  end.

(** *** The lead-record-id check *)

(** The class [[a-z0-9]]. *)
Definition is_id_char (c : ascii) : bool :=
  in_range "a" "z" c || in_range "0" "9" c.

(** [re.fullmatch(r'[a-z0-9]{5}-[a-z0-9]{5}', value) is not None]. *)
Definition is_valid_lead_record_id (value : string) : bool :=
  match list_ascii_of_string value with
  | [a; b; c; d; e; sep; f; g; h; i; j] =>
      forallb is_id_char [a; b; c; d; e] && Ascii.eqb sep "-"
      && forallb is_id_char [f; g; h; i; j]
  | _ => false
  end.

(** The lead-record-id check of [qa_check]: what it appends to
    [extra_recommendations]. *)
Definition lead_record_recommendation (rec : record) : list string :=
  let lead_id :=
    match rec_custom_fields rec with
    | Some cf => cf_lead_record_id cf
    | None => None
    end in
  match lead_id with
  | Some lead_id =>
      if str_truthy lead_id && negb (is_valid_lead_record_id lead_id)
      then [("Lead Record appears to be invalid: " ++ lead_id)%string]
      else []
  | None => []
  end.

Section Clock.

(** [datetime.now()]. *)
Variable now : datetime.

Definition is_future_date (date_str : string) : bool :=
  match strptime_Ymd date_str with
  | Some d => datetime_gt d now
  | None =>
      match strptime_Ym date_str with
      | Some d => datetime_gt d now
      | None => false
      end
  end.

(** The future-date check of [qa_check]: what it appends to
    [extra_recommendations]. *)
Definition future_date_recommendation (rec : record) : list string :=
  let pub_date :=
    match rec_metadata rec with
    | Some md => md_publication_date md
    | None => None
    end in
  match pub_date with
  | Some pub_date =>
      if str_truthy pub_date && is_future_date pub_date
      then [("Publication date is in the future: " ++ pub_date)%string]
      else []
  | None => []
  end.

End Clock.

(** *** The QA loop

    [check_duplicates], [send_to_gpt] and [qa_check].  A run is followed
    through the calls it makes to the assistant, the seconds it sleeps,
    the searches it sends to the repository and the report files it
    writes. *)

(** An entry of [metadata.identifiers], which only [check_duplicates]
    reads. *)
Record identifier := mk_identifier {
  id_identifier : option string;
  id_scheme : option string
}.

(** A record as the checker reads it: the document and its
    [metadata.identifiers]. *)
Record checked_record := mk_checked_record {
  document : record;
  md_identifiers : option (list identifier)
}.

(** What [client.chat.completions.create] does on one call:
    it returns a completion, raises one of [RateLimitError],
    [APITimeoutError], [APIConnectionError], or raises something else. *)
Inductive api_result :=
  | Completion (content : string)
  | TransientError
  | OtherException (e : string).

(** A call that returns or raises. *)
Inductive outcome (A : Type) :=
  | Returned (x : A)
  | Raised (e : string).

Arguments Returned {A} x.
Arguments Raised {A} e.

(** The report that [qa_check] writes: the assistant's JSON object, or
    [error] and [raw_preview] when its reply was no JSON, with the keys
    that [qa_check] sets. *)
Record report_out := mk_report_out {
  ro_error : option string;
  ro_raw_preview : option string;
  ro_report : qa_report
}.

Record run_state := mk_run_state {
  calls : nat;                          (* calls of the assistant so far *)
  sleeps : list nat;                    (* [time.sleep] arguments *)
  searches : list string;               (* URLs given to [curl_json] *)
  written : list (string * report_out)  (* [json.dump] to a report path *)
}.

Record duplicate_flags := mk_duplicate_flags {
  flag_duplicate_by_title : bool;
  flag_duplicate_by_doi : bool
}.

(** The double-quote character. *)
Definition dquote : string := String (ascii_of_nat 34) EmptyString.

(** [next((i.get("identifier") for i in ... if i.get("scheme") == "doi"),
    None)]. *)
Definition first_doi (identifiers : list identifier) : option string :=
  match List.find
          (fun i => match id_scheme i with
                    | Some s => String.eqb s "doi"
                    | None => false
                    end)
          identifiers with
  | Some i => id_identifier i
  | None => None
  end.

(** A report without keys. *)
Definition empty_report : qa_report :=
  mk_qa_report None None None None None None None None None None None None
    None None None.

(** [ai_json.update(flags, record_id=rec.get("id"))]. *)
Definition update_report (flags : duplicate_flags) (rid : option string)
    (q : qa_report) : qa_report :=
  mk_qa_report rid (title_corrected q) (abstract_corrected q)
    (descriptor_corrected q) (date_corrected q)
    (affiliation_correction_recommended q) (scope_ok q)
    (Some (flag_duplicate_by_title flags))
    (Some (flag_duplicate_by_doi flags))
    (suspicious_content q) (historical_context_required q)
    (qa_corrections q) (affiliation_corrections q)
    (organizational_author_corrections q) (recommendations q).

(** [ai_json.setdefault("recommendations", []).extend(extra)]. *)
Definition extend_recommendations (extra : list string) (q : qa_report)
    : qa_report :=
  mk_qa_report (record_id q) (title_corrected q) (abstract_corrected q)
    (descriptor_corrected q) (date_corrected q)
    (affiliation_correction_recommended q) (scope_ok q)
    (duplicate_by_title q) (duplicate_by_doi q)
    (suspicious_content q) (historical_context_required q)
    (qa_corrections q) (affiliation_corrections q)
    (organizational_author_corrections q)
    (Some (get_list (recommendations q) ++ extra)%list).

Section Run.

(** [datetime.now()], [urllib.parse.quote], the base URL. *)
Variable now : datetime.
Variable quote : string -> string.
Variable invenio_url : string.
(** The repository: [data.get("hits", {}).get("total", 0)] of the answer
    of [curl_json] to a URL, given the searches made before. *)
Variable search_total : list string -> string -> Z.
(** The assistant: what the [n]-th call of the run does with a record. *)
Variable api : nat -> checked_record -> api_result.
(** [parse_assistant_json]: the JSON object of the reply, or the message
    of the [JSONDecodeError]. *)
Variable parse_assistant_json : string -> qa_report + string.
(** Whether the value that [json.loads] makes of a reply is an object.
    On any other JSON value [parse_assistant_json] returns that value, and
    [ai_json.update] raises [AttributeError]. *)
Variable json_is_object : string -> bool.
(** Lines 210-220 of [qa_check]: the report path of a source path. *)
Variable report_path_of : string -> string.

Definition curl_total (url : string) (s : run_state) : Z * run_state :=
  (search_total (searches s) url,
   mk_run_state (calls s) (sleeps s) (searches s ++ [url])%list (written s)).

Definition search_url (query : string) : string :=
  (invenio_url ++ "/api/records?q=" ++ quote query ++ "&size=1")%string.

Definition check_duplicates (rec : checked_record) (s : run_state)
    : duplicate_flags * run_state :=
  let meta := default empty_metadata (rec_metadata (document rec)) in
  let xid := get_str (rec_id (document rec)) in
  let title := get_str (md_title meta) in
  let doi := first_doi (get_list (md_identifiers rec)) in
  let '(by_doi, s1) :=
    match doi with
    | Some doi =>
        if str_truthy doi then
          let q :=
            (if str_truthy xid
             then "identifiers.identifier:" ++ dquote ++ doi ++ dquote
                  ++ " AND NOT id: " ++ xid
             else "identifiers.identifier:" ++ dquote ++ doi ++ dquote)%string
          in
          let '(total, s1) := curl_total (search_url q) s in
          (0 <? total, s1)
        else (false, s)
    | None => (false, s)
    end in
  let '(by_title, s2) :=
    if str_truthy title then
      let q :=
        (if str_truthy xid
         then "metadata.title:" ++ dquote ++ title ++ dquote
              ++ " AND NOT id: " ++ xid
         else "metadata.title:" ++ dquote ++ title ++ dquote)%string in
      let '(total, s2) := curl_total (search_url q) s1 in
      (0 <? total, s2)
    else (false, s1) in
  (mk_duplicate_flags by_title by_doi, s2).

(** The loop [for attempt in range(4)] of [send_to_gpt], from the
    attempts that remain. *)
Fixpoint send_attempts (rec : checked_record) (attempts : list nat)
    (s : run_state) : outcome string * run_state :=
  match attempts with
  | [] => (Raised "Max retries exceeded", s)
  | attempt :: rest =>
      let s1 :=
        mk_run_state (S (calls s)) (sleeps s) (searches s) (written s) in
      match api (calls s) rec with
      | Completion content => (Returned content, s1)
      | TransientError =>
          send_attempts rec rest
            (mk_run_state (calls s1)
               (sleeps s1 ++ [Nat.pow 2 attempt])%list
               (searches s1) (written s1))
      | OtherException e => (Raised e, s1)
      end
  end.

Definition send_to_gpt (rec : checked_record) (s : run_state)
    : outcome string * run_state :=
  send_attempts rec (List.seq 0 4) s.

(** The report of one record, from the duplicate flags and the
    assistant's reply. *)
Definition build_report (rec : checked_record) (flags : duplicate_flags)
    (ai_raw : string) : report_out :=
  let ai_json :=
    match parse_assistant_json ai_raw with
    | inl q => mk_report_out None None q
    | inr e =>
        mk_report_out (Some ("Assistant returned non-JSON: " ++ e)%string)
          (Some (String.substring 0 500 ai_raw)) empty_report
    end in
  let q := update_report flags (rec_id (document rec)) (ro_report ai_json) in
  let extra_recommendations :=
    (lead_record_recommendation (document rec)
     ++ future_date_recommendation now (document rec))%list in
  let q' :=
    match extra_recommendations with
    | [] => q
    | _ :: _ => extend_recommendations extra_recommendations q
    end in
  mk_report_out (ro_error ai_json) (ro_raw_preview ai_json) q'.

(** The reply gives [qa_check] a dictionary to update: it is a JSON
    object, or it is no JSON and the [except] branch builds the
    dictionary. *)
Definition gives_dict (ai_raw : string) : bool :=
  match parse_assistant_json ai_raw with
  | inl _ => json_is_object ai_raw
  | inr _ => true
  end.

(** [qa_check]: an exception of [send_to_gpt], or of [ai_json.update] on a
    reply that is JSON but no object, ends the loop. *)
Fixpoint qa_check (batch : list (string * checked_record)) (s : run_state)
    : outcome unit * run_state :=
  match batch with
  | [] => (Returned tt, s)
  | (src_path, rec) :: rest =>
      let '(flags, s1) := check_duplicates rec s in
      let '(ai, s2) := send_to_gpt rec s1 in
      match ai with
      | Raised e => (Raised e, s2)
      | Returned ai_raw =>
          if negb (gives_dict ai_raw) then (Raised "AttributeError", s2)
          else
            qa_check rest
              (mk_run_state (calls s2) (sleeps s2) (searches s2)
                 (written s2
                  ++ [(report_path_of src_path,
                       build_report rec flags ai_raw)])%list)
      end
  end.

(** *** The script, run on the live repository *)

(** [yesterday_iso()], [str] of an index, and the repository:
    [data.get("hits", {}).get("hits", [])] of its answer to a URL. *)
Variable yesterday_iso : string.
Variable str_of_nat : nat -> string.
Variable search_hits : string -> list checked_record.

Definition fetch_records_by_date (date : option string) (s : run_state)
    : list checked_record * run_state :=
  let date :=
    match date with
    | Some d => if str_truthy d then d else yesterday_iso
    | None => yesterday_iso
    end in
  let q :=
    quote ("created:" ++ dquote ++ date ++ dquote
           ++ " AND NOT custom_fields.iaea\:country_of_input.id: xa"
           ++ " AND NOT custom_fields.iaea\:qa_checked: (true)")%string in
  let url :=
    (invenio_url ++ "/api/records?q=" ++ q ++ "&size=1000&sort=oldest")%string
  in
  (search_hits url,
   mk_run_state (calls s) (sleeps s) (searches s ++ [url])%list (written s)).

(** The file names that the script gives to the fetched records: the id
    of the record, or its index in the list when it has none. *)
Fixpoint name_records (i : nat) (fetched : list checked_record)
    : list (string * checked_record) :=
  match fetched with
  | [] => []
  | r :: rest =>
      ((match rec_id (document r) with
        | Some id => id
        | None => "record_" ++ str_of_nat i
        end ++ ".json")%string, r)
      :: name_records (S i) rest
  end.

(** The script with [--live], [--out] and [--date]: its exit status.  An
    exception that nothing catches ends the process with status 1. *)
Definition main_live (date : option string) (s : run_state)
    : Z * run_state :=
  let '(fetched, s1) := fetch_records_by_date date s in
  let '(result, s2) := qa_check (name_records 0 fetched) s1 in
  (match result with Returned _ => 0 | Raised _ => 1 end, s2).


End Run.


End Checker.

(** ** qa_email_sender.py: the report aggregator *)

Module Aggregator.

Record summary := mk_summary {
  records_checked : nat;
  title_corrections : nat;
  affiliation_corrections_n : nat;
  organizational_author_corrections_n : nat;
  abstract_corrections : nat;
  descriptor_corrections : nat;
  date_corrections : nat;
  errors_n : nat
}.

Definition initial_summary : summary := mk_summary 0 0 0 0 0 0 0 0.

(** The locals of [create_summary_report], which it returns in a
    dictionary.  The sets are sets of record ids; the dictionaries are
    keyed by record id (the order in which the keys were inserted is not
    kept). *)
Record report_data := mk_report_data {
  summary_of : summary;
  duplicates : gset string;
  out_of_scope : gset string;
  suspicious_content_ids : gset string;
  historical_context : gset string;
  descriptor_deletions : gmap string (list string);
  abstract_recommendations : gmap string string;
  general_recommendations : gmap string (list string);
  corrections_summary : gmap string (list string);
  errors : list string
}.

Definition initial_report_data : report_data :=
  mk_report_data initial_summary ∅ ∅ ∅ ∅ ∅ ∅ ∅ ∅ [].

(** What opening and parsing a report file gives. *)
Inductive file_content :=
  | JSONDecodeError (e : string)
  | OtherError (e : string)
  | Parsed (data : qa_report).

(** A file of the folder: its name, the id derived from its name
    ([filepath.stem.replace("-report", "")]) and its content. *)
Record report_file := mk_report_file {
  file_name : string;
  stem_id : string;
  content : file_content
}.

(** [d[k].extend(l)] on a [defaultdict(list)]. *)
Definition extend_at (k : string) (l : list string)
    (d : gmap string (list string)) : gmap string (list string) :=
  <[k := (default [] (d !! k) ++ l)%list]> d.

Definition add_if (b : bool) (k : string) (s : gset string) : gset string :=
  if b then {[k]} ∪ s else s.

Definition bump (b : bool) (n : nat) : nat := if b then S n else n.

(** [f"{key}: {value}"]. *)
Definition item (key value : string) : string := key ++ ": " ++ value.

Section Printing.

(** [str] of the value of [corrections["related_identifiers"]]. *)
Variable str_of_identifiers : identifiers_arg -> string.

(** [str(corrections[key])] for a key other than [delete_descriptor] and
    [abstract]; [None] when the mapping has no such key. *)
Definition printed_value (c : corrections) (key : string) : option string :=
  if String.eqb key "title" then c_title c
  else if String.eqb key "publication_date" then c_publication_date c
  else if String.eqb key "related_identifiers" then
    option_map str_of_identifiers (c_related_identifiers c)
  else option_map snd (find (fun kv => String.eqb (fst kv) key) (c_other c)).

(** [for key, value in corrections.items()]: the keys in the order of the
    JSON object, those other than [delete_descriptor] and [abstract] each
    as [f"{key}: {value}"]. *)
Definition other_corrections (c : corrections) : list string :=
  flat_map
    (fun key =>
       if String.eqb key "delete_descriptor" || String.eqb key "abstract"
       then []
       else match printed_value c key with
            | Some value => [item key value]
            | None => []
            end)
    (c_keys c).

(** The part of the loop body after a successful [json.load]. *)
Definition aggregate_report (record_id : string) (data : qa_report)
    (acc : report_data) : report_data :=
  let s := summary_of acc in
  let corrections := get_corrections data in
  let aff := get_list (affiliation_corrections data) in
  let org := get_list (organizational_author_corrections data) in
  let s' :=
    mk_summary
      (S (records_checked s))
      (bump (flag_truthy (title_corrected data)) (title_corrections s))
      (if flag_truthy (affiliation_correction_recommended data)
       then affiliation_corrections_n s + length aff
       else affiliation_corrections_n s)
      (organizational_author_corrections_n s + length org)
      (bump (flag_truthy (abstract_corrected data)) (abstract_corrections s))
      (bump (flag_truthy (descriptor_corrected data))
         (descriptor_corrections s))
      (bump (flag_truthy (date_corrected data)) (date_corrections s))
      (errors_n s) in
  let descriptor_deletions' :=
    match c_delete_descriptor corrections with
    | Some (OneDescriptor d) =>
        extend_at record_id [d] (descriptor_deletions acc)
    | Some (DescriptorList l) =>
        extend_at record_id l (descriptor_deletions acc)
    | None => descriptor_deletions acc
    end in
  let abstract_recommendations' :=
    match flag_truthy (abstract_corrected data), c_abstract corrections with
    | true, Some a => <[record_id := a]> (abstract_recommendations acc)
    | _, _ => abstract_recommendations acc
    end in
  let general_recommendations' :=
    match get_list (recommendations data) with
    | [] => general_recommendations acc
    | recs => extend_at record_id recs (general_recommendations acc)
    end in
  let corrections_summary' :=
    match other_corrections corrections with
    | [] => corrections_summary acc
    | items => extend_at record_id items (corrections_summary acc)
    end in
  mk_report_data s'
    (add_if (flag_truthy (duplicate_by_title data)
             || flag_truthy (duplicate_by_doi data))
       record_id (duplicates acc))
    (add_if (negb (default true (scope_ok data))) record_id
       (out_of_scope acc))
    (add_if (flag_truthy (suspicious_content data)) record_id
       (suspicious_content_ids acc))
    (add_if (flag_truthy (historical_context_required data)) record_id
       (historical_context acc))
    descriptor_deletions' abstract_recommendations'
    general_recommendations' corrections_summary'
    (errors acc).

(** The [except] branches: the error is recorded and counted, and the
    loop goes on with the next file. *)
Definition record_error (msg : string) (acc : report_data) : report_data :=
  let s := summary_of acc in
  mk_report_data
    (mk_summary (records_checked s) (title_corrections s)
       (affiliation_corrections_n s) (organizational_author_corrections_n s)
       (abstract_corrections s) (descriptor_corrections s)
       (date_corrections s) (S (errors_n s)))
    (duplicates acc) (out_of_scope acc) (suspicious_content_ids acc)
    (historical_context acc) (descriptor_deletions acc)
    (abstract_recommendations acc) (general_recommendations acc)
    (corrections_summary acc) (errors acc ++ [msg])%list.

(** Body of [for filepath in report_files]. *)
Definition scan_file (acc : report_data) (f : report_file) : report_data :=
  match content f with
  | JSONDecodeError e =>
      record_error ("Could not parse " ++ file_name f ++ ": " ++ e) acc
  | OtherError e =>
      record_error ("Error reading " ++ file_name f ++ ": " ++ e) acc
  | Parsed data =>
      let record_id := default (stem_id f) (record_id data) in
      aggregate_report record_id data acc
  end.

(** [create_summary_report] on a folder that exists. *)
Definition create_summary_report (report_files : list report_file)
    : report_data :=
  fold_left scan_file report_files initial_report_data.

End Printing.

End Aggregator.

(** ** inis_daily_qa_automation.py: class INISQAAutomation

    The orchestration of a daily run.  The run is followed through the
    directories that exist below its temporary directory, the steps it
    starts and the requests it sends to the repository.  The QA checker
    (a subprocess) and [send_qa_report] are given by what they return;
    the applier is the one of [Applier]; of the processor the run keeps
    the requests that its [fetch_record] sends.  Creating and removing
    directories and writing files are taken to succeed, and a date is
    taken not to contain a path separator, so that paths are compared as
    written. *)

Module Automation.

Inductive event :=
  (* [subprocess.run] of o4-INISQAChecker.py with [--out] and [--date] *)
  | RunChecker (out_dir date : string)
  (* [processor.process_qa_reports] on the reports of [qa_dir] *)
  | ProcessReports (qa_dir output_dir : string)
  (* [send_qa_report(qa_dir, email_config, date)] *)
  | SendReport (qa_dir date : string)
  (* [applier.process_qa_folder(qa_dir)] of a new applier *)
  | ApplyFolder (qa_dir : string) (dry_run : bool)
  (* [shutil.rmtree(self.temp_dir)] *)
  | RemoveTemp.

Record world := mk_world {
  dirs : gset string;               (* the directories that exist *)
  events : list event;              (* the steps started, oldest first *)
  requests : list Applier.request   (* the requests that the processor and
                                       the applier send, oldest first *)
}.

Definition M (A : Type) : Type := world -> A * world.

Definition ret {A : Type} (x : A) : M A := fun w => (x, w).

Definition bind {A B : Type} (m : M A) (k : A -> M B) : M B :=
  fun w => let '(x, w') := m w in k x w'.

Notation "'let*' x ':=' m 'in' k" := (bind m (fun x => k))
  (at level 10, x pattern, m at level 100, k at level 200).

Definition log (e : event) : M unit := fun w =>
  (tt, mk_world (dirs w) (events w ++ [e])%list (requests w)).

Definition send (l : list Applier.request) : M unit := fun w =>
  (tt, mk_world (dirs w) (events w) (requests w ++ l)%list).

(** [path.exists()]. *)
Definition path_exists (path : string) : M bool := fun w =>
  (bool_decide (path ∈ dirs w), w).

(** [base / name]. *)
Definition path_join (base name : string) : string := base ++ "/" ++ name.


(** [self.config["invenio_url"]], a literal of [load_config]. *)
Definition invenio_url : string := "https://inis.iaea.org".

(** The requests of [processor.process_qa_reports(report_files)]:
    [process_qa_report] sends the GET of [fetch_record] for every report
    that [json.load] reads and that has a record id, in the order of the
    files, and nothing else. *)
Definition processor_requests (report_files : list (option qa_report))
    : list Applier.request :=
  flat_map
    (fun parsed =>
       match parsed with
       | Some qa_data =>
           let record_id := get_str (record_id qa_data) in
           if negb (str_truthy record_id) then []
           else [Applier.Get (invenio_url ++ "/api/records/" ++ record_id)]
       | None => []
       end)
    report_files.

Section Environment.

(** [os.getenv]. *)
Variable getenv : string -> option string.
(** The default of [os.getenv("INIS_ACCESS_TOKEN", ...)] in [load_config],
    a literal of the source. *)
Variable default_access_token : string.
(** [tempfile.mkdtemp(prefix="inis_qa_")]: a new, empty directory. *)
Variable temp_dir : string.
(** [get_yesterday_date()]. *)
Variable yesterday : string.
(** The QA checker: its return code for an output directory and a date,
    [None] when [subprocess.run] raises. *)
Variable checker : string -> string -> option Z.
(** The files of a folder after the checker has run, as [json.load] reads
    them ([None]: no JSON).  The folder is new and the checker writes
    nothing but files named [<stem>-report.json] to it, so that
    [glob("*-report.json")] of the processor and [glob("*.json")] of the
    applier list the same files. *)
Variable reports_in : string -> list (option qa_report).
(** [send_qa_report]. *)
Variable send_qa_report : string -> string -> bool.
(** The repository, as for the applier. *)
Variable respond : list Applier.request -> Applier.request -> record.

(** [load_config]: the part of the configuration that the steps read. *)
Definition access_token : string :=
  default default_access_token (getenv "INIS_ACCESS_TOKEN").

Definition base_url : string :=
  default "https://inis.iaea.org/api/records" (getenv "INIS_API_BASE_URL").



Definition qa_results_dir : string := path_join temp_dir "QAResults".

Definition corrected_records_dir : string :=
  path_join temp_dir "CorrectedRecords".

(** [if not date: date = self.get_yesterday_date()]. *)
Definition or_yesterday (date : option string) : string :=
  match date with
  | Some d => if str_truthy d then d else yesterday
  | None => yesterday
  end.

(** [dated_dir.mkdir(parents=True, exist_ok=True)]. *)
Definition create_dated_directory (base_path date suffix : string)
    : M string := fun w =>
  let dir_name :=
    if negb (str_truthy suffix) then "QAResults-" ++ date
    else suffix ++ "-" ++ date in
  let dated_dir := path_join base_path dir_name in
  (dated_dir,
   mk_world ({[dated_dir]} ∪ ({[base_path]} ∪ dirs w)) (events w)
     (requests w)).

Definition qa_date_dir_of (date : string) : string :=
  path_join qa_results_dir ("QAResults-" ++ date).

Definition run_qa_checker (date : option string) : M bool :=
  let date := or_yesterday date in
  let* qa_date_dir := create_dated_directory qa_results_dir date "" in
  let* _ := log (RunChecker qa_date_dir date) in
  ret (match checker qa_date_dir date with
       | Some returncode => (returncode =? 0)%Z
       | None => false
       end).

Definition process_corrections (date : option string) : M bool :=
  let date := or_yesterday date in
  let qa_date_dir := qa_date_dir_of date in
  let* corrected_date_dir :=
    create_dated_directory corrected_records_dir date "QAChecked" in
  let* found := path_exists qa_date_dir in
  if found then
    let* _ := log (ProcessReports qa_date_dir corrected_date_dir) in
    let report_files := reports_in qa_date_dir in
    let* _ := send (processor_requests report_files) in
    ret true
  else ret false.

Definition apply_corrections_to_inis (date : option string)
    (apply_changes : bool) : M bool :=
  let date := or_yesterday date in
  let qa_date_dir := qa_date_dir_of date in
  if negb (str_truthy access_token) then ret true
  else
    let* found := path_exists qa_date_dir in
    if found then
      let dry_run := negb apply_changes in
      let* _ := log (ApplyFolder qa_date_dir dry_run) in
      let '(success, applier) :=
        Applier.process_qa_folder base_url dry_run respond
          (Some (reports_in qa_date_dir)) Applier.initial_state in
      let* _ := send (Applier.sent applier) in
      ret success
    else ret false.

Definition send_daily_report (date : option string) : M bool :=
  let date := or_yesterday date in
  let qa_date_dir := qa_date_dir_of date in
  let* found := path_exists qa_date_dir in
  if found then
    let* _ := log (SendReport qa_date_dir date) in
    ret (send_qa_report qa_date_dir date)
  else ret false.

Definition cleanup_temp_files : M unit :=
  let* found := path_exists temp_dir in
  if found then
    fun w => (tt, mk_world ∅ (events w ++ [RemoveTemp])%list (requests w))
  else ret tt.

Definition run_daily_automation (date : option string)
    (apply_corrections : option bool) : M bool :=
  let date := or_yesterday date in
  let apply_corrections :=
    match apply_corrections with
    | Some b => b
    | None => str_truthy access_token
    end in
  let* success :=
    (* Step 1: Run QA checker *)
    let* checked := run_qa_checker (Some date) in
    if negb checked then ret false
    else
      (* Step 2: Process corrections *)
      let* processed := process_corrections (Some date) in
      (* Step 3: Send daily report *)
      let* reported := send_daily_report (Some date) in
      (* Step 4: Apply corrections to INIS *)
      let* applied := apply_corrections_to_inis (Some date) apply_corrections in
      ret (processed && reported && applied) in
  (* finally *)
  let* _ := cleanup_temp_files in
  ret success.

(** The state in which [INISQAAutomation()] leaves a new process. *)
Definition initial_world : world := mk_world {[temp_dir]} [] [].


End Environment.

End Automation.


(** * Properties *)

Open Scope list_scope.

(** ** Vocabulary *)

(** What overwriting [old] by [new] does to one name. *)
Definition rename (old new x : string) : string :=
  if String.eqb x old then new else x.

(** Number of entries of [l] that equal [x]. *)
Definition count_eq (x : string) (l : list string) : nat :=
  length (List.filter (fun y => String.eqb y x) l).

(** A correction pair as the report carries it. *)
Definition pair_of (old new : string) : affiliation_correction :=
  mk_affiliation_correction (Some old) (Some new).

(** *** Example documents *)

(** A record with one creator whose only affiliation is named [name]. *)
Definition record_with_affiliation (name : string) : record :=
  mk_record (Some "abcde-12345")
    (Some (mk_metadata (Some "Old Title") None None
       (Some [mk_creator
                (Some (mk_person_or_org (Some "personal") (Some "Doe, J.")))
                (Some [mk_affiliation (Some name) None])])
       None))
    None.

(** A record with two creators affiliated to [name], one of them also to
    another institute. *)
Definition record_with_two_matches (name : string) : record :=
  mk_record (Some "abcde-12345")
    (Some (mk_metadata (Some "Old Title") None None
       (Some [mk_creator None
                (Some [mk_affiliation (Some name) None;
                       mk_affiliation (Some "JINR") None]);
              mk_creator None (Some [mk_affiliation (Some name) None])])
       None))
    None.

(** [str.lower] on ASCII text. *)
Definition lower_ascii (c : ascii) : ascii :=
  if (Ascii.leb "A" c && Ascii.leb c "Z")%bool
  then ascii_of_nat (nat_of_ascii c + 32)
  else c.

Fixpoint ascii_lower (s : string) : string :=
  match s with
  | EmptyString => EmptyString
  | String c s' => String (lower_ascii c) (ascii_lower s')
  end.

(** The test that descriptor deletion applies to an entry. *)
Definition kept (lower : string -> string) (deletions : list string)
    (d : string) : bool :=
  negb (str_in (lower d) (map lower deletions)).

(** A record whose descriptors are [l]. *)
Definition record_with_descriptors (l : list string) : record :=
  mk_record (Some "abcde-12345") None
    (Some (mk_custom_fields None (Some l) None)).

(** The identifier strings of the related identifiers of a record, as
    [add_related_identifier] collects them. *)
Definition existing_identifiers (r : record) : list string :=
  map (fun ri => get_str (ri_identifier ri)) (related_identifiers_of r).

(** A record whose metadata holds the related identifiers [l]. *)
Definition record_with_related (l : list related_identifier) : record :=
  mk_record (Some "abcde-12345")
    (Some (mk_metadata (Some "Old Title") None None None (Some l)))
    None.

(** The object [{"identifier": "10.1/x"}]. *)
Definition doi_x : related_identifier :=
  mk_related_identifier (Some "10.1/x") None None.

(** The date that the future-date check reads in a string: the format
    [%Y-%m-%d] first, [%Y-%m] when that one raises. *)
Definition parse_publication_date (s : string) : option Checker.datetime :=
  match Checker.strptime_Ymd s with
  | Some d => Some d
  | None => Checker.strptime_Ym s
  end.

(** Midnight at the start of a day. *)
Definition midnight (y m d : Z) : Checker.datetime :=
  Checker.mk_datetime y m d 0 0 0 0.

(** A record whose only content is its publication date. *)
Definition record_published (date : string) : record :=
  mk_record (Some "abcde-12345")
    (Some (mk_metadata None None (Some date) None None)) None.

(** A report file that was read and parsed. *)
Definition is_parsed (f : Aggregator.report_file) : bool :=
  match Aggregator.content f with
  | Aggregator.Parsed _ => true
  | _ => false
  end.

(** The entries that the files of [l] that could not be read add to the
    error list. *)
Definition error_messages (l : list Aggregator.report_file) : list string :=
  flat_map
    (fun f =>
       match Aggregator.content f with
       | Aggregator.JSONDecodeError e =>
           [("Could not parse " ++ Aggregator.file_name f ++ ": " ++ e)%string]
       | Aggregator.OtherError e =>
           [("Error reading " ++ Aggregator.file_name f ++ ": " ++ e)%string]
       | Aggregator.Parsed _ => []
       end) l.

(** An aggregate with its error counter and error list reset; every other
    counter, set and dictionary is kept. *)
Definition clear_errors (d : Aggregator.report_data) : Aggregator.report_data :=
  let s := Aggregator.summary_of d in
  Aggregator.mk_report_data
    (Aggregator.mk_summary
       (Aggregator.records_checked s) (Aggregator.title_corrections s)
       (Aggregator.affiliation_corrections_n s)
       (Aggregator.organizational_author_corrections_n s)
       (Aggregator.abstract_corrections s)
       (Aggregator.descriptor_corrections s)
       (Aggregator.date_corrections s) 0)
    (Aggregator.duplicates d) (Aggregator.out_of_scope d)
    (Aggregator.suspicious_content_ids d) (Aggregator.historical_context d)
    (Aggregator.descriptor_deletions d)
    (Aggregator.abstract_recommendations d)
    (Aggregator.general_recommendations d)
    (Aggregator.corrections_summary d) [].

(** A report that flags its record as a duplicate and corrects its title. *)
Definition sample_report : qa_report :=
  mk_qa_report (Some "abcde-12345") (Some true) None None None None None
    (Some true) None None None
    (Some (mk_corrections (Some "New Title") None None None None []
             ["title"]))
    None None (Some ["Check the language"]).

Definition sample_files : list Aggregator.report_file :=
  [ Aggregator.mk_report_file "a-report.json" "a"
      (Aggregator.JSONDecodeError "Expecting value: line 1 column 1 (char 0)");
    Aggregator.mk_report_file "b-report.json" "b"
      (Aggregator.Parsed sample_report) ].

(** The effect of a sequence of correction blocks on one document and on
    the statistics, with the total they add to [corrections_applied]. *)
Fixpoint compose_blocks (bs : list Processor.block) : Processor.block :=
  fun r st =>
    match bs with
    | [] => (r, st, 0)
    | b :: rest =>
        let '(r1, st1, n) := b r st in
        let '(r2, st2, m) := compose_blocks rest r1 st1 in
        (r2, st2, n + m)
    end.

(** The location that [process_qa_report] allocates for
    [original_record] in the world [w]. *)
Definition original_loc (w : Processor.world) : Processor.loc :=
  fresh (dom (Processor.heap w)).

(** The location that it allocates for [corrected_record] once the
    fetched document [r] is stored. *)
Definition corrected_loc (w : Processor.world) (r : record) : Processor.loc :=
  fresh (dom (<[original_loc w := r]> (Processor.heap w))).

Definition nat_of_bool (b : bool) : nat := if b then 1 else 0.

(** A repository that answers every GET with the same record. *)
Definition constant_repository (r : record) : string -> record := fun _ => r.

(** *** What the correction blocks of a report do *)

Definition is_some {A : Type} (o : option A) : bool :=
  match o with Some _ => true | None => false end.

(** The record has a metadata section. *)
Definition has_metadata (r : record) : bool := is_some (rec_metadata r).

(** The gates of the four corrections that have a flag and a key. *)
Definition title_applied (q : qa_report) : bool :=
  flag_truthy (title_corrected q) && is_some (c_title (get_corrections q)).

Definition abstract_applied (q : qa_report) : bool :=
  flag_truthy (abstract_corrected q)
  && is_some (c_abstract (get_corrections q)).

Definition date_applied (q : qa_report) : bool :=
  flag_truthy (date_corrected q)
  && is_some (c_publication_date (get_corrections q)).

(** The deletion list of a report whose descriptor gate is open, [[]]
    otherwise. *)
Definition deletions_of (q : qa_report) : list string :=
  if flag_truthy (descriptor_corrected q) then
    match c_delete_descriptor (get_corrections q) with
    | Some d => Processor.normalize_deletions d
    | None => []
    end
  else [].

(** Some descriptor of [r] is deleted. *)
Definition descriptor_applied (lower : string -> string) (q : qa_report)
    (r : record) : bool :=
  existsb (fun d => negb (kept lower (deletions_of q) d)) (descriptors_of r).

(** The affiliation pairs of a report whose affiliation gate is open. *)
Definition affiliation_pairs_of (q : qa_report) : list affiliation_correction :=
  if flag_truthy (affiliation_correction_recommended q)
  then get_list (affiliation_corrections q)
  else [].

(** Some affiliation entry of [r] matched a pair during the scans. *)
Definition affiliation_applied (q : qa_report) (r : record) : bool :=
  (0 <? snd (Processor.affiliation_passes (affiliation_pairs_of q)
               (creators_of r)))%nat.

(** The identifier objects of a report. *)
Definition identifiers_of (q : qa_report) : list related_identifier :=
  match c_related_identifiers (get_corrections q) with
  | Some i => Processor.normalize_identifiers i
  | None => []
  end.

(** The list that results from adding the objects [ids] one after the
    other to the related identifiers [rel]. *)
Fixpoint append_new (ids rel : list related_identifier)
    : list related_identifier :=
  match ids with
  | [] => rel
  | i :: rest =>
      let ident := get_str (ri_identifier i) in
      if str_truthy ident
         && negb (str_in ident (map (fun ri => get_str (ri_identifier ri)) rel))
      then append_new rest (rel ++ [i])
      else append_new rest rel
  end.

(** What the blocks read and write in a record. *)
Record view := mk_view {
  v_title : option string;
  v_description : option string;
  v_publication_date : option string;
  v_creators : list creator;
  v_related : list related_identifier;
  v_descriptors : list string;
  v_has_metadata : bool;
  v_qa_checked : option bool
}.

Definition view_of (r : record) : view :=
  mk_view (title_of r) (description_of r) (publication_date_of r)
    (creators_of r) (related_identifiers_of r) (descriptors_of r)
    (has_metadata r) (qa_checked_of r).

(** The effect of each block on the view of the record, and what it adds
    to [corrections_applied]. *)
Definition title_view (q : qa_report) (v : view) : view :=
  mk_view (if title_applied q then c_title (get_corrections q) else v_title v)
    (v_description v) (v_publication_date v) (v_creators v) (v_related v)
    (v_descriptors v) (title_applied q || v_has_metadata v)
    (v_qa_checked v).

Definition abstract_view (q : qa_report) (v : view) : view :=
  mk_view (v_title v)
    (if abstract_applied q then c_abstract (get_corrections q)
     else v_description v)
    (v_publication_date v) (v_creators v) (v_related v)
    (v_descriptors v) (abstract_applied q || v_has_metadata v)
    (v_qa_checked v).

Definition date_view (q : qa_report) (v : view) : view :=
  mk_view (v_title v) (v_description v)
    (if date_applied q then c_publication_date (get_corrections q)
     else v_publication_date v)
    (v_creators v) (v_related v)
    (v_descriptors v) (date_applied q || v_has_metadata v)
    (v_qa_checked v).

Definition affiliation_view (q : qa_report) (v : view) : view :=
  mk_view (v_title v) (v_description v) (v_publication_date v)
    (fst (Processor.affiliation_passes (affiliation_pairs_of q)
            (v_creators v)))
    (v_related v) (v_descriptors v) (v_has_metadata v)
    (v_qa_checked v).

Definition affiliation_count (q : qa_report) (v : view) : nat :=
  nat_of_bool
    (0 <? snd (Processor.affiliation_passes (affiliation_pairs_of q)
                 (v_creators v)))%nat.

Definition descriptor_view (lower : string -> string) (q : qa_report)
    (v : view) : view :=
  mk_view (v_title v) (v_description v) (v_publication_date v)
    (v_creators v) (v_related v)
    (List.filter (kept lower (deletions_of q)) (v_descriptors v))
    (v_has_metadata v) (v_qa_checked v).

Definition descriptor_count (lower : string -> string) (q : qa_report)
    (v : view) : nat :=
  nat_of_bool
    (existsb (fun d => negb (kept lower (deletions_of q) d))
       (v_descriptors v)).

(** The effect of adding the identifier objects [ids] one after the
    other; without a metadata section the record stays as it is. *)
Definition add_view (ids : list related_identifier) (v : view) : view :=
  mk_view (v_title v) (v_description v) (v_publication_date v)
    (v_creators v)
    (if v_has_metadata v then append_new ids (v_related v) else v_related v)
    (v_descriptors v) (v_has_metadata v) (v_qa_checked v).

(** Number of calls of [add_related_identifier] that return true. *)
Definition add_count (ids : list related_identifier) (v : view) : nat :=
  if v_has_metadata v
  then length (append_new ids (v_related v)) - length (v_related v)
  else length (List.filter
                 (fun i => str_truthy (get_str (ri_identifier i))) ids).

Definition related_view (q : qa_report) : view -> view :=
  add_view (identifiers_of q).

Definition related_count (q : qa_report) : view -> nat :=
  add_count (identifiers_of q).

(** The block [b] acts on views as [fv] and counts [fc]. *)
Definition acts_as (b : Processor.block) (fv : view -> view)
    (fc : view -> nat) : Prop :=
  forall r st,
    view_of (fst (fst (b r st))) = fv (view_of r)
    /\ snd (b r st) = fc (view_of r).

(** The six blocks of [process_qa_report] in program order, on views. *)
Definition corrected_view (lower : string -> string) (q : qa_report)
    (v : view) : view :=
  related_view q
    (date_view q
       (descriptor_view lower q
          (affiliation_view q (abstract_view q (title_view q v))))).

(** The report [q] with its five correction flags replaced. *)
Definition set_flags (title abstract descriptor date affiliation : option bool)
    (q : qa_report) : qa_report :=
  mk_qa_report (record_id q) title abstract descriptor date affiliation
    (scope_ok q) (duplicate_by_title q) (duplicate_by_doi q)
    (suspicious_content q) (historical_context_required q)
    (qa_corrections q) (affiliation_corrections q)
    (organizational_author_corrections q) (recommendations q).

(** A report for record [abcde-12345] without flags, corrections or
    recommendations. *)
Definition bare_report : qa_report :=
  mk_qa_report (Some "abcde-12345") None None None None None None None None
    None None None None None None.

(** [bare_report] with the corrections mapping [c]. *)
Definition report_with_corrections (c : corrections) : qa_report :=
  mk_qa_report (Some "abcde-12345") None None None None None None None None
    None None (Some c) None None None.

(** [bare_report] with the affiliation pairs [l] and the flag
    [affiliation_correction_recommended] set to [flag]. *)
Definition report_with_affiliations (flag : option bool)
    (l : list affiliation_correction) : qa_report :=
  mk_qa_report (Some "abcde-12345") None None None None flag None None None
    None None None (Some l) None None.

(** The end-to-end example of the specification:
    [{"record_id": "abcde-12345", "corrections": {"title": "New Title"},
      "title_corrected": true}]. *)
Definition title_report : qa_report :=
  mk_qa_report (Some "abcde-12345") (Some true) None None None None None
    None None None None
    (Some (mk_corrections (Some "New Title") None None None None []
             ["title"]))
    None None None.

(** [process_qa_report] in a fixed environment: ASCII lowercasing, a
    repository that answers with [r], an empty store. *)
Definition process_example (r : record) (q : qa_report)
    : option Processor.corrected_data * Processor.world :=
  Processor.process_qa_report ascii_lower "https://inis.iaea.org" "out"
    (constant_repository r) "2026-11-03T00:00:00" "abcde-12345-report.json"
    (Some q) Processor.initial_world.

(** The document behind [corrected_record] after [process_example]. *)
Definition corrected_example (r : record) (q : qa_report) : option record :=
  Processor.heap (snd (process_example r q))
    !! corrected_loc Processor.initial_world r.

(** [corrections_applied] of the snapshot, if one was written. *)
Definition applied_example (r : record) (q : qa_report) : option nat :=
  match fst (process_example r q) with
  | Some cd =>
      Some (Processor.corrections_applied (Processor.correction_metadata_of cd))
  | None => None
  end.

(** The object [{"identifier": "10.1/y"}]. *)
Definition doi_y : related_identifier :=
  mk_related_identifier (Some "10.1/y") None None.

(** A report whose only content is the correction
    ["related_identifiers": ids]. *)
Definition identifiers_report (ids : identifiers_arg) : qa_report :=
  report_with_corrections
    (mk_corrections None None None None (Some ids) []
       ["related_identifiers"]).

(** A report without any flag whose corrections hold a title. *)
Definition unflagged_title_report : qa_report :=
  report_with_corrections
    (mk_corrections (Some "New Title") None None None None [] ["title"]).

(** *** Requests of the applier *)

(** A draft update carries the QA-checked marker. *)
Definition put_is_checked (req : Applier.request) : Prop :=
  match req with
  | Applier.Put _ payload => qa_checked_of payload = Some true
  | _ => True
  end.

(** The draft that [update_record] builds from the fetched draft. *)
Definition corrected_draft (q : qa_report) (full_draft : record) : record :=
  fst (fst (Applier.correct_draft q full_draft Applier.initial_stats)).

(** The requests of a call that builds the document [build full_draft]
    from the draft of [record_id], the repository having received the
    requests [before]. *)
Definition draft_requests (base_url : string) (dry_run : bool)
    (respond : list Applier.request -> Applier.request -> record)
    (record_id : string) (build : record -> record)
    (before : list Applier.request) : list Applier.request :=
  let url := Applier.draft_url_of base_url record_id in
  let draft_resp := respond before (Applier.Post url) in
  let full_draft := respond (before ++ [Applier.Post url]) (Applier.Get url) in
  Applier.Post url
  :: (if Applier.has_id draft_resp then
        Applier.Get url
        :: (if is_empty_dict full_draft || dry_run then []
            else [Applier.Put url (build full_draft);
                  Applier.Post (Applier.publish_url_of base_url record_id)])
      else []).

(** A repository that answers every request with the same document. *)
Definition constant_responder (r : record)
    : list Applier.request -> Applier.request -> record := fun _ _ => r.

(** A request that opens or reads the draft of a record: it is not a
    draft update, and if it is a POST it is the creation of a draft. *)
Definition opens_draft (base_url : string) (req : Applier.request) : Prop :=
  match req with
  | Applier.Post url => exists rid, url = Applier.draft_url_of base_url rid
  | Applier.Get url => exists rid, url = Applier.draft_url_of base_url rid
  | Applier.Put _ _ => False
  end.

(** The names after the scans of the processor: each pair whose two
    names are non-empty renames, in program order. *)
Fixpoint rename_passes (cs : list affiliation_correction)
    (names : list string) : list string :=
  match cs with
  | [] => names
  | c :: rest =>
      let old := get_str (old_affiliation c) in
      let new := get_str (recommended_affiliation c) in
      if negb (str_truthy old) || negb (str_truthy new)
      then rename_passes rest names
      else rename_passes rest (map (rename old new) names)
  end.

(** The name that the applier leaves on an entry that was named [current]:
    the recommendation of the last pair that matches [current]. *)
Fixpoint last_match (current : string) (cs : list affiliation_correction)
    (name : string) : string :=
  match cs with
  | [] => name
  | c :: rest =>
      let old := get_str (old_affiliation c) in
      let new := get_str (recommended_affiliation c) in
      if String.eqb current old && str_truthy new
      then last_match current rest new
      else last_match current rest name
  end.

(** *** Organizational authors *)

(** [person_or_org.get("type") == "organizational"] for a creator. *)
Definition is_organizational (c : creator) : bool :=
  match cr_person_or_org c with
  | Some p =>
      match po_type p with
      | Some ty => String.eqb ty "organizational"
      | None => false
      end
  | None => false
  end.

(** The name of a creator as the applier reads it. *)
Definition creator_name (c : creator) : string :=
  match cr_person_or_org c with
  | Some p => get_str (po_name p)
  | None => ""
  end.

(** The names of the organizational creators of a record, in order. *)
Definition organizational_names (r : record) : list string :=
  map creator_name (List.filter is_organizational (creators_of r)).

(** The other creators of a record, in order. *)
Definition other_creators (r : record) : list creator :=
  List.filter (fun c => negb (is_organizational c)) (creators_of r).

Definition org_pair_of (old new : string) : organizational_author_correction :=
  mk_organizational_author_correction (Some old) (Some new).

(** A record with a personal author named [person] and an organizational
    author named [org]. *)
Definition record_with_authors (person org : string) : record :=
  mk_record (Some "abcde-12345")
    (Some (mk_metadata (Some "Old Title") None None
       (Some [mk_creator
                (Some (mk_person_or_org (Some "personal") (Some person)))
                None;
              mk_creator
                (Some (mk_person_or_org (Some "organizational") (Some org)))
                None])
       None))
    None.

(** *** Aggregation *)

(** A parsed report file whose report has a true [title_corrected]. *)
Definition has_title_flag (f : Aggregator.report_file) : bool :=
  match Aggregator.content f with
  | Aggregator.Parsed data => flag_truthy (title_corrected data)
  | _ => false
  end.

(** Two report files, one with [title_corrected: true] and one
    without. *)
Definition two_report_files : list Aggregator.report_file :=
  [ Aggregator.mk_report_file "abcde-12345-report.json" "abcde-12345"
      (Aggregator.Parsed title_report);
    Aggregator.mk_report_file "fghij-67890-report.json" "fghij-67890"
      (Aggregator.Parsed bare_report) ].

(** *** Batches of reports *)

(** The counters of the processor that no correction block touches. *)
Definition batch_counters (st : Processor.stats) : nat * nat * nat :=
  (Processor.records_processed st, Processor.records_corrected st,
   Processor.errors st).

(** A report file on which [json.load] raised. *)
Definition is_unparsable (f : string * option qa_report) : bool :=
  match snd f with Some _ => false | None => true end.

(** A report file that leads to a call on a record: it is valid JSON and
    its [record_id] is truthy. *)
Definition is_addressed (f : option qa_report) : bool :=
  match f with
  | Some q => str_truthy (get_str (record_id q))
  | None => false
  end.

(** How the statistics [st'] of the applier relate to the earlier
    statistics [st] after [addressed] calls on a record and [unparsable]
    files that are no JSON. *)
Definition applier_counts (st st' : Applier.stats)
    (addressed unparsable : nat) : Prop :=
  Applier.records_processed st' = Applier.records_processed st + addressed
  /\ Applier.records_updated st' + Applier.errors st'
     = Applier.records_updated st + Applier.errors st
       + addressed + unparsable
  /\ Applier.records_updated st <= Applier.records_updated st'
  /\ Applier.errors st <= Applier.errors st'
  /\ Applier.records_qa_checked_only st
     <= Applier.records_qa_checked_only st'
  /\ Applier.records_qa_checked_only st' + Applier.records_updated st
     <= Applier.records_qa_checked_only st + Applier.records_updated st'
  /\ Applier.title_corrections st <= Applier.title_corrections st'
     <= Applier.title_corrections st + addressed
  /\ Applier.affiliation_corrections_n st
     <= Applier.affiliation_corrections_n st'
     <= Applier.affiliation_corrections_n st + addressed
  /\ Applier.organizational_author_corrections_n st
     <= Applier.organizational_author_corrections_n st'
     <= Applier.organizational_author_corrections_n st + addressed.


(** The reports of the files that could be parsed, each with the record id
    under which [create_summary_report] files it: the report's [record_id],
    or the id derived from the file name when the report has none. *)
Definition parsed_reports (files : list Aggregator.report_file)
    : list (string * qa_report) :=
  flat_map
    (fun f =>
       match Aggregator.content f with
       | Aggregator.Parsed data =>
           [(default (Aggregator.stem_id f) (record_id data), data)]
       | _ => []
       end)
    files.

(** Number of reports that satisfy [p], and the sum of [weight] over the
    reports. *)
Definition count_reports (p : qa_report -> bool)
    (l : list (string * qa_report)) : nat :=
  length (List.filter (fun x => p (snd x)) l).

Definition sum_reports (weight : qa_report -> nat)
    (l : list (string * qa_report)) : nat :=
  list_sum (map (fun x => weight (snd x)) l).

(** The record ids of the reports that satisfy [p]. *)
Definition flagged_ids (p : qa_report -> bool)
    (l : list (string * qa_report)) : gset string :=
  list_to_set (map fst (List.filter (fun x => p (snd x)) l)).

(** The tests under which [create_summary_report] lists a record. *)
Definition is_duplicate (d : qa_report) : bool :=
  flag_truthy (duplicate_by_title d) || flag_truthy (duplicate_by_doi d).

Definition is_out_of_scope (d : qa_report) : bool :=
  negb (default true (scope_ok d)).

(** The number of affiliation corrections that the summary counts for a
    report. *)
Definition counted_affiliations (d : qa_report) : nat :=
  if flag_truthy (affiliation_correction_recommended d)
  then length (get_list (affiliation_corrections d))
  else 0.

Definition counted_organizations (d : qa_report) : nat :=
  length (get_list (organizational_author_corrections d)).



(** The reply is JSON. *)
Definition is_json (parse : string -> qa_report + string) (raw : string)
    : bool :=
  match parse raw with inl _ => true | inr _ => false end.

(** The recommendations that [qa_check] computes itself. *)
Definition extra_recommendations (now : Checker.datetime) (r : record)
    : list string :=
  Checker.lead_record_recommendation r
  ++ Checker.future_date_recommendation now r.






(** No recommended name of the list is an old name of the list: applying
    the list to its own result finds nothing to rename. *)
Definition no_chain_affiliations (l : list affiliation_correction) : Prop :=
  forall c c', In c l -> In c' l ->
    get_str (recommended_affiliation c) <> get_str (old_affiliation c').

Definition no_chain_organizations
    (l : list organizational_author_correction) : Prop :=
  forall c c', In c l -> In c' l ->
    get_str (recommended_organizational_author c)
    <> get_str (old_organizational_author c').


(** The record with [g] applied to each of its creators. *)
Definition map_creators (g : creator -> creator) (r : record) : record :=
  match rec_metadata r with
  | Some md =>
      match md_creators md with
      | Some creators =>
          set_rec_metadata (set_md_creators (map g creators) md) r
      | None => r
      end
  | None => r
  end.

(** What a second application of a report adds to the statistics and to
    [corrections_applied]: the title correction, which is unconditional. *)
Definition title_again (q : qa_report) (st : Applier.stats)
    : Applier.stats * nat :=
  match c_title (get_corrections q) with
  | Some _ => (Applier.incr_title_corrections st, 1)
  | None => (st, 0)
  end.


(** The passes of the processor, followed on one affiliation entry: each
    pair with two non-empty names renames the entry if it has the old
    name, in program order. *)
Fixpoint passes_on_entry (cs : list affiliation_correction) (a : affiliation)
    : affiliation * nat :=
  match cs with
  | [] => (a, 0)
  | c :: rest =>
      let old := get_str (old_affiliation c) in
      let new := get_str (recommended_affiliation c) in
      if negb (str_truthy old) || negb (str_truthy new)
      then passes_on_entry rest a
      else
        let '(a1, n) := Processor.correct_affiliation old new a in
        let '(a2, m) := passes_on_entry rest a1 in
        (a2, n + m)
  end.

(** A loop over the affiliation entries of a creator. *)
Definition on_affiliations (f : affiliation -> affiliation * nat)
    (c : creator) : creator * nat :=
  match cr_affiliations c with
  | Some affs =>
      let '(affs', n) := map_count f affs in
      (set_cr_affiliations affs' c, n)
  | None => (c, 0)
  end.

(** The old names of a list of pairs. *)
Definition old_names (cs : list affiliation_correction) : list string :=
  map (fun c => get_str (old_affiliation c)) cs.








(** The state of a checker process that has just started. *)
Definition new_run : Checker.run_state := Checker.mk_run_state 0 [] [] [].


(** ** Python primitives *)

Lemma str_truthy_true s : str_truthy s = true <-> s <> "".
Proof.
  unfold str_truthy. rewrite negb_true_iff.
  destruct (String.eqb_spec s ""); split; congruence.
Qed.

Lemma str_truthy_false s : str_truthy s = false <-> s = "".
Proof.
  unfold str_truthy. rewrite negb_false_iff. apply String.eqb_eq.
Qed.

Lemma str_in_In x l : str_in x l = true <-> In x l.
Proof.
  unfold str_in. rewrite existsb_exists. split.
  - intros (y & Hy & E). apply String.eqb_eq in E. now subst.
  - intros H. exists x. split; [assumption | apply String.eqb_refl].
Qed.

Lemma map_count_spec {A : Type} (f : A -> A * nat) (l : list A) :
  map_count f l
  = (map (fun x => fst (f x)) l, list_sum (map (fun x => snd (f x)) l)).
Proof.
  induction l as [|x l IH]; simpl; [reflexivity|].
  rewrite IH. destruct (f x); reflexivity.
Qed.

Lemma map_count_ext {A : Type} (f g : A -> A * nat) (l : list A) :
  (forall x, f x = g x) -> map_count f l = map_count g l.
Proof.
  intros E. induction l as [|x l IH]; simpl; [reflexivity|].
  now rewrite E, IH.
Qed.

Lemma count_eq_app x l1 l2 :
  count_eq x (l1 ++ l2) = count_eq x l1 + count_eq x l2.
Proof. unfold count_eq. now rewrite List.filter_app, length_app. Qed.

Lemma count_eq_pos x l : 0 < count_eq x l <-> In x l.
Proof.
  unfold count_eq. induction l as [|y l IH]; simpl.
  - split; [lia | tauto].
  - destruct (String.eqb_spec y x); simpl.
    + split; [intros _; now left | lia].
    + rewrite IH. split; [tauto | intros [E | H]; congruence].
Qed.

Lemma rename_not_old old new l :
  old <> new -> ~ In old (map (rename old new) l).
Proof.
  intros Hne Hin. apply in_map_iff in Hin as (x & E & _).
  unfold rename in E. destruct (String.eqb_spec x old); congruence.
Qed.

(** ** Affiliation corrections (C1) *)

Lemma processor_affiliation_step old new a :
  get_str (aff_name (fst (Processor.correct_affiliation old new a)))
    = rename old new (get_str (aff_name a))
  /\ snd (Processor.correct_affiliation old new a)
     = count_eq old [get_str (aff_name a)].
Proof.
  unfold Processor.correct_affiliation, rename, count_eq. simpl.
  destruct (String.eqb (get_str (aff_name a)) old); simpl; auto.
Qed.

Lemma processor_affiliations_scan old new affs :
  map (fun a => get_str (aff_name a))
      (fst (map_count (Processor.correct_affiliation old new) affs))
    = map (rename old new) (map (fun a => get_str (aff_name a)) affs)
  /\ snd (map_count (Processor.correct_affiliation old new) affs)
     = count_eq old (map (fun a => get_str (aff_name a)) affs).
Proof.
  rewrite map_count_spec. simpl.
  induction affs as [|a affs [IH1 IH2]]; simpl; [split; reflexivity|].
  destruct (processor_affiliation_step old new a) as [E1 E2].
  rewrite E1, E2, IH1, IH2. split; [reflexivity|].
  change (get_str (aff_name a) :: map (fun a => get_str (aff_name a)) affs)
    with ([get_str (aff_name a)]
          ++ map (fun a => get_str (aff_name a)) affs).
  now rewrite count_eq_app.
Qed.

Lemma processor_creator_scan old new c :
  creator_affiliation_names (fst (Processor.correct_creator old new c))
    = map (rename old new) (creator_affiliation_names c)
  /\ snd (Processor.correct_creator old new c)
     = count_eq old (creator_affiliation_names c).
Proof.
  unfold Processor.correct_creator, creator_affiliation_names.
  destruct (cr_affiliations c) as [affs|] eqn:E; simpl;
    [|rewrite E; split; reflexivity].
  destruct (processor_affiliations_scan old new affs) as [E1 E2].
  destruct (map_count (Processor.correct_affiliation old new) affs)
    as [affs' n]; simpl in *.
  split; assumption.
Qed.

Lemma processor_creators_scan old new creators :
  concat (map creator_affiliation_names
            (fst (map_count (Processor.correct_creator old new) creators)))
    = map (rename old new) (concat (map creator_affiliation_names creators))
  /\ snd (map_count (Processor.correct_creator old new) creators)
     = count_eq old (concat (map creator_affiliation_names creators)).
Proof.
  rewrite map_count_spec. simpl.
  induction creators as [|c creators [IH1 IH2]]; simpl; [split; reflexivity|].
  destruct (processor_creator_scan old new c) as [E1 E2].
  rewrite E1, E2, IH1, IH2, map_app, count_eq_app. split; reflexivity.
Qed.

(** With one pair whose recommended name is not empty, the scan of the
    applier does to a creator what the scan of the processor does. *)
Lemma applier_single_pair_creator old new c :
  new <> "" ->
  Applier.correct_creator [pair_of old new] c
  = Processor.correct_creator old new c.
Proof.
  intros Hnew. unfold Applier.correct_creator, Processor.correct_creator.
  destruct (cr_affiliations c) as [affs|]; [|reflexivity].
  erewrite map_count_ext; [reflexivity|].
  intros a. simpl. unfold Processor.correct_affiliation.
  apply str_truthy_true in Hnew. rewrite Hnew, andb_true_r.
  destruct (String.eqb (get_str (aff_name a)) old); reflexivity.
Qed.

Lemma processor_single_pair r old new :
  old <> "" -> new <> "" ->
  affiliation_names
    (fst (Processor.affiliation_corrections_applied r [pair_of old new]))
    = map (rename old new) (affiliation_names r)
  /\ snd (Processor.affiliation_corrections_applied r [pair_of old new])
     = count_eq old (affiliation_names r).
Proof.
  intros Hold Hnew.
  apply str_truthy_true in Hold. apply str_truthy_true in Hnew.
  unfold Processor.affiliation_corrections_applied, affiliation_names,
    creators_of.
  destruct r as [rid [[t d p [creators|] ri]|] cf]; simpl;
    try (split; reflexivity).
  rewrite Hold, Hnew. simpl.
  destruct (processor_creators_scan old new creators) as [E1 E2].
  destruct (map_count (Processor.correct_creator old new) creators)
    as [creators' n]; simpl in *.
  rewrite Nat.add_0_r. split; assumption.
Qed.

Lemma applier_single_pair r old new :
  new <> "" ->
  affiliation_names
    (fst (Applier.affiliation_corrections_applied r [pair_of old new]))
    = map (rename old new) (affiliation_names r)
  /\ snd (Applier.affiliation_corrections_applied r [pair_of old new])
     = count_eq old (affiliation_names r).
Proof.
  intros Hnew.
  unfold Applier.affiliation_corrections_applied, affiliation_names,
    creators_of.
  destruct r as [rid [[t d p [creators|] ri]|] cf]; simpl;
    try (split; reflexivity).
  rewrite (map_count_ext _ (Processor.correct_creator old new))
    by (intros c; now apply applier_single_pair_creator).
  destruct (processor_creators_scan old new creators) as [E1 E2].
  destruct (map_count (Processor.correct_creator old new) creators)
    as [creators' n]; simpl in *.
  split; assumption.
Qed.

(** C1 (as amended).  For a pair [(old, new)] of two non-empty names,
    both implementations of [apply_affiliation_corrections] overwrite in
    place every creator affiliation entry named exactly [old] with [new]
    and leave the other names as they are; the applied count is the number
    of entries that were named [old] before; the method returns true iff
    at least one entry matched; and when [new] differs from [old], no
    entry named [old] remains. *)
Theorem affiliation_pair_correction (r : record) (old new : string) :
  old <> "" -> new <> "" ->
  let before := affiliation_names r in
  let corrections := [pair_of old new] in
  (affiliation_names
     (fst (Processor.apply_affiliation_corrections r corrections))
     = map (rename old new) before
   /\ snd (Processor.affiliation_corrections_applied r corrections)
      = count_eq old before
   /\ (snd (Processor.apply_affiliation_corrections r corrections) = true
       <-> In old before))
  /\ (affiliation_names
        (fst (Applier.apply_affiliation_corrections r corrections))
        = map (rename old new) before
      /\ snd (Applier.affiliation_corrections_applied r corrections)
         = count_eq old before
      /\ (snd (Applier.apply_affiliation_corrections r corrections) = true
          <-> In old before))
  /\ (old <> new ->
      ~ In old (affiliation_names
                  (fst (Processor.apply_affiliation_corrections r corrections)))
      /\ ~ In old (affiliation_names
                     (fst (Applier.apply_affiliation_corrections r corrections)))).
Proof.
  intros Hold Hnew before corrections.
  destruct (processor_single_pair r old new Hold Hnew) as [P1 P2].
  destruct (applier_single_pair r old new Hnew) as [A1 A2].
  fold corrections in P1, P2, A1, A2. fold before in P1, P2, A1, A2.
  unfold Processor.apply_affiliation_corrections,
    Applier.apply_affiliation_corrections.
  destruct (Processor.affiliation_corrections_applied r corrections)
    as [rp np].
  destruct (Applier.affiliation_corrections_applied r corrections)
    as [ra na].
  simpl in *. subst np na. rewrite P1, A1.
  repeat split; try reflexivity.
  - intros H. apply Nat.ltb_lt in H. now apply count_eq_pos.
  - intros H. apply Nat.ltb_lt. now apply count_eq_pos.
  - intros H. apply Nat.ltb_lt in H. now apply count_eq_pos.
  - intros H. apply Nat.ltb_lt. now apply count_eq_pos.
  - now apply rename_not_old.
  - now apply rename_not_old.
Qed.

Lemma affiliation_pair_correction_witness :
  "CERN" <> "" /\ "CERN, Geneva" <> ""
  /\ affiliation_names
       (fst (Processor.apply_affiliation_corrections
               (record_with_two_matches "CERN")
               [pair_of "CERN" "CERN, Geneva"]))
     = ["CERN, Geneva"; "JINR"; "CERN, Geneva"]
  /\ snd (Processor.affiliation_corrections_applied
            (record_with_two_matches "CERN")
            [pair_of "CERN" "CERN, Geneva"]) = 2.
Proof.
  assert (H1 : "CERN" <> "") by discriminate.
  assert (H2 : "CERN, Geneva" <> "") by discriminate.
  destruct (affiliation_pair_correction
              (record_with_two_matches "CERN") "CERN" "CERN, Geneva" H1 H2)
    as [(E1 & E2 & _) _].
  split; [exact H1|]. split; [exact H2|]. split; [exact E1 | exact E2].
Defined.

(** C1 as stated fails: with a non-empty recommended name, an affiliation
    named exactly [old] can remain.  A pair that recommends the name it
    replaces leaves it; a later pair can restore it; and the processor
    skips a pair whose old name is empty. *)
Lemma affiliation_old_name_can_remain :
  In "CERN"
     (affiliation_names
        (fst (Processor.apply_affiliation_corrections
                (record_with_affiliation "CERN") [pair_of "CERN" "CERN"])))
  /\ In "CERN"
       (affiliation_names
          (fst (Applier.apply_affiliation_corrections
                  (record_with_affiliation "CERN") [pair_of "CERN" "CERN"])))
  /\ In "CERN"
       (affiliation_names
          (fst (Processor.apply_affiliation_corrections
                  (record_with_affiliation "CERN")
                  [pair_of "CERN" "JINR"; pair_of "JINR" "CERN"])))
  /\ In ""
       (affiliation_names
          (fst (Processor.apply_affiliation_corrections
                  (record_with_affiliation "") [pair_of "" "CERN"]))).
Proof. repeat split; vm_compute; left; reflexivity. Qed.

(** *** Lists of pairs *)

Lemma rename_passes_nil cs : rename_passes cs [] = [].
Proof.
  induction cs as [|c cs IH]; simpl; [reflexivity|].
  destruct (_ || _); exact IH.
Qed.

Lemma processor_passes_names cs creators :
  concat (map creator_affiliation_names
            (fst (Processor.affiliation_passes cs creators)))
  = rename_passes cs (concat (map creator_affiliation_names creators)).
Proof.
  revert creators. induction cs as [|c cs IH]; intros creators; simpl;
    [reflexivity|].
  destruct (_ || _); [apply IH|].
  destruct (processor_creators_scan (get_str (old_affiliation c))
              (get_str (recommended_affiliation c)) creators) as [E _].
  destruct (map_count _ creators) as [creators1 n]. cbn [fst] in E.
  specialize (IH creators1).
  destruct (Processor.affiliation_passes cs creators1) as [creators2 m].
  cbn [fst] in *. now rewrite IH, E.
Qed.

Lemma processor_names_after r cs :
  affiliation_names (fst (Processor.apply_affiliation_corrections r cs))
  = rename_passes cs (affiliation_names r).
Proof.
  unfold Processor.apply_affiliation_corrections,
    Processor.affiliation_corrections_applied, affiliation_names,
    creators_of.
  destruct r as [rid [[t d p [creators|] ri]|] cf]; cbn;
    try (now rewrite rename_passes_nil).
  pose proof (processor_passes_names cs creators) as E.
  destruct (Processor.affiliation_passes cs creators) as [creators' n].
  exact E.
Qed.

Lemma rename_passes_keeps_absent old cs names :
  (forall c, In c cs -> get_str (recommended_affiliation c) <> old) ->
  ~ In old names -> ~ In old (rename_passes cs names).
Proof.
  revert names. induction cs as [|c cs IH]; intros names Hrec Hnot; simpl;
    [exact Hnot|].
  assert (Hrec' : forall c', In c' cs ->
                    get_str (recommended_affiliation c') <> old)
    by (intros c' Hc'; apply Hrec; now right).
  destruct (_ || _); [now apply IH|].
  apply IH; [exact Hrec'|].
  intros Hin. apply in_map_iff in Hin as (x & Ex & Hx).
  unfold rename in Ex.
  destruct (String.eqb_spec x (get_str (old_affiliation c))).
  - apply (Hrec c); [now left | exact Ex].
  - congruence.
Qed.

Lemma rename_passes_removes old new cs names :
  In (pair_of old new) cs -> old <> "" -> new <> "" ->
  (forall c, In c cs -> get_str (recommended_affiliation c) <> old) ->
  ~ In old (rename_passes cs names).
Proof.
  intros Hin Hold Hnew. revert names.
  induction cs as [|c cs IH]; intros names Hrec; [contradiction|].
  assert (Hrec' : forall c', In c' cs ->
                    get_str (recommended_affiliation c') <> old)
    by (intros c' Hc'; apply Hrec; now right).
  destruct Hin as [-> | Hin].
  - simpl.
    apply str_truthy_true in Hold. apply str_truthy_true in Hnew.
    rewrite Hold, Hnew. simpl.
    apply rename_passes_keeps_absent; [exact Hrec'|].
    apply rename_not_old.
    intros E. apply (Hrec (pair_of old new)); [now left | now symmetry].
  - simpl. destruct (_ || _); now apply IH.
Qed.

Lemma applier_final_name current cs a :
  get_str (aff_name (fst (Applier.correct_affiliation current cs a)))
  = last_match current cs (get_str (aff_name a)).
Proof.
  revert a. induction cs as [|c cs IH]; intros a; simpl; [reflexivity|].
  destruct (_ && _).
  - specialize (IH (set_aff_name (get_str (recommended_affiliation c)) a)).
    destruct (Applier.correct_affiliation current cs _) as [a' n].
    exact IH.
  - apply IH.
Qed.

Lemma applier_names_after r cs :
  affiliation_names (fst (Applier.apply_affiliation_corrections r cs))
  = map (fun n => last_match n cs n) (affiliation_names r).
Proof.
  unfold Applier.apply_affiliation_corrections,
    Applier.affiliation_corrections_applied, affiliation_names,
    creators_of.
  destruct r as [rid [[t d p [creators|] ri]|] cf]; cbn;
    try reflexivity.
  rewrite map_count_spec. cbn [fst].
  induction creators as [|c creators IH]; cbn; [reflexivity|].
  rewrite map_app, <- IH. f_equal.
  unfold Applier.correct_creator, creator_affiliation_names.
  destruct c as [po [affs|]]; cbn; [|reflexivity].
  rewrite map_count_spec. cbn.
  induction affs as [|a affs IHa]; cbn; [reflexivity|].
  now rewrite applier_final_name, IHa.
Qed.

Lemma last_match_cases current cs name :
  (last_match current cs name = name
   /\ forall c, In c cs ->
        String.eqb current (get_str (old_affiliation c))
        && str_truthy (get_str (recommended_affiliation c)) = false)
  \/ exists c, In c cs
        /\ last_match current cs name = get_str (recommended_affiliation c).
Proof.
  revert name. induction cs as [|c cs IH]; intros name; simpl.
  - left. split; [reflexivity | contradiction].
  - destruct (_ && _) eqn:E.
    + right.
      destruct (IH (get_str (recommended_affiliation c)))
        as [[E1 _] | (c' & Hc' & E1)].
      * exists c. split; [now left | exact E1].
      * exists c'. split; [now right | exact E1].
    + destruct (IH name) as [[E1 H1] | (c' & Hc' & E1)].
      * left. split; [exact E1|]. intros c' [<- | Hc']; auto.
      * right. exists c'. split; [now right | exact E1].
Qed.

Lemma last_match_not_old old new cs n :
  In (pair_of old new) cs -> new <> "" ->
  (forall c, In c cs -> get_str (recommended_affiliation c) <> old) ->
  last_match n cs n <> old.
Proof.
  intros Hin Hnew Hrec E.
  destruct (last_match_cases n cs n) as [[E1 H1] | (c & Hc & E1)].
  - rewrite E1 in E. subst n.
    specialize (H1 _ Hin). cbn in H1.
    apply str_truthy_true in Hnew.
    now rewrite String.eqb_refl, Hnew in H1.
  - apply (Hrec c Hc). congruence.
Qed.

(** With a list of pairs, no affiliation named [old] remains after both
    implementations if a pair of the list replaces [old] by a non-empty
    name and no pair of the list recommends [old]. *)
Theorem affiliation_list_removes_old_name (r : record)
    (cs : list affiliation_correction) (old new : string) :
  In (pair_of old new) cs -> old <> "" -> new <> "" ->
  (forall c, In c cs -> get_str (recommended_affiliation c) <> old) ->
  ~ In old (affiliation_names
              (fst (Processor.apply_affiliation_corrections r cs)))
  /\ ~ In old (affiliation_names
                 (fst (Applier.apply_affiliation_corrections r cs))).
Proof.
  intros Hin Hold Hnew Hrec. split.
  - rewrite processor_names_after.
    now apply (rename_passes_removes old new).
  - rewrite applier_names_after. intros H.
    apply in_map_iff in H as (n & E & _).
    now apply (last_match_not_old old new cs n).
Qed.

(** ** Descriptor deletion (C5) *)

Lemma filter_idempotent {A : Type} (f : A -> bool) (l : list A) :
  List.filter f (List.filter f l) = List.filter f l.
Proof.
  induction l as [|x l IH]; simpl; [reflexivity|].
  destruct (f x) eqn:E; simpl; [rewrite E, IH|]; auto.
Qed.

Lemma filter_length_le {A : Type} (f : A -> bool) (l : list A) :
  length (List.filter f l) <= length l.
Proof.
  induction l as [|x l IH]; simpl; [lia|]. destruct (f x); simpl; lia.
Qed.

(** C5.  Whatever function [str.lower] is, descriptor deletion keeps, in
    order, exactly the descriptors whose lowercase form is not in the
    lowercased deletion list; it returns true iff the list became shorter;
    a second application with the same deletion list changes nothing and
    returns false; and deleting "Reactor" from ["REACTOR"; "Fuel"] leaves
    ["Fuel"]. *)
Theorem descriptor_deletion_case_insensitive_idempotent :
  (forall (lower : string -> string) (r : record) (deletions : list string),
     let res := Processor.apply_descriptor_deletions lower r deletions in
     descriptors_of (fst res)
       = List.filter (kept lower deletions) (descriptors_of r)
     /\ (forall d, In d (descriptors_of (fst res)) <->
                   In d (descriptors_of r)
                   /\ ~ In (lower d) (map lower deletions))
     /\ (snd res = true <->
         length (descriptors_of (fst res)) < length (descriptors_of r))
     /\ Processor.apply_descriptor_deletions lower (fst res) deletions
        = (fst res, false))
  /\ descriptors_of
       (fst (Processor.apply_descriptor_deletions ascii_lower
               (record_with_descriptors ["REACTOR"; "Fuel"]) ["Reactor"]))
     = ["Fuel"].
Proof.
  split; [|reflexivity].
  intros lower r deletions res.
  assert (Hfilter : descriptors_of (fst res)
                    = List.filter (kept lower deletions) (descriptors_of r)).
  { subst res. unfold Processor.apply_descriptor_deletions, descriptors_of.
    destruct r as [rid md [[qa [[|d ds]|] lid]|]]; reflexivity. }
  split; [exact Hfilter|]. split; [|split].
  - intros d. rewrite Hfilter, filter_In. unfold kept.
    rewrite negb_true_iff, <- not_true_iff_false, str_in_In. reflexivity.
  - subst res. unfold Processor.apply_descriptor_deletions, descriptors_of.
    destruct r as [rid md [[qa [[|d ds]|] lid]|]]; simpl;
      try (split; [discriminate | lia]).
    fold (kept lower deletions).
    pose proof (filter_length_le (kept lower deletions) (d :: ds)) as Hle.
    simpl in Hle. rewrite Nat.ltb_lt.
    destruct (kept lower deletions d); simpl in *; lia.
  - subst res. unfold Processor.apply_descriptor_deletions.
    destruct r as [rid md [[qa [[|d ds]|] lid]|]]; try reflexivity.
    cbn [rec_custom_fields cf_descriptors_cai_text fst].
    fold (kept lower deletions).
    destruct (List.filter (kept lower deletions) (d :: ds))
      as [|x l] eqn:E; [reflexivity|].
    cbn [rec_custom_fields cf_descriptors_cai_text set_rec_custom_fields
         set_cf_descriptors cf_qa_checked cf_lead_record_id rec_id
         rec_metadata].
    fold (kept lower deletions).
    rewrite <- E, filter_idempotent, Nat.sub_diag. reflexivity.
Qed.

(** ** Related identifiers (C6) *)

Lemma app_singleton_neq {A : Type} (l : list A) (x : A) : l ++ [x] <> l.
Proof.
  intros E. apply (f_equal (@length A)) in E.
  rewrite length_app in E. simpl in E. lia.
Qed.

(** What one call does on a record that has a metadata section. *)
Lemma add_related_identifier_cases (r : record) (obj : related_identifier) :
  rec_metadata r <> None ->
  let ident := get_str (ri_identifier obj) in
  (ident <> "" /\ ~ In ident (existing_identifiers r)
   /\ related_identifiers_of (fst (Processor.add_related_identifier r obj))
      = related_identifiers_of r ++ [obj]
   /\ snd (Processor.add_related_identifier r obj) = true)
  \/ ((ident = "" \/ In ident (existing_identifiers r))
      /\ related_identifiers_of (fst (Processor.add_related_identifier r obj))
         = related_identifiers_of r
      /\ snd (Processor.add_related_identifier r obj) = false).
Proof.
  intros Hmd ident.
  destruct r as [rid [md|] cf]; [clear Hmd | now elim Hmd].
  unfold Processor.add_related_identifier, existing_identifiers,
    related_identifiers_of.
  cbn [rec_metadata default].
  fold ident.
  destruct (str_truthy ident) eqn:Et; simpl.
  - destruct (str_in ident
                (map (fun ri => get_str (ri_identifier ri))
                     (get_list (md_related_identifiers md)))) eqn:Ei; simpl.
    + right. apply str_in_In in Ei. auto.
    + left. apply str_truthy_true in Et.
      apply not_true_iff_false in Ei. rewrite str_in_In in Ei. auto.
  - right. apply str_truthy_false in Et. auto.
Qed.

(** C6 (as amended).  On a record that has a metadata section, an
    identifier object whose identifier string is non-empty and not yet
    among the related identifiers is appended at the end and the call
    returns true; any other object (empty or missing identifier, or an
    identifier already present) leaves the list as it is and the call
    returns false; so the call returns true iff the object was appended.
    Adding the same object a second time appends nothing, and a single
    object is processed as a one-element list. *)
Theorem related_identifier_addition (r : record) (obj : related_identifier) :
  rec_metadata r <> None ->
  let ident := get_str (ri_identifier obj) in
  let res := Processor.add_related_identifier r obj in
  let again := Processor.add_related_identifier (fst res) obj in
  (ident <> "" -> ~ In ident (existing_identifiers r) ->
   related_identifiers_of (fst res) = related_identifiers_of r ++ [obj]
   /\ snd res = true)
  /\ (ident = "" \/ In ident (existing_identifiers r) ->
      related_identifiers_of (fst res) = related_identifiers_of r
      /\ snd res = false)
  /\ (snd res = true <->
      related_identifiers_of (fst res) = related_identifiers_of r ++ [obj])
  /\ (related_identifiers_of (fst again) = related_identifiers_of (fst res)
      /\ snd again = false)
  /\ Processor.add_related_identifiers r
       (Processor.normalize_identifiers (OneIdentifier obj))
     = (fst res, if snd res then 1 else 0).
Proof.
  intros Hmd ident res again.
  assert (Hmd' : rec_metadata (fst res) <> None).
  { subst res. destruct r as [rid [md|] cf]; [|now elim Hmd].
    unfold Processor.add_related_identifier. cbn [rec_metadata default].
    destruct (_ && _); simpl; discriminate. }
  pose proof (add_related_identifier_cases r obj Hmd) as H1.
  pose proof (add_related_identifier_cases (fst res) obj Hmd') as H2.
  fold ident res in H1. fold ident res again in H2.
  repeat split.
  - destruct H1 as [(_ & _ & E & _) | ([Hc | Hc] & _)]; tauto.
  - destruct H1 as [(_ & _ & _ & E) | ([Hc | Hc] & _)]; tauto.
  - destruct H1 as [(Ha & Hb & _) | (_ & E & _)]; tauto.
  - destruct H1 as [(Ha & Hb & _) | (_ & _ & E)]; tauto.
  - destruct H1 as [(_ & _ & E & _) | (_ & _ & E)]; [tauto | congruence].
  - destruct H1 as [(_ & _ & _ & E) | (_ & E & _)]; [tauto|].
    intros E'. rewrite E in E'. symmetry in E'.
    now apply app_singleton_neq in E'.
  - destruct H2 as [(Ha & Hb & _) | (_ & E & _)]; [|exact E].
    exfalso. apply Hb. unfold existing_identifiers.
    destruct H1 as [(_ & _ & E & _) | ([Hc | Hc] & E & _)].
    + rewrite E, map_app, in_app_iff. right. now left.
    + contradiction.
    + rewrite E. exact Hc.
  - destruct H2 as [(Ha & Hb & _) | (_ & _ & E)]; [|exact E].
    exfalso. apply Hb. unfold existing_identifiers.
    destruct H1 as [(_ & _ & E & _) | ([Hc | Hc] & E & _)].
    + rewrite E, map_app, in_app_iff. right. now left.
    + contradiction.
    + rewrite E. exact Hc.
  - simpl. fold res. destruct res as [r1 ok]. simpl.
    now rewrite Nat.add_0_r.
Qed.

Lemma related_identifier_addition_witness :
  rec_metadata (record_with_related []) <> None
  /\ related_identifiers_of
       (fst (Processor.add_related_identifier
               (fst (Processor.add_related_identifier
                       (record_with_related []) doi_x))
               doi_x))
     = [doi_x].
Proof.
  assert (H : rec_metadata (record_with_related []) <> None) by discriminate.
  split; [exact H|].
  destruct (related_identifier_addition (record_with_related []) doi_x H)
    as (_ & _ & _ & (E & _) & _).
  rewrite E. reflexivity.
Defined.

(** C6 as stated fails: an identifier object whose identifier string is
    empty, or that has no identifier key, is not appended although no
    entry with the same identifier exists. *)
Lemma empty_identifier_is_not_appended :
  let r := record_with_related [] in
  let blank := mk_related_identifier (Some "") (Some "doi") None in
  let keyless := mk_related_identifier None (Some "doi") None in
  ~ In (get_str (ri_identifier blank)) (existing_identifiers r)
  /\ Processor.add_related_identifier r blank = (r, false)
  /\ ~ In (get_str (ri_identifier keyless)) (existing_identifiers r)
  /\ Processor.add_related_identifier r keyless = (r, false).
Proof. vm_compute. tauto. Qed.

(** On a record without a metadata section the list that
    [add_related_identifier] appends to belongs to a fresh dictionary: the
    call returns true and the record is left as it was. *)
Lemma add_related_identifier_without_metadata (r : record)
    (obj : related_identifier) :
  rec_metadata r = None ->
  Processor.add_related_identifier r obj
  = (r, str_truthy (get_str (ri_identifier obj))).
Proof.
  intros E. unfold Processor.add_related_identifier. rewrite E. simpl.
  rewrite andb_true_r. destruct (str_truthy _); reflexivity.
Qed.

(** ** The future-date check (C7) *)

Lemma datetime_gt_iff (a b : Checker.datetime) :
  Checker.datetime_gt a b = true <->
  (let '(Checker.mk_datetime y1 m1 d1 h1 i1 s1 u1) := a in
   let '(Checker.mk_datetime y2 m2 d2 h2 i2 s2 u2) := b in
   y2 < y1 \/ y1 = y2 /\
   (m2 < m1 \/ m1 = m2 /\
    (d2 < d1 \/ d1 = d2 /\
     (h2 < h1 \/ h1 = h2 /\
      (i2 < i1 \/ i1 = i2 /\
       (s2 < s1 \/ s1 = s2 /\ u2 < u1))))))%Z.
Proof.
  destruct a, b. unfold Checker.datetime_gt. simpl.
  rewrite andb_false_r, orb_false_r.
  repeat (setoid_rewrite orb_true_iff || setoid_rewrite andb_true_iff).
  repeat (setoid_rewrite Z.ltb_lt || setoid_rewrite Z.eqb_eq).
  reflexivity.
Qed.

Lemma is_future_date_iff (now : Checker.datetime) (s : string) :
  Checker.is_future_date now s = true <->
  exists d, parse_publication_date s = Some d
            /\ Checker.datetime_gt d now = true.
Proof.
  unfold Checker.is_future_date, parse_publication_date.
  destruct (Checker.strptime_Ymd s) as [d|].
  - split.
    + intros H. exists d. auto.
    + intros (d' & E & H). now inversion E; subst.
  - destruct (Checker.strptime_Ym s) as [d|].
    + split.
      * intros H. exists d. auto.
      * intros (d' & E & H). now inversion E; subst.
    + split; [discriminate|]. intros (d' & E & _). discriminate.
Qed.

Lemma is_future_date_parsed (now d : Checker.datetime) (s : string) :
  parse_publication_date s = Some d ->
  Checker.is_future_date now s = Checker.datetime_gt d now.
Proof.
  unfold Checker.is_future_date, parse_publication_date.
  destruct (Checker.strptime_Ymd s) as [d'|].
  - intros E. now inversion E.
  - intros E. now rewrite E.
Qed.

Lemma is_future_date_unparsed (now : Checker.datetime) (s : string) :
  parse_publication_date s = None -> Checker.is_future_date now s = false.
Proof.
  unfold Checker.is_future_date, parse_publication_date.
  destruct (Checker.strptime_Ymd s) as [d'|]; [discriminate|].
  intros E. now rewrite E.
Qed.

(** C7.  The future-date check reads the string with the format
    [%Y-%m-%d] and, when that fails, with [%Y-%m]; it returns true iff a
    date was read and is strictly after [now]; it returns false when
    neither format reads the string; the check of [qa_check] adds its
    recommendation exactly in the first case.  While [now] is before the
    year 2999, "2999-01" and "2999-01-15" are future; once [now] is not
    before 2020, "2020-01" is not; "not-a-date" never is. *)
Theorem future_date_check (now : Checker.datetime) :
  (forall s,
     (Checker.is_future_date now s = true <->
      exists d, parse_publication_date s = Some d
                /\ Checker.datetime_gt d now = true)
     /\ (parse_publication_date s = None ->
         Checker.is_future_date now s = false))
  /\ (forall rec,
        Checker.future_date_recommendation now rec <> [] <->
        exists s, publication_date_of rec = Some s
                  /\ Checker.is_future_date now s = true)
  /\ (Checker.datetime_gt (midnight 2999 1 1) now = true ->
      Checker.is_future_date now "2999-01" = true
      /\ Checker.is_future_date now "2999-01-15" = true)
  /\ (Checker.datetime_gt (midnight 2020 1 1) now = false ->
      Checker.is_future_date now "2020-01" = false)
  /\ Checker.is_future_date now "not-a-date" = false.
Proof.
  split; [|split; [|split; [|split]]].
  - intros s. split;
      [apply is_future_date_iff | apply is_future_date_unparsed].
  - intros rec. unfold Checker.future_date_recommendation,
      publication_date_of.
    destruct rec as [rid [md|] cf]; simpl.
    + destruct (md_publication_date md) as [p|].
      * destruct (str_truthy p) eqn:Et; simpl.
        -- destruct (Checker.is_future_date now p) eqn:Ef.
           ++ split; [intros _; eauto | discriminate].
           ++ split; [congruence|]. intros (s & E & H).
              inversion E; subst. congruence.
        -- apply str_truthy_false in Et. subst p.
           split; [congruence|]. intros (s & E & H).
           inversion E; subst. discriminate.
      * split; [congruence|]. intros (s & E & _). discriminate.
    + split; [congruence|]. intros (s & E & _). discriminate.
  - intros H.
    rewrite (is_future_date_parsed now (midnight 2999 1 1) "2999-01")
      by reflexivity.
    rewrite (is_future_date_parsed now (midnight 2999 1 15) "2999-01-15")
      by reflexivity.
    split; [exact H|].
    apply datetime_gt_iff in H. apply datetime_gt_iff.
    destruct now. unfold midnight in *. lia.
  - intros H.
    rewrite (is_future_date_parsed now (midnight 2020 1 1) "2020-01")
      by reflexivity.
    exact H.
  - apply is_future_date_unparsed. reflexivity.
Qed.

Lemma future_date_check_witness :
  Checker.datetime_gt (midnight 2999 1 1)
    (Checker.mk_datetime 2026 11 3 9 30 0 0) = true
  /\ Checker.datetime_gt (midnight 2020 1 1)
       (Checker.mk_datetime 2026 11 3 9 30 0 0) = false
  /\ Checker.is_future_date (Checker.mk_datetime 2026 11 3 9 30 0 0)
       "2999-01" = true
  /\ Checker.is_future_date (Checker.mk_datetime 2026 11 3 9 30 0 0)
       "2020-01" = false.
Proof.
  destruct (future_date_check (Checker.mk_datetime 2026 11 3 9 30 0 0))
    as (_ & _ & H1 & H2 & _).
  split; [reflexivity|]. split; [reflexivity|].
  split; [apply H1; reflexivity | apply H2; reflexivity].
Defined.

(** ** The report aggregator (C9) *)

Section AggregatorFacts.

Variable str_of_identifiers : identifiers_arg -> string.

Let scan := Aggregator.scan_file str_of_identifiers.

Lemma scan_unreadable_file acc f :
  is_parsed f = false ->
  clear_errors (scan acc f) = clear_errors acc
  /\ Aggregator.errors_n (Aggregator.summary_of (scan acc f))
     = S (Aggregator.errors_n (Aggregator.summary_of acc))
  /\ Aggregator.errors (scan acc f)
     = Aggregator.errors acc ++ error_messages [f].
Proof.
  unfold is_parsed, scan, Aggregator.scan_file, error_messages.
  destruct (Aggregator.content f) eqn:E; intros H; try discriminate;
    simpl; rewrite E, app_nil_r; repeat split; reflexivity.
Qed.

Lemma scan_parsed_file acc f :
  is_parsed f = true ->
  clear_errors (scan acc f) = scan (clear_errors acc) f
  /\ Aggregator.errors_n (Aggregator.summary_of (scan acc f))
     = Aggregator.errors_n (Aggregator.summary_of acc)
  /\ Aggregator.errors (scan acc f) = Aggregator.errors acc
  /\ Aggregator.records_checked (Aggregator.summary_of (scan acc f))
     = S (Aggregator.records_checked (Aggregator.summary_of acc)).
Proof.
  unfold is_parsed, scan, Aggregator.scan_file.
  destruct (Aggregator.content f); intros H; try discriminate.
  repeat split; reflexivity.
Qed.

Lemma scan_all_clear_errors files acc :
  clear_errors (fold_left scan files acc)
  = fold_left scan (List.filter is_parsed files) (clear_errors acc).
Proof.
  revert acc. induction files as [|f files IH]; intros acc; simpl;
    [reflexivity|].
  rewrite IH. destruct (is_parsed f) eqn:E; simpl.
  - now destruct (scan_parsed_file acc f E) as [-> _].
  - now destruct (scan_unreadable_file acc f E) as [-> _].
Qed.

Lemma error_messages_cons f files :
  error_messages (f :: files) = error_messages [f] ++ error_messages files.
Proof. unfold error_messages. simpl. now rewrite app_nil_r. Qed.

Lemma error_messages_parsed f :
  is_parsed f = true -> error_messages [f] = [].
Proof.
  unfold is_parsed, error_messages. simpl.
  destruct (Aggregator.content f); intros H; try discriminate. reflexivity.
Qed.

Lemma scan_all_errors files acc :
  Aggregator.errors_n (Aggregator.summary_of (fold_left scan files acc))
  = Aggregator.errors_n (Aggregator.summary_of acc)
    + length (List.filter (fun f => negb (is_parsed f)) files)
  /\ Aggregator.errors (fold_left scan files acc)
     = Aggregator.errors acc ++ error_messages files.
Proof.
  revert acc. induction files as [|f files IH]; intros acc.
  - simpl. rewrite Nat.add_0_r, app_nil_r. split; reflexivity.
  - cbn [fold_left List.filter].
    destruct (IH (scan acc f)) as [IH1 IH2]. rewrite IH1, IH2.
    rewrite error_messages_cons.
    destruct (is_parsed f) eqn:E; cbn [negb].
    + destruct (scan_parsed_file acc f E) as (_ & -> & -> & _).
      rewrite (error_messages_parsed f E). split; reflexivity.
    + destruct (scan_unreadable_file acc f E) as (_ & -> & ->).
      split; [simpl; lia|]. now rewrite <- app_assoc.
Qed.

Lemma scan_all_records_checked files acc :
  Aggregator.records_checked
    (Aggregator.summary_of (fold_left scan files acc))
  = Aggregator.records_checked (Aggregator.summary_of acc)
    + length (List.filter is_parsed files).
Proof.
  revert acc. induction files as [|f files IH]; intros acc; simpl; [lia|].
  rewrite IH. destruct (is_parsed f) eqn:E; simpl.
  - destruct (scan_parsed_file acc f E) as (_ & _ & _ & ->). lia.
  - unfold scan, Aggregator.scan_file. unfold is_parsed in E.
    destruct (Aggregator.content f); try discriminate; reflexivity.
Qed.

End AggregatorFacts.

(** C9.  In a scan of report files, a file that cannot be read or parsed
    adds one to the error counter and one entry, naming the file, to the
    error list, and changes nothing else of the aggregate; the scan goes
    on with the files after it: apart from the error counter and the error
    list, the aggregate of a folder is the aggregate of its parsed files,
    and [records_checked] counts exactly these. *)
Theorem unparsable_report_is_counted_and_skipped
    (str_of_identifiers : identifiers_arg -> string)
    (files : list Aggregator.report_file) :
  let result := Aggregator.create_summary_report str_of_identifiers files in
  let unreadable := List.filter (fun f => negb (is_parsed f)) files in
  (forall acc f,
     is_parsed f = false ->
     let acc' := Aggregator.scan_file str_of_identifiers acc f in
     clear_errors acc' = clear_errors acc
     /\ Aggregator.errors_n (Aggregator.summary_of acc')
        = S (Aggregator.errors_n (Aggregator.summary_of acc))
     /\ Aggregator.errors acc'
        = Aggregator.errors acc ++ error_messages [f])
  /\ clear_errors result
     = Aggregator.create_summary_report str_of_identifiers
         (List.filter is_parsed files)
  /\ Aggregator.errors_n (Aggregator.summary_of result) = length unreadable
  /\ Aggregator.errors result = error_messages files
  /\ length (Aggregator.errors result) = length unreadable
  /\ Aggregator.records_checked (Aggregator.summary_of result)
     = length (List.filter is_parsed files).
Proof.
  intros result unreadable. subst result unreadable.
  unfold Aggregator.create_summary_report.
  destruct (scan_all_errors str_of_identifiers files
              Aggregator.initial_report_data) as [E1 E2].
  simpl in E1, E2.
  split; [intros acc f; apply scan_unreadable_file|].
  split; [apply scan_all_clear_errors|].
  split; [exact E1|]. split; [exact E2|]. split.
  - rewrite E2. clear E1 E2. unfold error_messages.
    induction files as [|f files IH]; simpl; [reflexivity|].
    rewrite length_app, IH. unfold is_parsed.
    destruct (Aggregator.content f); reflexivity.
  - now rewrite scan_all_records_checked.
Qed.

Lemma unparsable_report_is_counted_and_skipped_witness :
  is_parsed (Aggregator.mk_report_file "a-report.json" "a"
               (Aggregator.JSONDecodeError "Expecting value")) = false
  /\ Aggregator.errors_n
       (Aggregator.summary_of
          (Aggregator.scan_file (fun _ => "")
             Aggregator.initial_report_data
             (Aggregator.mk_report_file "a-report.json" "a"
                (Aggregator.JSONDecodeError "Expecting value")))) = 1
  /\ Aggregator.errors_n
       (Aggregator.summary_of
          (Aggregator.create_summary_report (fun _ => "") sample_files))
     = length (List.filter (fun f => negb (is_parsed f)) sample_files)
  /\ clear_errors
       (Aggregator.create_summary_report (fun _ => "") sample_files)
     = Aggregator.create_summary_report (fun _ => "")
         (List.filter is_parsed sample_files).
Proof.
  assert (H : is_parsed (Aggregator.mk_report_file "a-report.json" "a"
                (Aggregator.JSONDecodeError "Expecting value")) = false)
    by reflexivity.
  split; [exact H|].
  destruct (unparsable_report_is_counted_and_skipped (fun _ => "")
              sample_files) as (Hstep & Hclear & Hcount & _).
  destruct (Hstep Aggregator.initial_report_data _ H) as (_ & E & _).
  split; [exact E|]. split; [exact Hcount | exact Hclear].
Defined.

(** ** The object store of the processor *)

Lemma world_eta (w : Processor.world) :
  Processor.mk_world (Processor.heap w) (Processor.self_stats w)
    (Processor.files w) = w.
Proof. now destruct w. Qed.

(** Running blocks on the object behind [l] rewrites that object and no
    other, and leaves the files alone. *)
Lemma run_blocks_spec (l : Processor.loc) (bs : list Processor.block)
    (w : Processor.world) (r : record) :
  Processor.heap w !! l = Some r ->
  Processor.run_blocks l bs w
  = let '(r', st', n) := compose_blocks bs r (Processor.self_stats w) in
    (n, Processor.mk_world (<[l := r']> (Processor.heap w)) st'
          (Processor.files w)).
Proof.
  revert w r. induction bs as [|b bs IH]; intros w r Hl.
  - simpl. unfold Processor.ret. rewrite (insert_id _ _ _ Hl).
    now rewrite world_eta.
  - cbn [Processor.run_blocks compose_blocks].
    unfold Processor.bind at 1. unfold Processor.run_block. rewrite Hl.
    destruct (b r (Processor.self_stats w)) as [[r1 st1] n].
    unfold Processor.bind at 1.
    rewrite (IH _ r1) by (cbn; apply lookup_insert_eq).
    cbn [Processor.heap Processor.self_stats Processor.files].
    destruct (compose_blocks bs r1 st1) as [[r2 st2] m].
    unfold Processor.ret. now rewrite insert_insert_eq.
Qed.

Lemma corrected_loc_fresh (w : Processor.world) (r : record) :
  corrected_loc w r <> original_loc w
  /\ Processor.heap w !! original_loc w = None
  /\ Processor.heap w !! corrected_loc w r = None.
Proof.
  pose proof (is_fresh (dom (Processor.heap w))) as H1.
  pose proof (is_fresh (dom (<[original_loc w := r]> (Processor.heap w))))
    as H2.
  fold (original_loc w) in H1. fold (corrected_loc w r) in H2.
  rewrite dom_insert_L in H2.
  repeat split.
  - intros E. apply H2. rewrite E. set_solver.
  - now apply not_elem_of_dom.
  - apply not_elem_of_dom. set_solver.
Qed.

Section ProcessorRun.

Variable lower : string -> string.
Variables invenio_url output_dir : string.
Variable curl_json : string -> record.
Variable now_iso : string.

Let process :=
  Processor.process_qa_report lower invenio_url output_dir curl_json now_iso.
Let fetch := Processor.fetch_record invenio_url curl_json.

(** [process_qa_report] on a report whose record could be fetched, in one
    step: the fetched document is stored at a new location, its copy at
    another, the blocks rewrite the copy, and the snapshot is written when
    a correction was applied. *)
Lemma process_qa_report_spec (report_path : string) (qa_data : qa_report)
    (w : Processor.world) (fetched : record) :
  let rid := get_str (record_id qa_data) in
  str_truthy rid = true ->
  fetch rid = Some fetched ->
  process report_path (Some qa_data) w
  = let lo := original_loc w in
    let lc := corrected_loc w fetched in
    let '(rc, st', n) :=
      compose_blocks (Processor.correction_blocks lower qa_data) fetched
        (Processor.self_stats w) in
    let heap' := <[lc := rc]> (<[lo := fetched]> (Processor.heap w)) in
    if (0 <? n)%nat then
      let meta :=
        Processor.mk_correction_metadata rid now_iso n report_path
          (get_corrections qa_data) in
      (Some (Processor.mk_corrected_data lc meta lo),
       Processor.mk_world heap' (Processor.incr_records_corrected st')
         (Processor.files w
          ++ [((output_dir ++ "/" ++ rid ++ "_corrected.json")%string,
               Processor.mk_snapshot rc meta fetched)]))
    else (None, Processor.mk_world heap' st' (Processor.files w)).
Proof.
  intros rid Hrid Hfetch. subst process fetch.
  unfold Processor.process_qa_report. fold rid. rewrite Hrid, Hfetch.
  cbn [negb].
  unfold Processor.bind at 1. unfold Processor.alloc at 1.
  fold (original_loc w).
  unfold Processor.bind at 1. unfold Processor.deep_copy.
  unfold Processor.bind at 1. unfold Processor.load at 1.
  cbn [Processor.heap Processor.self_stats Processor.files].
  rewrite lookup_insert_eq. cbn [default].
  unfold Processor.alloc at 1.
  cbn [Processor.heap Processor.self_stats Processor.files].
  fold (corrected_loc w fetched).
  destruct (corrected_loc_fresh w fetched) as (Hne & _ & _).
  unfold Processor.bind at 1.
  rewrite (run_blocks_spec _ _ _ fetched)
    by (cbn; apply lookup_insert_eq).
  cbn [Processor.heap Processor.self_stats Processor.files].
  destruct (compose_blocks (Processor.correction_blocks lower qa_data)
              fetched (Processor.self_stats w)) as [[rc st'] n].
  rewrite insert_insert_eq.
  destruct (0 <? n)%nat; [|reflexivity].
  unfold Processor.bind, Processor.load, Processor.write_file,
    Processor.update_stats, Processor.ret.
  cbn [Processor.heap Processor.self_stats Processor.files].
  rewrite lookup_insert_eq.
  rewrite lookup_insert_ne by exact Hne.
  rewrite lookup_insert_eq. reflexivity.
Qed.

End ProcessorRun.

(** ** The fetched record is never mutated (C10) *)

(** C10.  When [process_qa_report] has fetched the record of a report,
    every correction is applied to a copy stored at a location of its own.
    The copy is a new object that holds the document as fetched; the
    correction blocks run on the reference of the copy, so that at the end
    the object behind [corrected_record] holds the fetched document with
    the blocks of the report applied in program order, while the object
    behind [original_record] still holds the document exactly as fetched
    and no object that existed before the call has changed.  When a
    snapshot is written its [original_record] is the fetched document and
    its [corrected_record] is the document behind the reference of the
    copy. *)
Theorem corrections_leave_fetched_record_untouched
    (lower : string -> string) (invenio_url output_dir : string)
    (curl_json : string -> record) (now_iso report_path : string)
    (qa_data : qa_report) (w : Processor.world) (fetched : record) :
  str_truthy (get_str (record_id qa_data)) = true ->
  Processor.fetch_record invenio_url curl_json
    (get_str (record_id qa_data)) = Some fetched ->
  let run :=
    Processor.process_qa_report lower invenio_url output_dir curl_json
      now_iso report_path (Some qa_data) w in
  let copied :=
    Processor.deep_copy (original_loc w)
      (snd (Processor.alloc fetched w)) in
  let corrected :=
    Processor.run_blocks (fst copied)
      (Processor.correction_blocks lower qa_data) (snd copied) in
  Processor.heap (snd run) !! original_loc w = Some fetched
  /\ (forall l r, Processor.heap w !! l = Some r ->
                  Processor.heap (snd run) !! l = Some r)
  /\ (fst copied = corrected_loc w fetched
      /\ fst copied <> original_loc w
      /\ Processor.heap w !! fst copied = None
      /\ Processor.heap (snd copied) !! fst copied = Some fetched
      /\ Processor.heap (snd copied) !! original_loc w = Some fetched)
  /\ Processor.heap (snd run) = Processor.heap (snd corrected)
  /\ Processor.heap (snd run) !! corrected_loc w fetched
     = Some (fst (fst (compose_blocks
                         (Processor.correction_blocks lower qa_data)
                         fetched (Processor.self_stats w))))
  /\ (forall cd, fst run = Some cd ->
        Processor.original_record cd = original_loc w
        /\ Processor.corrected_record cd = corrected_loc w fetched
        /\ Processor.corrected_record cd <> Processor.original_record cd
        /\ exists name snap,
             Processor.files (snd run) = Processor.files w ++ [(name, snap)]
             /\ Processor.snap_original_record snap = fetched
             /\ Processor.heap (snd run) !! Processor.corrected_record cd
                = Some (Processor.snap_corrected_record snap)).
Proof.
  intros Hrid Hfetch run copied corrected.
  destruct (corrected_loc_fresh w fetched) as (Hne & Ho & Hc).
  assert (Hcopied :
            copied
            = (corrected_loc w fetched,
               Processor.mk_world
                 (<[corrected_loc w fetched := fetched]>
                    (<[original_loc w := fetched]> (Processor.heap w)))
                 (Processor.self_stats w) (Processor.files w))).
  { subst copied. unfold Processor.deep_copy, Processor.bind,
      Processor.load, Processor.alloc.
    cbn [Processor.heap Processor.self_stats Processor.files fst snd].
    fold (original_loc w). rewrite lookup_insert_eq. cbn [default from_option id].
    fold (corrected_loc w fetched). reflexivity. }
  assert (Hcorrected :
            Processor.heap (snd corrected)
            = <[corrected_loc w fetched :=
                  fst (fst (compose_blocks
                              (Processor.correction_blocks lower qa_data)
                              fetched (Processor.self_stats w)))]>
                (<[original_loc w := fetched]> (Processor.heap w))).
  { subst corrected. rewrite Hcopied. cbn [fst snd].
    rewrite (run_blocks_spec _ _ _ fetched)
      by (cbn; apply lookup_insert_eq).
    cbn [Processor.heap Processor.self_stats Processor.files].
    destruct (compose_blocks (Processor.correction_blocks lower qa_data)
                fetched (Processor.self_stats w)) as [[rc st'] n].
    cbn [fst snd Processor.heap]. now rewrite insert_insert_eq. }
  rewrite Hcorrected, Hcopied. cbn [fst snd Processor.heap].
  subst run.
  rewrite (process_qa_report_spec lower invenio_url output_dir curl_json
             now_iso report_path qa_data w fetched Hrid Hfetch).
  cbv zeta.
  destruct (compose_blocks (Processor.correction_blocks lower qa_data)
              fetched (Processor.self_stats w)) as [[rc st'] n].
  cbn [fst snd].
  assert (Hframe : forall l r, Processor.heap w !! l = Some r ->
            (<[corrected_loc w fetched := rc]>
               (<[original_loc w := fetched]> (Processor.heap w))) !! l
            = Some r).
  { intros l r Hl.
    rewrite !lookup_insert_ne by congruence. exact Hl. }
  assert (Horig :
            (<[corrected_loc w fetched := rc]>
               (<[original_loc w := fetched]> (Processor.heap w)))
              !! original_loc w = Some fetched).
  { rewrite lookup_insert_ne by exact Hne. apply lookup_insert_eq. }
  assert (Hcopy :
            corrected_loc w fetched = corrected_loc w fetched
            /\ corrected_loc w fetched <> original_loc w
            /\ Processor.heap w !! corrected_loc w fetched = None
            /\ (<[corrected_loc w fetched := fetched]>
                  (<[original_loc w := fetched]> (Processor.heap w)))
                 !! corrected_loc w fetched = Some fetched
            /\ (<[corrected_loc w fetched := fetched]>
                  (<[original_loc w := fetched]> (Processor.heap w)))
                 !! original_loc w = Some fetched).
  { split; [reflexivity|]. split; [exact Hne|]. split; [exact Hc|].
    split; [apply lookup_insert_eq|].
    rewrite lookup_insert_ne by exact Hne. apply lookup_insert_eq. }
  destruct (0 <? n)%nat; cbn [fst snd Processor.heap Processor.files].
  - split; [exact Horig|]. split; [exact Hframe|]. split; [exact Hcopy|].
    split; [reflexivity|]. split; [apply lookup_insert_eq|].
    intros cd E. inversion E; subst cd; clear E.
    cbn [Processor.original_record Processor.corrected_record].
    split; [reflexivity|]. split; [reflexivity|]. split; [exact Hne|].
    eexists _, _. split; [reflexivity|].
    cbn [Processor.snap_original_record Processor.snap_corrected_record].
    split; [reflexivity | apply lookup_insert_eq].
  - split; [exact Horig|]. split; [exact Hframe|]. split; [exact Hcopy|].
    split; [reflexivity|]. split; [apply lookup_insert_eq|]. discriminate.
Qed.

Lemma corrections_leave_fetched_record_untouched_witness :
  str_truthy (get_str (record_id sample_report)) = true
  /\ Processor.fetch_record "https://inis.iaea.org"
       (constant_repository (record_with_affiliation "CERN"))
       (get_str (record_id sample_report))
     = Some (record_with_affiliation "CERN")
  /\ Processor.heap
       (snd (Processor.process_qa_report ascii_lower "https://inis.iaea.org"
               "out" (constant_repository (record_with_affiliation "CERN"))
               "2026-11-03T00:00:00" "abcde-12345-report.json"
               (Some sample_report) Processor.initial_world))
       !! original_loc Processor.initial_world
     = Some (record_with_affiliation "CERN").
Proof.
  assert (H1 : str_truthy (get_str (record_id sample_report)) = true)
    by reflexivity.
  assert (H2 : Processor.fetch_record "https://inis.iaea.org"
                 (constant_repository (record_with_affiliation "CERN"))
                 (get_str (record_id sample_report))
               = Some (record_with_affiliation "CERN")) by reflexivity.
  split; [exact H1|]. split; [exact H2|].
  exact (proj1 (corrections_leave_fetched_record_untouched ascii_lower
                  "https://inis.iaea.org" "out"
                  (constant_repository (record_with_affiliation "CERN"))
                  "2026-11-03T00:00:00" "abcde-12345-report.json"
                  sample_report Processor.initial_world
                  (record_with_affiliation "CERN") H1 H2)).
Defined.


(** ** The correction blocks of the processor *)

Lemma affiliation_passes_nil cs : Processor.affiliation_passes cs [] = ([], 0).
Proof.
  induction cs as [|c cs IH]; simpl; [reflexivity|].
  destruct (_ || _); [exact IH|]. now rewrite IH.
Qed.

Lemma filter_kept_nil lower (l : list string) :
  List.filter (kept lower []) l = l
  /\ existsb (fun d => negb (kept lower [] d)) l = false.
Proof.
  induction l as [|x l [IH1 IH2]]; simpl; [split; reflexivity|].
  rewrite IH1. split; [reflexivity | exact IH2].
Qed.

Lemma filter_shrinks {A : Type} (f : A -> bool) (l : list A) :
  (0 <? length l - length (List.filter f l))%nat
  = existsb (fun x => negb (f x)) l.
Proof.
  induction l as [|x l IH]; simpl; [reflexivity|].
  pose proof (filter_length_le f l) as Hle.
  destruct (f x); simpl.
  - exact IH.
  - destruct (length l - length (List.filter f l)) eqn:E.
    + replace (S (length l) - length (List.filter f l)) with 1 by lia.
      reflexivity.
    + replace (S (length l) - length (List.filter f l)) with (S (S n))
        by lia.
      reflexivity.
Qed.

Lemma title_block_acts q :
  acts_as (Processor.title_block q) (title_view q)
    (fun _ => nat_of_bool (title_applied q)).
Proof.
  intros r st. unfold Processor.title_block, title_view, title_applied.
  destruct (flag_truthy (title_corrected q)),
    (c_title (get_corrections q));
    destruct r as [rid [[t d p cr ri]|] cf]; split; reflexivity.
Qed.

Lemma abstract_block_acts q :
  acts_as (Processor.abstract_block q) (abstract_view q)
    (fun _ => nat_of_bool (abstract_applied q)).
Proof.
  intros r st. unfold Processor.abstract_block, abstract_view,
    abstract_applied.
  destruct (flag_truthy (abstract_corrected q)),
    (c_abstract (get_corrections q));
    destruct r as [rid [[t d p cr ri]|] cf]; split; reflexivity.
Qed.

Lemma date_block_acts q :
  acts_as (Processor.date_block q) (date_view q)
    (fun _ => nat_of_bool (date_applied q)).
Proof.
  intros r st. unfold Processor.date_block, date_view, date_applied.
  destruct (flag_truthy (date_corrected q)),
    (c_publication_date (get_corrections q));
    destruct r as [rid [[t d p cr ri]|] cf]; split; reflexivity.
Qed.

Lemma affiliation_block_acts q :
  acts_as (Processor.affiliation_block q) (affiliation_view q)
    (affiliation_count q).
Proof.
  intros r st.
  unfold Processor.affiliation_block, affiliation_view, affiliation_count,
    affiliation_pairs_of.
  destruct (flag_truthy (affiliation_correction_recommended q));
    [|destruct r as [rid [[t d p cr ri]|] cf]; split; reflexivity].
  destruct (get_list (affiliation_corrections q)) as [|c cs] eqn:E;
    [destruct r as [rid [[t d p cr ri]|] cf]; split; reflexivity|].
  unfold Processor.apply_affiliation_corrections,
    Processor.affiliation_corrections_applied.
  remember (c :: cs) as pairs eqn:Ep. clear Ep E.
  destruct r as [rid [[t d p [cr|] ri]|] cf]; cbn;
    try (rewrite affiliation_passes_nil; split; reflexivity).
  destruct (Processor.affiliation_passes pairs cr) as [cr' n].
  destruct n; split; reflexivity.
Qed.

Lemma descriptor_block_acts lower q :
  acts_as (Processor.descriptor_block lower q) (descriptor_view lower q)
    (descriptor_count lower q).
Proof.
  intros r st.
  unfold Processor.descriptor_block, descriptor_view, descriptor_count,
    deletions_of.
  destruct (flag_truthy (descriptor_corrected q));
    [|destruct (filter_kept_nil lower (v_descriptors (view_of r)))
        as [-> ->];
      destruct r as [rid md cf]; split; reflexivity].
  destruct (c_delete_descriptor (get_corrections q)) as [dd|];
    [|destruct (filter_kept_nil lower (v_descriptors (view_of r)))
        as [-> ->];
      destruct r as [rid md cf]; split; reflexivity].
  destruct (Processor.normalize_deletions dd) as [|a dl] eqn:E;
    [destruct (filter_kept_nil lower (v_descriptors (view_of r)))
       as [-> ->];
     destruct r as [rid md cf]; split; reflexivity|].
  remember (a :: dl) as dels eqn:Ed. clear Ed E.
  unfold Processor.apply_descriptor_deletions.
  destruct r as [rid md [[qc [[|x ds]|] lid]|]];
    try (split; reflexivity).
  cbn [rec_custom_fields cf_descriptors_cai_text].
  fold (kept lower dels).
  rewrite (filter_shrinks (kept lower dels) (x :: ds)).
  destruct (existsb (fun d => negb (kept lower dels d)) (x :: ds)) eqn:Ex;
    unfold view_of, descriptors_of; cbn -[List.filter existsb];
    rewrite ?Ex; split; reflexivity.
Qed.

Lemma append_new_length_le ids rel :
  length rel <= length (append_new ids rel).
Proof.
  revert rel. induction ids as [|i ids IH]; intros rel; simpl; [lia|].
  destruct (_ && _).
  - specialize (IH (rel ++ [i])). rewrite length_app in IH. simpl in IH. lia.
  - apply IH.
Qed.

Lemma append_new_cons i ids rel :
  append_new (i :: ids) rel = append_new ids (append_new [i] rel).
Proof. simpl. destruct (_ && _); reflexivity. Qed.

Lemma add_related_identifier_view r i :
  view_of (fst (Processor.add_related_identifier r i))
  = add_view [i] (view_of r)
  /\ nat_of_bool (snd (Processor.add_related_identifier r i))
     = add_count [i] (view_of r).
Proof.
  unfold Processor.add_related_identifier, add_view, add_count.
  destruct r as [rid [[t d p cr ri]|] cf]; cbn.
  - destruct (str_truthy _ && negb _) eqn:E; cbn.
    + split; [reflexivity|]. rewrite length_app. simpl. lia.
    + split; [reflexivity|]. lia.
  - rewrite andb_true_r.
    destruct (str_truthy (get_str (ri_identifier i))); split; reflexivity.
Qed.

Lemma add_related_identifiers_view r ids :
  view_of (fst (Processor.add_related_identifiers r ids))
  = add_view ids (view_of r)
  /\ snd (Processor.add_related_identifiers r ids) = add_count ids (view_of r).
Proof.
  revert r. induction ids as [|i ids IH]; intros r.
  - simpl. unfold add_view, add_count. simpl.
    destruct r as [rid [md|] cf]; cbn; split; try reflexivity; lia.
  - cbn [Processor.add_related_identifiers].
    destruct (add_related_identifier_view r i) as [E1 E2].
    destruct (Processor.add_related_identifier r i) as [r1 ok].
    destruct (IH r1) as [E3 E4].
    destruct (Processor.add_related_identifiers r1 ids) as [r2 n].
    cbn [fst snd] in *. rewrite E3, E4, E1.
    replace (if ok then 1 else 0) with (nat_of_bool ok) by reflexivity.
    rewrite E2.
    unfold add_view, add_count. cbn [v_has_metadata v_related].
    destruct (v_has_metadata (view_of r)).
    + rewrite <- append_new_cons. split; [reflexivity|].
      pose proof (append_new_length_le [i] (v_related (view_of r))).
      pose proof (append_new_length_le ids
                    (append_new [i] (v_related (view_of r)))).
      rewrite <- append_new_cons in *. lia.
    + split; [reflexivity|]. simpl.
      destruct (str_truthy (get_str (ri_identifier i))); reflexivity.
Qed.

Lemma related_identifier_block_acts q :
  acts_as (Processor.related_identifier_block q) (related_view q)
    (related_count q).
Proof.
  intros r st.
  unfold Processor.related_identifier_block, related_view, related_count,
    identifiers_of.
  destruct (c_related_identifiers (get_corrections q)) as [ids|].
  - destruct (add_related_identifiers_view r
                (Processor.normalize_identifiers ids)) as [E1 E2].
    destruct (Processor.add_related_identifiers r
                (Processor.normalize_identifiers ids)) as [r' n].
    split; [exact E1 | exact E2].
  - apply (add_related_identifiers_view r []).
Qed.

(** Blocks in sequence act as the composition of their actions. *)
Lemma compose_blocks_nil_acts :
  acts_as (compose_blocks []) (fun v => v) (fun _ => 0).
Proof. intros r st. split; reflexivity. Qed.

Lemma compose_blocks_cons_acts b bs fv fc gv gc :
  acts_as b fv fc ->
  acts_as (compose_blocks bs) gv gc ->
  acts_as (compose_blocks (b :: bs)) (fun v => gv (fv v))
    (fun v => fc v + gc (fv v)).
Proof.
  intros Hb Hbs r st. cbn [compose_blocks].
  destruct (Hb r st) as [E1 E2].
  destruct (b r st) as [[r1 st1] n].
  destruct (Hbs r1 st1) as [E3 E4].
  destruct (compose_blocks bs r1 st1) as [[r2 st2] m].
  cbn [fst snd] in *. rewrite E3, E4, E1, E2. split; reflexivity.
Qed.

(** The blocks of a report, in one step. *)
Lemma correction_blocks_act lower q :
  acts_as (compose_blocks (Processor.correction_blocks lower q))
    (corrected_view lower q)
    (fun v =>
       nat_of_bool (title_applied q) + nat_of_bool (abstract_applied q)
       + affiliation_count q v + descriptor_count lower q v
       + nat_of_bool (date_applied q)
       + related_count q
           (date_view q (abstract_view q (title_view q v)))).
Proof.
  intros r st.
  pose proof (compose_blocks_cons_acts _ _ _ _ _ _
    (title_block_acts q)
    (compose_blocks_cons_acts _ _ _ _ _ _
       (abstract_block_acts q)
       (compose_blocks_cons_acts _ _ _ _ _ _
          (affiliation_block_acts q)
          (compose_blocks_cons_acts _ _ _ _ _ _
             (descriptor_block_acts lower q)
             (compose_blocks_cons_acts _ _ _ _ _ _
                (date_block_acts q)
                (compose_blocks_cons_acts _ _ _ _ _ _
                   (related_identifier_block_acts q)
                   compose_blocks_nil_acts))))) r st) as [E1 E2].
  unfold Processor.correction_blocks. rewrite E1, E2.
  split; [reflexivity|].
  unfold related_count, add_count, affiliation_count, descriptor_count.
  cbn. lia.
Qed.

Section ProcessorBlocks.

Variable lower : string -> string.
Variables invenio_url output_dir : string.
Variable curl_json : string -> record.
Variable now_iso : string.

(** The corrected document and the count of a call of
    [process_qa_report] that fetched its record. *)
Lemma process_corrected_document (report_path : string) (q : qa_report)
    (w : Processor.world) (fetched : record) :
  str_truthy (get_str (record_id q)) = true ->
  Processor.fetch_record invenio_url curl_json (get_str (record_id q))
    = Some fetched ->
  let run :=
    Processor.process_qa_report lower invenio_url output_dir curl_json
      now_iso report_path (Some q) w in
  let n := snd (compose_blocks (Processor.correction_blocks lower q) fetched
                  (Processor.self_stats w)) in
  exists rc,
    Processor.heap (snd run) !! corrected_loc w fetched = Some rc
    /\ view_of rc = corrected_view lower q (view_of fetched)
    /\ match fst run with
       | Some cd =>
           Processor.corrections_applied (Processor.correction_metadata_of cd)
           = n /\ 0 < n
       | None => n = 0
       end.
Proof.
  intros Hrid Hfetch run n. subst run n.
  rewrite (process_qa_report_spec lower invenio_url output_dir curl_json
             now_iso report_path q w fetched Hrid Hfetch).
  cbv zeta.
  destruct (correction_blocks_act lower q fetched (Processor.self_stats w))
    as [E _].
  destruct (compose_blocks (Processor.correction_blocks lower q) fetched
              (Processor.self_stats w)) as [[rc st'] n].
  cbn [fst snd] in *.
  exists rc. destruct (0 <? n)%nat eqn:En;
    cbn [fst snd Processor.heap Processor.corrections_applied
         Processor.correction_metadata_of].
  - rewrite lookup_insert_eq. apply Nat.ltb_lt in En. auto.
  - rewrite lookup_insert_eq. apply Nat.ltb_ge in En.
    split; [reflexivity|]. split; [exact E | lia].
Qed.

End ProcessorBlocks.

(** ** The draft corrections of the applier *)

Lemma map_count_fst_id {A : Type} (f : A -> A * nat) (l : list A) :
  (forall x, fst (f x) = x) -> fst (map_count f l) = l.
Proof.
  intros Hf. rewrite map_count_spec. simpl.
  induction l as [|x l IH]; simpl; [reflexivity|]. now rewrite Hf, IH.
Qed.

Lemma applier_affiliation_creators d affs :
  creators_of (fst (Applier.apply_affiliation_corrections d affs))
  = fst (map_count (Applier.correct_creator affs) (creators_of d))
  /\ title_of (fst (Applier.apply_affiliation_corrections d affs))
     = title_of d.
Proof.
  unfold Applier.apply_affiliation_corrections,
    Applier.affiliation_corrections_applied.
  destruct d as [rid [[t ds p [cr|] ri]|] cf]; cbn;
    try (split; reflexivity).
  destruct (map_count (Applier.correct_creator affs) cr) as [cr' n].
  split; reflexivity.
Qed.

Lemma applier_organization_creators d orgs :
  creators_of (fst (Applier.apply_organizational_author_corrections d orgs))
  = fst (map_count (Applier.correct_org_creator orgs) (creators_of d))
  /\ title_of (fst (Applier.apply_organizational_author_corrections d orgs))
     = title_of d.
Proof.
  unfold Applier.apply_organizational_author_corrections,
    Applier.organizational_author_corrections_applied.
  destruct d as [rid [[t ds p [cr|] ri]|] cf]; cbn;
    try (split; reflexivity).
  destruct (map_count (Applier.correct_org_creator orgs) cr) as [cr' n].
  split; reflexivity.
Qed.

Lemma applier_no_affiliation_pairs cr :
  fst (map_count (Applier.correct_creator []) cr) = cr.
Proof.
  apply map_count_fst_id. intros c. unfold Applier.correct_creator.
  destruct c as [po [affs|]]; [|reflexivity]. cbn.
  pose proof (map_count_fst_id
                (fun a => Applier.correct_affiliation (get_str (aff_name a))
                            [] a) affs (fun a => eq_refl)) as H.
  destruct (map_count _ affs) as [affs' n]. cbn in *. now subst.
Qed.

Lemma applier_no_organization_pairs cr :
  fst (map_count (Applier.correct_org_creator []) cr) = cr.
Proof.
  apply map_count_fst_id. intros c. unfold Applier.correct_org_creator.
  destruct c as [[[[ty|] nm]|] affs]; try reflexivity. cbn.
  destruct (String.eqb ty "organizational"); reflexivity.
Qed.

(** What [correct_draft] does to the title and to the creators. *)
Lemma correct_draft_effect (report : qa_report) (draft : record)
    (st : Applier.stats) :
  let d := fst (fst (Applier.correct_draft report draft st)) in
  title_of d
  = match c_title (get_corrections report) with
    | Some t => Some t
    | None => title_of draft
    end
  /\ creators_of d
     = fst (map_count
              (Applier.correct_org_creator
                 (get_list (organizational_author_corrections report)))
              (fst (map_count
                      (Applier.correct_creator
                         (get_list (affiliation_corrections report)))
                      (creators_of draft))))
  /\ qa_checked_of d = Some true.
Proof.
  unfold Applier.correct_draft.
  set (affs := get_list (affiliation_corrections report)).
  set (orgs := get_list (organizational_author_corrections report)).
  set (s1 := match c_title (get_corrections report) with
             | Some new_title => _
             | None => _
             end).
  assert (H1 : title_of (fst (fst s1))
               = match c_title (get_corrections report) with
                 | Some t => Some t
                 | None => title_of draft
                 end
               /\ creators_of (fst (fst s1)) = creators_of draft).
  { subst s1. destruct (c_title (get_corrections report)) as [t|];
      [|split; reflexivity].
    destruct draft as [rid [[t0 ds p cr ri]|] cf]; split; reflexivity. }
  destruct s1 as [[d1 st1] n1]. cbn [fst] in H1. destruct H1 as [T1 C1].
  set (s2 := match affs with [] => _ | _ :: _ => _ end).
  assert (H2 : title_of (fst (fst s2)) = title_of d1
               /\ creators_of (fst (fst s2))
                  = fst (map_count (Applier.correct_creator affs)
                           (creators_of d1))).
  { subst s2. destruct affs as [|a affs'] eqn:Ea.
    - cbn [fst]. now rewrite applier_no_affiliation_pairs.
    - rewrite <- Ea.
      destruct (applier_affiliation_creators d1 affs) as [E1 E2].
      destruct (Applier.apply_affiliation_corrections d1 affs) as [d ok].
      destruct ok; cbn [fst] in *; auto. }
  destruct s2 as [[d2 st2] n2]. cbn [fst] in H2. destruct H2 as [T2 C2].
  set (s3 := match orgs with [] => _ | _ :: _ => _ end).
  assert (H3 : title_of (fst (fst s3)) = title_of d2
               /\ creators_of (fst (fst s3))
                  = fst (map_count (Applier.correct_org_creator orgs)
                           (creators_of d2))).
  { subst s3. destruct orgs as [|o orgs'] eqn:Eo.
    - cbn [fst]. now rewrite applier_no_organization_pairs.
    - rewrite <- Eo.
      destruct (applier_organization_creators d2 orgs) as [E1 E2].
      destruct (Applier.apply_organizational_author_corrections d2 orgs)
        as [d ok].
      destruct ok; cbn [fst] in *; auto. }
  destruct s3 as [[d3 st3] n3]. cbn [fst] in H3. destruct H3 as [T3 C3].
  cbn [fst]. rewrite <- T1, <- T2, <- T3, <- C1, <- C2, <- C3.
  destruct d3 as [rid [md|] [cf|]]; repeat split; reflexivity.
Qed.

(** ** Which corrections a report triggers (C2) *)

Lemma andb_is_some_true {A : Type} (b : bool) (o : option A) :
  b && is_some o = true -> b = true /\ o <> None.
Proof.
  destruct b, o; simpl; intros H; try discriminate. split; congruence.
Qed.

(** C2 (as amended).  In the file-writing processor the title, the
    abstract, the descriptors and the publication date of the corrected
    document differ from those of the fetched record only when the flag of
    that kind is true and its key is in [corrections], and when both hold
    the correction is applied: the field is the value of the key, the
    descriptors are those that the deletion list keeps.  The related
    identifiers differ only when the key [related_identifiers] is
    present; no flag is read for them: on a record that has a metadata
    section the objects of the key are added whenever the key is present,
    and the identifiers of the corrected document are the same whatever
    the five flags of the report are.  The creators differ only when the
    flag [affiliation_correction_recommended] is true and the list of
    affiliation corrections is not empty, and with the flag they are
    those that the scans of the list produce.  In the applier the title
    differs only when the key [title] is present and is overwritten
    whenever it is present (no flag is read), the creators are those that
    the affiliation and organizational-author corrections produce, and no
    correction flag of the report is read. *)
Theorem corrections_are_gated
    (lower : string -> string) (invenio_url output_dir : string)
    (curl_json : string -> record) (now_iso report_path : string)
    (q : qa_report) (w : Processor.world) (fetched draft : record)
    (st : Applier.stats) :
  str_truthy (get_str (record_id q)) = true ->
  Processor.fetch_record invenio_url curl_json (get_str (record_id q))
    = Some fetched ->
  let run :=
    Processor.process_qa_report lower invenio_url output_dir curl_json
      now_iso report_path (Some q) w in
  let c := get_corrections q in
  (exists rc,
     Processor.heap (snd run) !! corrected_loc w fetched = Some rc
     /\ (title_of rc <> title_of fetched ->
         flag_truthy (title_corrected q) = true /\ c_title c <> None)
     /\ (description_of rc <> description_of fetched ->
         flag_truthy (abstract_corrected q) = true /\ c_abstract c <> None)
     /\ (descriptors_of rc <> descriptors_of fetched ->
         flag_truthy (descriptor_corrected q) = true
         /\ c_delete_descriptor c <> None)
     /\ (publication_date_of rc <> publication_date_of fetched ->
         flag_truthy (date_corrected q) = true
         /\ c_publication_date c <> None)
     /\ (related_identifiers_of rc <> related_identifiers_of fetched ->
         c_related_identifiers c <> None)
     /\ (creators_of rc <> creators_of fetched ->
         flag_truthy (affiliation_correction_recommended q) = true
         /\ get_list (affiliation_corrections q) <> [])
     /\ (flag_truthy (title_corrected q) = true ->
         forall t, c_title c = Some t -> title_of rc = Some t)
     /\ (flag_truthy (abstract_corrected q) = true ->
         forall a, c_abstract c = Some a -> description_of rc = Some a)
     /\ (flag_truthy (descriptor_corrected q) = true ->
         forall dd, c_delete_descriptor c = Some dd ->
           descriptors_of rc
           = List.filter (kept lower (Processor.normalize_deletions dd))
               (descriptors_of fetched))
     /\ (flag_truthy (date_corrected q) = true ->
         forall p, c_publication_date c = Some p ->
           publication_date_of rc = Some p)
     /\ (has_metadata fetched = true ->
         forall i, c_related_identifiers c = Some i ->
           related_identifiers_of rc
           = append_new (Processor.normalize_identifiers i)
               (related_identifiers_of fetched))
     /\ (flag_truthy (affiliation_correction_recommended q) = true ->
         creators_of rc
         = fst (Processor.affiliation_passes
                  (get_list (affiliation_corrections q))
                  (creators_of fetched))))
  /\ (has_metadata fetched = true ->
      forall title abstract descriptor date affiliation,
        let run' :=
          Processor.process_qa_report lower invenio_url output_dir
            curl_json now_iso report_path
            (Some (set_flags title abstract descriptor date affiliation q))
            w in
        option_map related_identifiers_of
          (Processor.heap (snd run') !! corrected_loc w fetched)
        = option_map related_identifiers_of
            (Processor.heap (snd run) !! corrected_loc w fetched))
  /\ (let d := fst (fst (Applier.correct_draft q draft st)) in
      (title_of d <> title_of draft -> c_title c <> None)
      /\ (forall t, c_title c = Some t -> title_of d = Some t)
      /\ creators_of d
         = fst (map_count
                  (Applier.correct_org_creator
                     (get_list (organizational_author_corrections q)))
                  (fst (map_count
                          (Applier.correct_creator
                             (get_list (affiliation_corrections q)))
                          (creators_of draft))))
      /\ forall title abstract descriptor date affiliation,
           Applier.correct_draft
             (set_flags title abstract descriptor date affiliation q)
             draft st
           = Applier.correct_draft q draft st).
Proof.
  intros Hrid Hfetch run c. split; [|split].
  - destruct (process_corrected_document lower invenio_url output_dir
                curl_json now_iso report_path q w fetched Hrid Hfetch)
      as (rc & Hrc & Hview & _).
    exists rc. split; [exact Hrc|].
    unfold corrected_view, related_view, add_view, date_view,
      descriptor_view, affiliation_view, abstract_view, title_view,
      view_of in Hview.
    cbn [v_title v_description v_publication_date v_creators v_related
         v_descriptors v_has_metadata] in Hview.
    injection Hview as Ht Hd Hp Hc Hr Hs _ _.
    fold c in Ht, Hd, Hp.
    split.
    { intros H. rewrite Ht in H.
      destruct (title_applied q) eqn:E; [|congruence].
      now apply andb_is_some_true in E. }
    split.
    { intros H. rewrite Hd in H.
      destruct (abstract_applied q) eqn:E; [|congruence].
      now apply andb_is_some_true in E. }
    split.
    { intros H. rewrite Hs in H. unfold deletions_of in H. fold c in H.
      destruct (flag_truthy (descriptor_corrected q));
        [|now rewrite (proj1 (filter_kept_nil lower _)) in H].
      destruct (c_delete_descriptor c);
        [split; [reflexivity | discriminate]|].
      now rewrite (proj1 (filter_kept_nil lower _)) in H. }
    split.
    { intros H. rewrite Hp in H.
      destruct (date_applied q) eqn:E; [|congruence].
      now apply andb_is_some_true in E. }
    split.
    { intros H. rewrite Hr in H. unfold identifiers_of in H. fold c in H.
      destruct (c_related_identifiers c); [discriminate|].
      simpl in H. now destruct (_ || _). }
    split.
    { intros H. rewrite Hc in H. unfold affiliation_pairs_of in H.
      destruct (flag_truthy (affiliation_correction_recommended q));
        [|now simpl in H].
      split; [reflexivity|].
      intros E. rewrite E in H. now simpl in H. }
    split.
    { intros Hf t E. rewrite Ht. unfold title_applied. fold c.
      rewrite Hf, E. reflexivity. }
    split.
    { intros Hf a E. rewrite Hd. unfold abstract_applied. fold c.
      rewrite Hf, E. reflexivity. }
    split.
    { intros Hf dd E. rewrite Hs. unfold deletions_of. fold c.
      rewrite Hf, E. reflexivity. }
    split.
    { intros Hf p E. rewrite Hp. unfold date_applied. fold c.
      rewrite Hf, E. reflexivity. }
    split.
    { intros Hm i E. rewrite Hr, Hm, !orb_true_r.
      unfold identifiers_of. fold c. rewrite E. reflexivity. }
    intros Hf. rewrite Hc. unfold affiliation_pairs_of. rewrite Hf.
    reflexivity.
  - intros Hm title abstract descriptor date affiliation run'.
    destruct (process_corrected_document lower invenio_url output_dir
                curl_json now_iso report_path q w fetched Hrid Hfetch)
      as (rc & Hrc & Hview & _).
    destruct (process_corrected_document lower invenio_url output_dir
                curl_json now_iso report_path
                (set_flags title abstract descriptor date affiliation q)
                w fetched Hrid Hfetch)
      as (rc' & Hrc' & Hview' & _).
    subst run run'. rewrite Hrc, Hrc'. cbn [option_map]. f_equal.
    apply (f_equal v_related) in Hview, Hview'.
    unfold corrected_view, related_view, add_view, date_view,
      descriptor_view, affiliation_view, abstract_view, title_view,
      view_of in Hview, Hview'.
    cbn [v_title v_description v_publication_date v_creators v_related
         v_descriptors v_has_metadata] in Hview, Hview'.
    rewrite Hm, !orb_true_r in Hview, Hview'.
    rewrite Hview, Hview'. reflexivity.
  - cbv zeta.
    destruct (correct_draft_effect q draft st) as (Ht & Hc & _).
    split; [|split; [|split]].
    + intros H. rewrite Ht in H. fold c in H.
      destruct (c_title c); [discriminate | congruence].
    + intros t E. rewrite Ht. fold c. rewrite E. reflexivity.
    + exact Hc.
    + reflexivity.
Qed.

Lemma corrections_are_gated_witness :
  str_truthy (get_str (record_id title_report)) = true
  /\ Processor.fetch_record "https://inis.iaea.org"
       (constant_repository (record_with_affiliation "CERN"))
       (get_str (record_id title_report))
     = Some (record_with_affiliation "CERN")
  /\ exists rc,
       corrected_example (record_with_affiliation "CERN") title_report
       = Some rc
       /\ (title_of rc <> title_of (record_with_affiliation "CERN") ->
           flag_truthy (title_corrected title_report) = true
           /\ c_title (get_corrections title_report) <> None).
Proof.
  assert (H1 : str_truthy (get_str (record_id title_report)) = true)
    by reflexivity.
  assert (H2 : Processor.fetch_record "https://inis.iaea.org"
                 (constant_repository (record_with_affiliation "CERN"))
                 (get_str (record_id title_report))
               = Some (record_with_affiliation "CERN")) by reflexivity.
  split; [exact H1|]. split; [exact H2|].
  destruct (corrections_are_gated ascii_lower "https://inis.iaea.org" "out"
              (constant_repository (record_with_affiliation "CERN"))
              "2026-11-03T00:00:00" "abcde-12345-report.json"
              title_report Processor.initial_world
              (record_with_affiliation "CERN") empty_record
              Applier.initial_stats H1 H2)
    as [(rc & Hrc & Ht & _) _].
  exists rc. split; [exact Hrc | exact Ht].
Defined.

(** C2 as stated fails three ways: the processor adds a related
    identifier although no flag of the report is true; the processor
    leaves a non-empty list of matching affiliation corrections unapplied
    when the flag [affiliation_correction_recommended] is missing; the
    applier overwrites the title although [title_corrected] is not
    true. *)
Lemma corrections_ignore_or_require_flags :
  (option_map related_identifiers_of
     (corrected_example (record_with_related [])
        (identifiers_report (OneIdentifier doi_x)))
   = Some [doi_x]
   /\ related_identifiers_of (record_with_related []) = [])
  /\ (option_map affiliation_names
        (corrected_example (record_with_two_matches "CERN")
           (report_with_affiliations None [pair_of "CERN" "CERN, Geneva"]))
      = Some ["CERN"; "JINR"; "CERN"]
      /\ fst (process_example (record_with_two_matches "CERN")
                (report_with_affiliations None
                   [pair_of "CERN" "CERN, Geneva"])) = None)
  /\ (flag_truthy (title_corrected unflagged_title_report) = false
      /\ title_of (record_with_affiliation "CERN") = Some "Old Title"
      /\ title_of
           (fst (fst (Applier.correct_draft unflagged_title_report
                        (record_with_affiliation "CERN")
                        Applier.initial_stats)))
         = Some "New Title").
Proof. vm_compute. repeat split; reflexivity. Qed.

(** ** The count of corrections applied (C4) *)

(** C4 (as amended).  For a report whose record was fetched with a
    metadata section, [corrections_applied] is the number of kinds among
    title, abstract, affiliation, descriptor deletion and publication date
    that were applied (each counts once, however many entries it changed)
    plus the number of related identifiers appended; the snapshot is
    written iff this number is positive. *)
Theorem corrections_applied_counts
    (lower : string -> string) (invenio_url output_dir : string)
    (curl_json : string -> record) (now_iso report_path : string)
    (q : qa_report) (w : Processor.world) (fetched : record) :
  str_truthy (get_str (record_id q)) = true ->
  Processor.fetch_record invenio_url curl_json (get_str (record_id q))
    = Some fetched ->
  has_metadata fetched = true ->
  let run :=
    Processor.process_qa_report lower invenio_url output_dir curl_json
      now_iso report_path (Some q) w in
  exists rc,
    Processor.heap (snd run) !! corrected_loc w fetched = Some rc
    /\ let n :=
         nat_of_bool (title_applied q) + nat_of_bool (abstract_applied q)
         + nat_of_bool (affiliation_applied q fetched)
         + nat_of_bool (descriptor_applied lower q fetched)
         + nat_of_bool (date_applied q)
         + (length (related_identifiers_of rc)
            - length (related_identifiers_of fetched)) in
       match fst run with
       | Some cd =>
           Processor.corrections_applied (Processor.correction_metadata_of cd)
           = n /\ 0 < n
       | None => n = 0
       end.
Proof.
  intros Hrid Hfetch Hmd run.
  destruct (process_corrected_document lower invenio_url output_dir
              curl_json now_iso report_path q w fetched Hrid Hfetch)
    as (rc & Hrc & Hview & Hn).
  exists rc. split; [exact Hrc|].
  destruct (correction_blocks_act lower q fetched (Processor.self_stats w))
    as [_ En].
  rewrite En in Hn. clear En.
  assert (Hrel : related_identifiers_of rc
                 = append_new (identifiers_of q)
                     (related_identifiers_of fetched)).
  { change (related_identifiers_of rc) with (v_related (view_of rc)).
    rewrite Hview.
    unfold corrected_view, related_view, add_view, date_view,
      descriptor_view, affiliation_view, abstract_view, title_view, view_of.
    cbn [v_related v_has_metadata]. rewrite Hmd.
    now rewrite !orb_true_r. }
  assert (Hcount : related_count q
                     (date_view q (abstract_view q
                                     (title_view q (view_of fetched))))
                   = length (related_identifiers_of rc)
                     - length (related_identifiers_of fetched)).
  { rewrite Hrel.
    unfold related_count, add_count, date_view, abstract_view, title_view,
      view_of.
    cbn [v_related v_has_metadata]. rewrite Hmd.
    now rewrite !orb_true_r. }
  rewrite Hcount in Hn. exact Hn.
Qed.

Lemma corrections_applied_counts_witness :
  str_truthy (get_str (record_id title_report)) = true
  /\ Processor.fetch_record "https://inis.iaea.org"
       (constant_repository (record_with_affiliation "CERN"))
       (get_str (record_id title_report))
     = Some (record_with_affiliation "CERN")
  /\ has_metadata (record_with_affiliation "CERN") = true
  /\ exists rc,
       corrected_example (record_with_affiliation "CERN") title_report
       = Some rc
       /\ match fst (process_example (record_with_affiliation "CERN")
                       title_report) with
          | Some cd =>
              Processor.corrections_applied
                (Processor.correction_metadata_of cd)
              = nat_of_bool (title_applied title_report)
                + nat_of_bool (abstract_applied title_report)
                + nat_of_bool
                    (affiliation_applied title_report
                       (record_with_affiliation "CERN"))
                + nat_of_bool
                    (descriptor_applied ascii_lower title_report
                       (record_with_affiliation "CERN"))
                + nat_of_bool (date_applied title_report)
                + (length (related_identifiers_of rc)
                   - length (related_identifiers_of
                               (record_with_affiliation "CERN")))
              /\ 0 < nat_of_bool (title_applied title_report)
                    + nat_of_bool (abstract_applied title_report)
                    + nat_of_bool
                        (affiliation_applied title_report
                           (record_with_affiliation "CERN"))
                    + nat_of_bool
                        (descriptor_applied ascii_lower title_report
                           (record_with_affiliation "CERN"))
                    + nat_of_bool (date_applied title_report)
                    + (length (related_identifiers_of rc)
                       - length (related_identifiers_of
                                   (record_with_affiliation "CERN")))
          | None => False
          end.
Proof.
  assert (H1 : str_truthy (get_str (record_id title_report)) = true)
    by reflexivity.
  assert (H2 : Processor.fetch_record "https://inis.iaea.org"
                 (constant_repository (record_with_affiliation "CERN"))
                 (get_str (record_id title_report))
               = Some (record_with_affiliation "CERN")) by reflexivity.
  assert (H3 : has_metadata (record_with_affiliation "CERN") = true)
    by reflexivity.
  split; [exact H1|]. split; [exact H2|]. split; [exact H3|].
  destruct (corrections_applied_counts ascii_lower "https://inis.iaea.org"
              "out" (constant_repository (record_with_affiliation "CERN"))
              "2026-11-03T00:00:00" "abcde-12345-report.json"
              title_report Processor.initial_world
              (record_with_affiliation "CERN") H1 H2 H3)
    as (rc & Hrc & Hn).
  exists rc. split; [exact Hrc|]. exact Hn.
Defined.

(** C4 as stated fails: an affiliation correction that matched two
    entries adds one to the count, not two; and two related identifiers
    appended by one report add two, though they are one kind. *)
Lemma count_is_not_kinds_with_affiliation_matches :
  (snd (Processor.affiliation_corrections_applied
          (record_with_two_matches "CERN") [pair_of "CERN" "CERN, Geneva"])
   = 2
   /\ applied_example (record_with_two_matches "CERN")
        (report_with_affiliations (Some true)
           [pair_of "CERN" "CERN, Geneva"])
      = Some 1)
  /\ applied_example (record_with_related [])
       (identifiers_report (IdentifierList [doi_x; doi_y]))
     = Some 2.
Proof. vm_compute. repeat split; reflexivity. Qed.

(** ** Requests sent by the applier *)

Lemma correct_draft_stats_irrelevant q d st :
  fst (fst (Applier.correct_draft q d st)) = corrected_draft q d.
Proof.
  unfold corrected_draft, Applier.correct_draft.
  destruct (c_title (get_corrections q)) as [t|]; cbn [Applier.apply_title_correction];
    destruct (get_list (affiliation_corrections q)) as [|a affs];
    destruct (get_list (organizational_author_corrections q)) as [|o orgs];
    repeat match goal with
    | |- context [Applier.apply_affiliation_corrections ?x ?y] =>
        destruct (Applier.apply_affiliation_corrections x y) as [? []]
    | |- context [Applier.apply_organizational_author_corrections ?x ?y] =>
        destruct (Applier.apply_organizational_author_corrections x y)
          as [? []]
    end; reflexivity.
Qed.

Section ApplierRequests.

Variable base_url : string.
Variable dry_run : bool.
Variable respond : list Applier.request -> Applier.request -> record.

Lemma apply_or_log_sent rid d on_success s :
  Applier.sent (snd (Applier.apply_or_log base_url dry_run respond rid d
                       on_success s))
  = Applier.sent s
    ++ (if dry_run then []
        else [Applier.Put (Applier.draft_url_of base_url rid) d;
              Applier.Post (Applier.publish_url_of base_url rid)]).
Proof.
  unfold Applier.apply_or_log. destruct dry_run; cbn.
  - now rewrite app_nil_r.
  - unfold Applier.bind, Applier.curl_put, Applier.curl_post. cbn.
    destruct (_ && _); cbn; now rewrite <- app_assoc.
Qed.

Lemma update_record_sent rid q s :
  Applier.sent (snd (Applier.update_record base_url dry_run respond rid q s))
  = Applier.sent s
    ++ draft_requests base_url dry_run respond rid (corrected_draft q)
         (Applier.sent s).
Proof.
  unfold Applier.update_record, draft_requests.
  unfold Applier.bind at 1. cbn [Applier.update_stats].
  unfold Applier.bind at 1. unfold Applier.curl_post at 1.
  cbn [Applier.sent Applier.self_stats].
  destruct (Applier.has_id (respond (Applier.sent s) _)); cbn [negb].
  - unfold Applier.bind at 1. unfold Applier.curl_get at 1.
    cbn [Applier.sent Applier.self_stats].
    destruct (is_empty_dict _) eqn:Ee; cbn [orb].
    + cbn. now rewrite <- app_assoc.
    + cbn [Applier.sent Applier.self_stats].
      destruct (Applier.correct_draft q _ _) as [[d st'] n] eqn:Ed.
      rewrite apply_or_log_sent. cbn [Applier.sent].
      pose proof (correct_draft_stats_irrelevant q
                    (respond (Applier.sent s
                              ++ [Applier.Post
                                    (Applier.draft_url_of base_url rid)])
                       (Applier.Get (Applier.draft_url_of base_url rid)))
                    (Applier.incr_records_processed (Applier.self_stats s)))
        as Hd.
      rewrite Ed in Hd. cbn [fst] in Hd. subst d.
      rewrite <- !app_assoc. reflexivity.
  - cbn. reflexivity.
Qed.

Lemma mark_only_sent rid s :
  Applier.sent
    (snd (Applier.mark_record_as_qa_checked_only base_url dry_run respond
            rid s))
  = Applier.sent s
    ++ draft_requests base_url dry_run respond rid Applier.mark_qa_checked
         (Applier.sent s).
Proof.
  unfold Applier.mark_record_as_qa_checked_only, draft_requests.
  unfold Applier.bind at 1. cbn [Applier.update_stats].
  unfold Applier.bind at 1. unfold Applier.curl_post at 1.
  cbn [Applier.sent Applier.self_stats].
  destruct (Applier.has_id (respond (Applier.sent s) _)); cbn [negb].
  - unfold Applier.bind at 1. unfold Applier.curl_get at 1.
    cbn [Applier.sent Applier.self_stats].
    destruct (is_empty_dict _) eqn:Ee; cbn [orb].
    + cbn. now rewrite <- app_assoc.
    + rewrite apply_or_log_sent. cbn [Applier.sent].
      rewrite <- !app_assoc. reflexivity.
  - cbn. reflexivity.
Qed.

End ApplierRequests.

Section ApplierFolder.

Variable base_url : string.
Variable dry_run : bool.
Variable respond : list Applier.request -> Applier.request -> record.

(** A property of requests that holds of the requests of every call on a
    record holds of all the requests that a folder adds. *)
Variable P : Applier.request -> Prop.
Hypothesis update_ok :
  forall rid q before,
    Forall P (draft_requests base_url dry_run respond rid (corrected_draft q)
                before).
Hypothesis mark_ok :
  forall rid before,
    Forall P (draft_requests base_url dry_run respond rid
                Applier.mark_qa_checked before).

Lemma process_report_file_sent f s :
  exists new,
    Applier.sent (snd (Applier.process_report_file base_url dry_run respond
                         f s))
    = Applier.sent s ++ new
    /\ Forall P new.
Proof.
  unfold Applier.process_report_file.
  destruct f as [q|]; [|exists []; cbn; now rewrite app_nil_r].
  destruct (str_truthy (get_str (record_id q))); cbn [negb];
    [|exists []; cbn; now rewrite app_nil_r].
  destruct (Applier.has_applicable_corrections q).
  - unfold Applier.bind.
    pose proof (update_record_sent base_url dry_run respond
                  (get_str (record_id q)) q s) as E.
    destruct (Applier.update_record _ _ _ _ _ s) as [b s']. cbn in *.
    eexists. split; [exact E | apply update_ok].
  - unfold Applier.bind.
    pose proof (mark_only_sent base_url dry_run respond
                  (get_str (record_id q)) s) as E.
    destruct (Applier.mark_record_as_qa_checked_only _ _ _ _ s) as [b s'].
    cbn in *. eexists. split; [exact E | apply mark_ok].
Qed.

Lemma process_report_files_sent files s :
  exists new,
    Applier.sent (snd (Applier.process_report_files base_url dry_run respond
                         files s))
    = Applier.sent s ++ new
    /\ Forall P new.
Proof.
  revert s. induction files as [|f files IH]; intros s.
  - exists []. cbn. now rewrite app_nil_r.
  - cbn [Applier.process_report_files]. unfold Applier.bind.
    destruct (process_report_file_sent f s) as (new1 & E1 & H1).
    destruct (Applier.process_report_file _ _ _ f s) as [u s1].
    cbn [snd] in E1.
    destruct (IH s1) as (new2 & E2 & H2).
    exists (new1 ++ new2). rewrite E2, E1, <- app_assoc.
    split; [reflexivity | now apply Forall_app].
Qed.

Lemma process_qa_folder_sent folder s :
  exists new,
    Applier.sent (snd (Applier.process_qa_folder base_url dry_run respond
                         folder s))
    = Applier.sent s ++ new
    /\ Forall P new.
Proof.
  unfold Applier.process_qa_folder.
  destruct folder as [[|f files]|];
    try (exists []; cbn; now rewrite app_nil_r).
  unfold Applier.bind.
  destruct (process_report_files_sent (f :: files) s) as (new & E & H).
  destruct (Applier.process_report_files _ _ _ (f :: files) s) as [u s'].
  exists new. split; assumption.
Qed.

End ApplierFolder.

(** ** The QA-checked marker (C3) *)

Lemma mark_qa_checked_sets_marker d :
  qa_checked_of (Applier.mark_qa_checked d) = Some true.
Proof. now destruct d as [rid md [cf|]]. Qed.

Lemma draft_requests_checked base_url dry_run respond rid build before :
  (forall d, qa_checked_of (build d) = Some true) ->
  Forall put_is_checked
    (draft_requests base_url dry_run respond rid build before).
Proof.
  intros Hb. unfold draft_requests.
  constructor; [exact I|].
  destruct (Applier.has_id _); [|constructor].
  constructor; [exact I|].
  destruct (_ || _); constructor; [apply Hb|].
  constructor; [exact I | constructor].
Qed.

Lemma corrected_draft_checked q d :
  qa_checked_of (corrected_draft q d) = Some true.
Proof.
  unfold corrected_draft.
  now destruct (correct_draft_effect q d Applier.initial_stats)
    as (_ & _ & H).
Qed.

(** C3 (as amended).  In the applier, the draft document that
    [update_record] corrects and the one that
    [mark_record_as_qa_checked_only] builds carry
    [custom_fields.iaea:qa_checked = true] whatever the report holds; so
    does every draft update that the processing of a folder sends to the
    repository. *)
Theorem applier_marks_drafts_qa_checked
    (base_url : string) (dry_run : bool)
    (respond : list Applier.request -> Applier.request -> record)
    (folder : option (list (option qa_report))) (s : Applier.state)
    (q : qa_report) (draft : record) (st : Applier.stats) :
  Forall put_is_checked (Applier.sent s) ->
  qa_checked_of (fst (fst (Applier.correct_draft q draft st))) = Some true
  /\ qa_checked_of (Applier.mark_qa_checked draft) = Some true
  /\ Forall put_is_checked
       (Applier.sent
          (snd (Applier.process_qa_folder base_url dry_run respond folder s))).
Proof.
  intros Hs. split; [|split].
  - now destruct (correct_draft_effect q draft st) as (_ & _ & H).
  - apply mark_qa_checked_sets_marker.
  - destruct (process_qa_folder_sent base_url dry_run respond put_is_checked
                (fun rid q' before =>
                   draft_requests_checked base_url dry_run respond rid
                     (corrected_draft q') before (corrected_draft_checked q'))
                (fun rid before =>
                   draft_requests_checked base_url dry_run respond rid
                     Applier.mark_qa_checked before
                     mark_qa_checked_sets_marker)
                folder s) as (new & E & H).
    rewrite E. now apply Forall_app.
Qed.

Lemma applier_marks_drafts_qa_checked_witness :
  Forall put_is_checked (Applier.sent Applier.initial_state)
  /\ qa_checked_of
       (fst (fst (Applier.correct_draft title_report
                    (record_with_affiliation "CERN") Applier.initial_stats)))
     = Some true
  /\ qa_checked_of (Applier.mark_qa_checked (record_with_affiliation "CERN"))
     = Some true
  /\ Forall put_is_checked
       (Applier.sent
          (snd (Applier.process_qa_folder "https://inis.iaea.org/api/records"
                  false
                  (constant_responder (record_with_affiliation "CERN"))
                  (Some [Some title_report; Some bare_report])
                  Applier.initial_state))).
Proof.
  assert (H : Forall put_is_checked (Applier.sent Applier.initial_state))
    by apply List.Forall_nil.
  split; [exact H|].
  exact (applier_marks_drafts_qa_checked "https://inis.iaea.org/api/records"
           false (constant_responder (record_with_affiliation "CERN"))
           (Some [Some title_report; Some bare_report])
           Applier.initial_state title_report
           (record_with_affiliation "CERN") Applier.initial_stats H).
Defined.

(** The file-writing processor leaves [custom_fields.iaea:qa_checked] as
    it was fetched. *)
Lemma processor_leaves_qa_checked
    (lower : string -> string) (invenio_url output_dir : string)
    (curl_json : string -> record) (now_iso report_path : string)
    (q : qa_report) (w : Processor.world) (fetched : record) :
  str_truthy (get_str (record_id q)) = true ->
  Processor.fetch_record invenio_url curl_json (get_str (record_id q))
    = Some fetched ->
  exists rc,
    Processor.heap
      (snd (Processor.process_qa_report lower invenio_url output_dir
              curl_json now_iso report_path (Some q) w))
      !! corrected_loc w fetched = Some rc
    /\ qa_checked_of rc = qa_checked_of fetched.
Proof.
  intros Hrid Hfetch.
  destruct (process_corrected_document lower invenio_url output_dir
              curl_json now_iso report_path q w fetched Hrid Hfetch)
    as (rc & Hrc & Hview & _).
  exists rc. split; [exact Hrc|].
  change (qa_checked_of rc) with (v_qa_checked (view_of rc)).
  rewrite Hview. reflexivity.
Qed.

(** C3 as stated fails for the file-writing processor: the corrected
    document of its snapshot has no [iaea:qa_checked] marker, and for a
    report without any recognised correction key it writes no snapshot at
    all and the copy it made is unmarked. *)
Lemma processor_does_not_mark_qa_checked :
  (option_map qa_checked_of
     (corrected_example (record_with_affiliation "CERN") title_report)
   = Some None
   /\ map (fun f => qa_checked_of (Processor.snap_corrected_record (snd f)))
        (Processor.files
           (snd (process_example (record_with_affiliation "CERN")
                   title_report)))
      = [None])
  /\ (fst (process_example (record_with_affiliation "CERN") bare_report)
      = None
      /\ Processor.files
           (snd (process_example (record_with_affiliation "CERN")
                   bare_report)) = []
      /\ option_map qa_checked_of
           (corrected_example (record_with_affiliation "CERN") bare_report)
         = Some None).
Proof. vm_compute. repeat split; reflexivity. Qed.

(** ** Dry run (C8) *)

Lemma draft_requests_dry_run base_url respond rid build before :
  let url := Applier.draft_url_of base_url rid in
  exists rest,
    draft_requests base_url true respond rid build before
    = Applier.Post url :: rest
    /\ (rest = [] \/ rest = [Applier.Get url]).
Proof.
  intros url. unfold draft_requests. fold url.
  rewrite orb_true_r. destruct (Applier.has_id _); eauto.
Qed.

Lemma draft_requests_open_draft base_url respond rid build before :
  Forall (opens_draft base_url)
    (draft_requests base_url true respond rid build before).
Proof.
  destruct (draft_requests_dry_run base_url respond rid build before)
    as (rest & -> & [-> | ->]);
    repeat (constructor; [cbn; eauto|]); constructor.
Qed.

(** C8, on the code.  In dry-run mode [update_record] and
    [mark_record_as_qa_checked_only] send the POST that creates the draft
    of the record, possibly followed by the GET of that draft, and nothing
    else; over a folder, every request sent opens or reads a draft: no
    draft update and no publish action is sent, but a draft is created
    for every record processed. *)
Theorem dry_run_requests
    (base_url : string)
    (respond : list Applier.request -> Applier.request -> record)
    (rid : string) (q : qa_report)
    (folder : option (list (option qa_report))) (s : Applier.state) :
  let url := Applier.draft_url_of base_url rid in
  (exists rest,
     Applier.sent (snd (Applier.update_record base_url true respond rid q s))
     = Applier.sent s ++ Applier.Post url :: rest
     /\ (rest = [] \/ rest = [Applier.Get url]))
  /\ (exists rest,
        Applier.sent
          (snd (Applier.mark_record_as_qa_checked_only base_url true respond
                  rid s))
        = Applier.sent s ++ Applier.Post url :: rest
        /\ (rest = [] \/ rest = [Applier.Get url]))
  /\ (exists new,
        Applier.sent
          (snd (Applier.process_qa_folder base_url true respond folder s))
        = Applier.sent s ++ new
        /\ Forall (opens_draft base_url) new).
Proof.
  intros url. split; [|split].
  - rewrite update_record_sent.
    destruct (draft_requests_dry_run base_url respond rid
                (corrected_draft q) (Applier.sent s)) as (rest & -> & H).
    eauto.
  - rewrite mark_only_sent.
    destruct (draft_requests_dry_run base_url respond rid
                Applier.mark_qa_checked (Applier.sent s))
      as (rest & -> & H).
    eauto.
  - apply process_qa_folder_sent; intros; apply draft_requests_open_draft.
Qed.

(** The default run on the report of the end-to-end example: the draft
    of the record is created on the repository. *)
Lemma dry_run_creates_a_draft :
  Applier.sent
    (snd (Applier.process_qa_folder "https://inis.iaea.org/api/records" true
            (constant_responder (record_with_affiliation "CERN"))
            (Some [Some title_report]) Applier.initial_state))
  = [Applier.Post "https://inis.iaea.org/api/records/abcde-12345/draft";
     Applier.Get "https://inis.iaea.org/api/records/abcde-12345/draft"].
Proof. reflexivity. Qed.

(** ** Further properties of the specification *)

(** The lead-record-id pattern: five characters of [a-z0-9], a hyphen,
    five characters of [a-z0-9], and nothing else.  "ab12c-xy99z" is
    valid; "AB12C-XY99Z" and "ab12c_xy99z" are not. *)
Theorem lead_record_id_validation :
  (forall value,
     Checker.is_valid_lead_record_id value = true <->
     exists l1 l2,
       list_ascii_of_string value = l1 ++ "-"%char :: l2
       /\ length l1 = 5 /\ length l2 = 5
       /\ forallb Checker.is_id_char l1 = true
       /\ forallb Checker.is_id_char l2 = true)
  /\ Checker.is_valid_lead_record_id "ab12c-xy99z" = true
  /\ Checker.is_valid_lead_record_id "AB12C-XY99Z" = false
  /\ Checker.is_valid_lead_record_id "ab12c_xy99z" = false.
Proof.
  split; [|repeat split; reflexivity].
  intros value. unfold Checker.is_valid_lead_record_id. split.
  - destruct (list_ascii_of_string value)
      as [|a [|b [|c [|d [|e [|sep [|f [|g [|h [|i [|j [|k l]]]]]]]]]]]];
      try discriminate.
    intros H. apply andb_true_iff in H as [H H2].
    apply andb_true_iff in H as [H1 Hs].
    apply Ascii.eqb_eq in Hs. subst sep.
    exists [a; b; c; d; e], [f; g; h; i; j]. repeat split; assumption.
  - intros (l1 & l2 & E & L1 & L2 & H1 & H2). rewrite E.
    destruct l1 as [|a [|b [|c [|d [|e [|x l1]]]]]]; try discriminate.
    destruct l2 as [|f [|g [|h [|i [|j [|x l2]]]]]]; try discriminate.
    cbn [app]. rewrite H1, H2, Ascii.eqb_refl. reflexivity.
Qed.

(** The end-to-end example: for the report
    [{"record_id": "abcde-12345", "corrections": {"title": "New Title"},
      "title_corrected": true}] and any record fetched for it, a snapshot
    is written whose corrected record has the title "New Title", whose
    original record is the record as fetched, and whose
    [corrections_applied] is 1. *)
Theorem title_report_end_to_end
    (lower : string -> string) (invenio_url output_dir : string)
    (curl_json : string -> record) (now_iso report_path : string)
    (w : Processor.world) (fetched : record) :
  Processor.fetch_record invenio_url curl_json "abcde-12345" = Some fetched ->
  let run :=
    Processor.process_qa_report lower invenio_url output_dir curl_json
      now_iso report_path (Some title_report) w in
  exists cd name snap,
    fst run = Some cd
    /\ Processor.corrections_applied (Processor.correction_metadata_of cd) = 1
    /\ Processor.files (snd run) = Processor.files w ++ [(name, snap)]
    /\ title_of (Processor.snap_corrected_record snap) = Some "New Title"
    /\ Processor.snap_original_record snap = fetched
    /\ Processor.corrections_applied
         (Processor.snap_correction_metadata snap) = 1.
Proof.
  intros Hfetch run. subst run.
  rewrite (process_qa_report_spec lower invenio_url output_dir curl_json
             now_iso report_path title_report w fetched eq_refl Hfetch).
  cbv zeta.
  destruct (correction_blocks_act lower title_report fetched
              (Processor.self_stats w)) as [Ev En].
  destruct (compose_blocks (Processor.correction_blocks lower title_report)
              fetched (Processor.self_stats w)) as [[rc st'] n].
  cbn [fst snd] in Ev, En.
  assert (Hn : n = 1).
  { rewrite En. unfold affiliation_count, descriptor_count, related_count,
      add_count. cbn.
    rewrite (proj2 (filter_kept_nil lower _)). cbn. lia. }
  clear En. subst n. cbn [Nat.ltb Nat.leb fst snd].
  eexists _, _, _. split; [reflexivity|]. split; [reflexivity|].
  split; [reflexivity|].
  cbn [Processor.snap_corrected_record Processor.snap_original_record
       Processor.snap_correction_metadata Processor.corrections_applied].
  split; [|split; reflexivity].
  change (title_of rc) with (v_title (view_of rc)). rewrite Ev. reflexivity.
Qed.

Lemma title_report_end_to_end_witness :
  Processor.fetch_record "https://inis.iaea.org"
    (constant_repository (record_with_affiliation "CERN")) "abcde-12345"
  = Some (record_with_affiliation "CERN")
  /\ exists cd name snap,
       fst (process_example (record_with_affiliation "CERN") title_report)
       = Some cd
       /\ Processor.corrections_applied (Processor.correction_metadata_of cd)
          = 1
       /\ Processor.files
            (snd (process_example (record_with_affiliation "CERN")
                    title_report))
          = Processor.files Processor.initial_world ++ [(name, snap)]
       /\ title_of (Processor.snap_corrected_record snap) = Some "New Title"
       /\ Processor.snap_original_record snap
          = record_with_affiliation "CERN"
       /\ Processor.corrections_applied
            (Processor.snap_correction_metadata snap) = 1.
Proof.
  assert (H : Processor.fetch_record "https://inis.iaea.org"
                (constant_repository (record_with_affiliation "CERN"))
                "abcde-12345"
              = Some (record_with_affiliation "CERN")) by reflexivity.
  split; [exact H|].
  exact (title_report_end_to_end ascii_lower "https://inis.iaea.org" "out"
           (constant_repository (record_with_affiliation "CERN"))
           "2026-11-03T00:00:00" "abcde-12345-report.json"
           Processor.initial_world (record_with_affiliation "CERN") H).
Defined.

(** The aggregator counts in [title_corrections] the parsed reports whose
    [title_corrected] is true: over two report files, one with
    [title_corrected: true] and one without, it is 1. *)
Theorem title_corrections_are_counted
    (str_of_identifiers : identifiers_arg -> string) :
  (forall files,
     Aggregator.title_corrections
       (Aggregator.summary_of
          (Aggregator.create_summary_report str_of_identifiers files))
     = length (List.filter has_title_flag files))
  /\ Aggregator.title_corrections
       (Aggregator.summary_of
          (Aggregator.create_summary_report str_of_identifiers
             two_report_files)) = 1.
Proof.
  split; [|reflexivity].
  intros files. unfold Aggregator.create_summary_report.
  assert (H : forall acc,
             Aggregator.title_corrections
               (Aggregator.summary_of
                  (fold_left (Aggregator.scan_file str_of_identifiers)
                     files acc))
             = Aggregator.title_corrections (Aggregator.summary_of acc)
               + length (List.filter has_title_flag files)).
  { induction files as [|f files IH]; intros acc; simpl; [lia|].
    rewrite IH. unfold Aggregator.scan_file, has_title_flag.
    destruct (Aggregator.content f) as [e|e|data]; simpl; try lia.
    destruct (flag_truthy (title_corrected data)); simpl; lia. }
  rewrite H. reflexivity.
Qed.

Lemma affiliation_list_removes_old_name_witness :
  In (pair_of "CERN" "CERN, Geneva")
     [pair_of "JINR" "JINR, Dubna"; pair_of "CERN" "CERN, Geneva"]
  /\ "CERN" <> "" /\ "CERN, Geneva" <> ""
  /\ ~ In "CERN"
       (affiliation_names
          (fst (Processor.apply_affiliation_corrections
                  (record_with_two_matches "CERN")
                  [pair_of "JINR" "JINR, Dubna";
                   pair_of "CERN" "CERN, Geneva"]))).
Proof.
  assert (H1 : In (pair_of "CERN" "CERN, Geneva")
                  [pair_of "JINR" "JINR, Dubna";
                   pair_of "CERN" "CERN, Geneva"])
    by (right; left; reflexivity).
  assert (H2 : "CERN" <> "") by discriminate.
  assert (H3 : "CERN, Geneva" <> "") by discriminate.
  assert (H4 : forall c,
             In c [pair_of "JINR" "JINR, Dubna";
                   pair_of "CERN" "CERN, Geneva"] ->
             get_str (recommended_affiliation c) <> "CERN").
  { intros c [<- | [<- | []]]; discriminate. }
  split; [exact H1|]. split; [exact H2|]. split; [exact H3|].
  exact (proj1 (affiliation_list_removes_old_name
                  (record_with_two_matches "CERN") _ _ _ H1 H2 H3 H4)).
Defined.

Lemma add_related_identifier_without_metadata_witness :
  rec_metadata empty_record = None
  /\ Processor.add_related_identifier empty_record doi_x
     = (empty_record, str_truthy (get_str (ri_identifier doi_x))).
Proof.
  assert (H : rec_metadata empty_record = None) by reflexivity.
  split; [exact H|].
  exact (add_related_identifier_without_metadata empty_record doi_x H).
Defined.

Lemma processor_leaves_qa_checked_witness :
  str_truthy (get_str (record_id title_report)) = true
  /\ Processor.fetch_record "https://inis.iaea.org"
       (constant_repository (record_with_affiliation "CERN"))
       (get_str (record_id title_report))
     = Some (record_with_affiliation "CERN")
  /\ exists rc,
       corrected_example (record_with_affiliation "CERN") title_report
       = Some rc
       /\ qa_checked_of rc = qa_checked_of (record_with_affiliation "CERN").
Proof.
  assert (H1 : str_truthy (get_str (record_id title_report)) = true)
    by reflexivity.
  assert (H2 : Processor.fetch_record "https://inis.iaea.org"
                 (constant_repository (record_with_affiliation "CERN"))
                 (get_str (record_id title_report))
               = Some (record_with_affiliation "CERN")) by reflexivity.
  split; [exact H1|]. split; [exact H2|].
  exact (processor_leaves_qa_checked ascii_lower "https://inis.iaea.org"
           "out" (constant_repository (record_with_affiliation "CERN"))
           "2026-11-03T00:00:00" "abcde-12345-report.json" title_report
           Processor.initial_world (record_with_affiliation "CERN") H1 H2).
Defined.

(** *** Organizational authors *)

Lemma org_creator_step old new c :
  new <> "" ->
  let res := Applier.correct_org_creator [org_pair_of old new] c in
  is_organizational (fst res) = is_organizational c
  /\ (is_organizational c = true ->
      creator_name (fst res) = rename old new (creator_name c)
      /\ snd res = count_eq old [creator_name c])
  /\ (is_organizational c = false -> res = (c, 0)).
Proof.
  intros Hnew. apply str_truthy_true in Hnew.
  unfold Applier.correct_org_creator, is_organizational, creator_name,
    rename, count_eq.
  destruct c as [[[[ty|] nm]|] affs]; cbn;
    try (repeat split; congruence).
  destruct (String.eqb ty "organizational") eqn:Et; cbn;
    [|repeat split; congruence].
  rewrite Hnew, andb_true_r.
  destruct (String.eqb (default "" nm) old); cbn; rewrite ?Et;
    repeat split; congruence.
Qed.

Lemma org_creators_scan old new creators :
  new <> "" ->
  let res :=
    map_count (Applier.correct_org_creator [org_pair_of old new]) creators in
  map creator_name (List.filter is_organizational (fst res))
  = map (rename old new)
      (map creator_name (List.filter is_organizational creators))
  /\ List.filter (fun c => negb (is_organizational c)) (fst res)
     = List.filter (fun c => negb (is_organizational c)) creators
  /\ snd res
     = count_eq old
         (map creator_name (List.filter is_organizational creators)).
Proof.
  intros Hnew. cbv zeta.
  induction creators as [|c creators IH]; [repeat split; reflexivity|].
  cbn [map_count].
  pose proof (org_creator_step old new c Hnew) as Hc. cbv zeta in Hc.
  destruct (Applier.correct_org_creator [org_pair_of old new] c) as [c' k].
  destruct (map_count _ creators) as [cs' m].
  cbn [fst snd] in *. destruct IH as (IH1 & IH2 & IH3).
  destruct Hc as (E1 & E2 & E3).
  cbn [List.filter]. rewrite E1.
  destruct (is_organizational c) eqn:Eo; cbn [negb map].
  - destruct (E2 eq_refl) as [N1 N2].
    rewrite N1, N2, IH1, IH2, IH3. repeat split; try reflexivity.
    change (creator_name c
            :: map creator_name (List.filter is_organizational creators))
      with ([creator_name c]
            ++ map creator_name (List.filter is_organizational creators)).
    now rewrite count_eq_app.
  - injection (E3 eq_refl) as -> ->. rewrite IH1, IH2, IH3.
    repeat split; reflexivity.
Qed.

(** An organizational-author pair whose recommended name is not empty
    renames, in place, exactly the creators of type "organizational"
    named [old]; the other creators are left as they are; the count is the
    number of organizational creators named [old]; the method returns true
    iff there is one. *)
Theorem organizational_author_pair_correction (r : record)
    (old new : string) :
  new <> "" ->
  let corrections := [org_pair_of old new] in
  let res := Applier.organizational_author_corrections_applied r corrections in
  organizational_names (fst res)
  = map (rename old new) (organizational_names r)
  /\ other_creators (fst res) = other_creators r
  /\ snd res = count_eq old (organizational_names r)
  /\ (snd (Applier.apply_organizational_author_corrections r corrections)
      = true <-> In old (organizational_names r)).
Proof.
  intros Hnew corrections res.
  assert (H : organizational_names (fst res)
              = map (rename old new) (organizational_names r)
              /\ other_creators (fst res) = other_creators r
              /\ snd res = count_eq old (organizational_names r)).
  { subst res corrections.
    unfold Applier.organizational_author_corrections_applied,
      organizational_names, other_creators, creators_of.
    destruct r as [rid [[t d p [creators|] ri]|] cf]; cbn [rec_metadata
      md_creators fst snd get_list default];
      try (repeat split; reflexivity).
    pose proof (org_creators_scan old new creators Hnew) as Hs.
    cbv zeta in Hs.
    destruct (map_count _ creators) as [creators' n]. exact Hs. }
  destruct H as (H1 & H2 & H3).
  split; [exact H1|]. split; [exact H2|]. split; [exact H3|].
  unfold Applier.apply_organizational_author_corrections.
  fold corrections. fold res. destruct res as [r' n]. cbn [snd] in *.
  subst n. rewrite Nat.ltb_lt. apply count_eq_pos.
Qed.

Lemma organizational_author_pair_correction_witness :
  "IAEA, Vienna" <> ""
  /\ organizational_names
       (fst (Applier.organizational_author_corrections_applied
               (record_with_authors "IAEA" "IAEA")
               [org_pair_of "IAEA" "IAEA, Vienna"]))
     = map (rename "IAEA" "IAEA, Vienna")
         (organizational_names (record_with_authors "IAEA" "IAEA"))
  /\ other_creators
       (fst (Applier.organizational_author_corrections_applied
               (record_with_authors "IAEA" "IAEA")
               [org_pair_of "IAEA" "IAEA, Vienna"]))
     = other_creators (record_with_authors "IAEA" "IAEA").
Proof.
  assert (H : "IAEA, Vienna" <> "") by discriminate.
  split; [exact H|].
  destruct (organizational_author_pair_correction
              (record_with_authors "IAEA" "IAEA") "IAEA" "IAEA, Vienna" H)
    as (E1 & E2 & _).
  split; [exact E1 | exact E2].
Defined.

(** *** Applying to the repository *)

(** Outside dry-run mode, when the draft of the record is created and
    fetched, [update_record] sends four requests: the creation of the
    draft, its retrieval, the update of the draft with the corrected
    document, which is marked QA-checked, and the publish action. *)
Theorem apply_mode_requests
    (base_url : string)
    (respond : list Applier.request -> Applier.request -> record)
    (rid : string) (q : qa_report) (s : Applier.state) :
  let url := Applier.draft_url_of base_url rid in
  let full_draft :=
    respond (Applier.sent s ++ [Applier.Post url]) (Applier.Get url) in
  Applier.has_id (respond (Applier.sent s) (Applier.Post url)) = true ->
  is_empty_dict full_draft = false ->
  Applier.sent (snd (Applier.update_record base_url false respond rid q s))
  = Applier.sent s
    ++ [Applier.Post url; Applier.Get url;
        Applier.Put url (corrected_draft q full_draft);
        Applier.Post (Applier.publish_url_of base_url rid)]
  /\ qa_checked_of (corrected_draft q full_draft) = Some true.
Proof.
  intros url full_draft Hid Hdraft.
  rewrite update_record_sent. unfold draft_requests.
  fold url. fold full_draft. rewrite Hid, Hdraft.
  split; [reflexivity | apply corrected_draft_checked].
Qed.

Lemma apply_mode_requests_witness :
  Applier.has_id
    (constant_responder (record_with_affiliation "CERN")
       (Applier.sent Applier.initial_state)
       (Applier.Post
          (Applier.draft_url_of "https://inis.iaea.org/api/records"
             "abcde-12345"))) = true
  /\ is_empty_dict (record_with_affiliation "CERN") = false
  /\ Applier.sent
       (snd (Applier.update_record "https://inis.iaea.org/api/records" false
               (constant_responder (record_with_affiliation "CERN"))
               "abcde-12345" title_report Applier.initial_state))
     = [Applier.Post "https://inis.iaea.org/api/records/abcde-12345/draft";
        Applier.Get "https://inis.iaea.org/api/records/abcde-12345/draft";
        Applier.Put "https://inis.iaea.org/api/records/abcde-12345/draft"
          (corrected_draft title_report (record_with_affiliation "CERN"));
        Applier.Post
          "https://inis.iaea.org/api/records/abcde-12345/draft/actions/publish"].
Proof.
  assert (H1 : Applier.has_id
                 (constant_responder (record_with_affiliation "CERN")
                    (Applier.sent Applier.initial_state)
                    (Applier.Post
                       (Applier.draft_url_of
                          "https://inis.iaea.org/api/records"
                          "abcde-12345"))) = true) by reflexivity.
  assert (H2 : is_empty_dict (record_with_affiliation "CERN") = false)
    by reflexivity.
  split; [exact H1|]. split; [exact H2|].
  exact (proj1 (apply_mode_requests "https://inis.iaea.org/api/records"
                  (constant_responder (record_with_affiliation "CERN"))
                  "abcde-12345" title_report Applier.initial_state H1 H2)).
Defined.

(** When the repository does not answer the creation of the draft with
    an id, [update_record] counts an error, returns false and sends
    nothing more: the record is left as it is. *)
Theorem draft_creation_failure
    (base_url : string) (dry_run : bool)
    (respond : list Applier.request -> Applier.request -> record)
    (rid : string) (q : qa_report) (s : Applier.state) :
  let url := Applier.draft_url_of base_url rid in
  Applier.has_id (respond (Applier.sent s) (Applier.Post url)) = false ->
  Applier.update_record base_url dry_run respond rid q s
  = (false,
     Applier.mk_state
       (Applier.incr_errors
          (Applier.incr_records_processed (Applier.self_stats s)))
       (Applier.sent s ++ [Applier.Post url])).
Proof.
  intros url Hid. unfold Applier.update_record.
  unfold Applier.bind at 1. cbn [Applier.update_stats].
  unfold Applier.bind at 1. unfold Applier.curl_post at 1.
  cbn [Applier.sent Applier.self_stats]. fold url. rewrite Hid.
  reflexivity.
Qed.

Lemma draft_creation_failure_witness :
  Applier.has_id
    (constant_responder empty_record (Applier.sent Applier.initial_state)
       (Applier.Post
          (Applier.draft_url_of "https://inis.iaea.org/api/records"
             "abcde-12345"))) = false
  /\ fst (Applier.update_record "https://inis.iaea.org/api/records" false
            (constant_responder empty_record) "abcde-12345" title_report
            Applier.initial_state) = false.
Proof.
  assert (H : Applier.has_id
                (constant_responder empty_record
                   (Applier.sent Applier.initial_state)
                   (Applier.Post
                      (Applier.draft_url_of
                         "https://inis.iaea.org/api/records"
                         "abcde-12345"))) = false) by reflexivity.
  split; [exact H|].
  exact (f_equal fst
           (draft_creation_failure "https://inis.iaea.org/api/records" false
              (constant_responder empty_record) "abcde-12345" title_report
              Applier.initial_state H)).
Defined.

(** *** Unconditional overwrites *)

(** The title, abstract and publication-date matchers of the processor
    always return true, set their field to the given value, whatever it
    is, and leave the other fields of the view as they are. *)
Theorem unconditional_overwrites (r : record) (value : string) :
  let t := Processor.apply_title_correction r value in
  let a := Processor.apply_abstract_correction r value in
  let d := Processor.apply_date_correction r value in
  (snd t = true /\ title_of (fst t) = Some value
   /\ description_of (fst t) = description_of r
   /\ publication_date_of (fst t) = publication_date_of r
   /\ creators_of (fst t) = creators_of r
   /\ rec_custom_fields (fst t) = rec_custom_fields r)
  /\ (snd a = true /\ description_of (fst a) = Some value
      /\ title_of (fst a) = title_of r
      /\ publication_date_of (fst a) = publication_date_of r
      /\ creators_of (fst a) = creators_of r
      /\ rec_custom_fields (fst a) = rec_custom_fields r)
  /\ (snd d = true /\ publication_date_of (fst d) = Some value
      /\ title_of (fst d) = title_of r
      /\ description_of (fst d) = description_of r
      /\ creators_of (fst d) = creators_of r
      /\ rec_custom_fields (fst d) = rec_custom_fields r).
Proof.
  destruct r as [rid [[t0 d0 p0 cr ri]|] cf]; cbn; repeat split; reflexivity.
Qed.

(** ** Batches of reports in the processor *)

Lemma compose_blocks_keep_counters (bs : list Processor.block) :
  Forall (fun b => forall r st,
            batch_counters (snd (fst (b r st))) = batch_counters st) bs ->
  forall r st,
    batch_counters (snd (fst (compose_blocks bs r st))) = batch_counters st.
Proof.
  induction 1 as [|b bs Hb _ IH]; intros r st; [reflexivity|].
  cbn [compose_blocks]. specialize (Hb r st).
  destruct (b r st) as [[r1 st1] n]. specialize (IH r1 st1).
  destruct (compose_blocks bs r1 st1) as [[r2 st2] m].
  cbn [fst snd] in *. congruence.
Qed.

Lemma correction_blocks_keep_batch_counters lower q r st :
  batch_counters
    (snd (fst (compose_blocks (Processor.correction_blocks lower q) r st)))
  = batch_counters st.
Proof.
  apply compose_blocks_keep_counters.
  unfold Processor.correction_blocks.
  repeat (apply List.Forall_cons || apply List.Forall_nil); intros r0 st0;
    unfold Processor.title_block, Processor.abstract_block,
      Processor.affiliation_block, Processor.descriptor_block,
      Processor.date_block, Processor.related_identifier_block;
    cbv zeta;
    repeat match goal with
           | |- context [match ?x with _ => _ end] => destruct x
           end;
    reflexivity.
Qed.

Section ProcessorBatch.

Variable lower : string -> string.
Variables invenio_url output_dir : string.
Variable curl_json : string -> record.
Variable now_iso : string.

Let process :=
  Processor.process_qa_report lower invenio_url output_dir curl_json now_iso.

(** What one call of [process_qa_report] does to the world, whatever the
    report file holds. *)
Lemma process_qa_report_effect (report_path : string)
    (parsed : option qa_report) (w : Processor.world) :
  let res := fst (process report_path parsed w) in
  let w' := snd (process report_path parsed w) in
  (forall l r, Processor.heap w !! l = Some r ->
               Processor.heap w' !! l = Some r)
  /\ batch_counters (Processor.self_stats w')
     = (Processor.records_processed (Processor.self_stats w),
        Processor.records_corrected (Processor.self_stats w)
        + (if is_some res then 1 else 0),
        Processor.errors (Processor.self_stats w)
        + (if is_some parsed then 0 else 1))
  /\ exists new,
       Processor.files w' = Processor.files w ++ new
       /\ length new = (if is_some res then 1 else 0)
       /\ (is_some res = true -> is_some parsed = true).
Proof.
  subst process. cbv zeta.
  assert (Hsame : forall w0 : Processor.world,
            (forall l r, Processor.heap w0 !! l = Some r ->
                         Processor.heap w0 !! l = Some r)
            /\ batch_counters (Processor.self_stats w0)
               = (Processor.records_processed (Processor.self_stats w0),
                  Processor.records_corrected (Processor.self_stats w0) + 0,
                  Processor.errors (Processor.self_stats w0) + 0)
            /\ exists new,
                 Processor.files w0 = Processor.files w0 ++ new
                 /\ length new = 0
                 /\ (false = true -> true = true)).
  { intros w0. split; [auto|]. split.
    - unfold batch_counters. now rewrite !Nat.add_0_r.
    - exists []. rewrite app_nil_r. auto. }
  destruct parsed as [q|].
  - destruct (str_truthy (get_str (record_id q))) eqn:Hrid.
    + destruct (Processor.fetch_record invenio_url curl_json
                  (get_str (record_id q))) as [fetched|] eqn:Hfetch.
      * rewrite (process_qa_report_spec lower invenio_url output_dir
                   curl_json now_iso report_path q w fetched Hrid Hfetch).
        cbv zeta.
        destruct (corrected_loc_fresh w fetched) as (Hne & Ho & Hc).
        pose proof (correction_blocks_keep_batch_counters lower q fetched
                      (Processor.self_stats w)) as Hk.
        destruct (compose_blocks (Processor.correction_blocks lower q)
                    fetched (Processor.self_stats w)) as [[rc st'] n].
        cbn [fst snd] in Hk.
        assert (Hframe : forall l r, Processor.heap w !! l = Some r ->
                  (<[corrected_loc w fetched := rc]>
                     (<[original_loc w := fetched]> (Processor.heap w)))
                    !! l = Some r).
        { intros l r Hl. rewrite !lookup_insert_ne by congruence.
          exact Hl. }
        unfold batch_counters in Hk. injection Hk as H1 H2 H3.
        destruct (0 <? n)%nat;
          cbn [fst snd Processor.heap Processor.self_stats Processor.files
               is_some].
        -- split; [exact Hframe|]. split.
           ++ unfold batch_counters. cbn. rewrite H1, H2, H3.
              f_equal; [f_equal|]; lia.
           ++ eexists. split; [reflexivity|]. split; reflexivity.
        -- split; [exact Hframe|]. split.
           ++ unfold batch_counters. rewrite H1, H2, H3.
              f_equal; [f_equal|]; lia.
           ++ exists []. rewrite app_nil_r. split; [reflexivity|]. split; [reflexivity|]. intros Hf; try discriminate Hf; reflexivity.
      * unfold Processor.process_qa_report. rewrite Hrid, Hfetch.
        cbn [negb Processor.ret fst snd is_some]. apply Hsame.
    + unfold Processor.process_qa_report. rewrite Hrid.
      cbn [negb Processor.ret fst snd is_some]. apply Hsame.
  - cbn. split; [auto|]. split.
    + unfold batch_counters. cbn. f_equal; [f_equal|]; lia.
    + exists []. rewrite app_nil_r. split; [reflexivity|]. split; [reflexivity|]. intros Hf; try discriminate Hf; reflexivity.
Qed.

Lemma process_report_files_cons (report_path : string)
    (parsed : option qa_report)
    (rest : list (string * option qa_report)) (w : Processor.world) :
  Processor.process_report_files lower invenio_url output_dir curl_json
    now_iso ((report_path, parsed) :: rest) w
  = let '(res, w2) :=
      process report_path parsed
        (Processor.mk_world (Processor.heap w)
           (Processor.incr_records_processed (Processor.self_stats w))
           (Processor.files w)) in
    let '(n, w3) :=
      Processor.process_report_files lower invenio_url output_dir curl_json
        now_iso rest w2 in
    (match res with Some _ => S n | None => n end, w3).
Proof.
  subst process. cbn [Processor.process_report_files].
  unfold Processor.bind at 1. unfold Processor.update_stats at 1.
  unfold Processor.bind at 1.
  destruct (Processor.process_qa_report _ _ _ _ _ _ _ _) as [res w2].
  unfold Processor.bind at 1.
  destruct (Processor.process_report_files _ _ _ _ _ _ _) as [n w3].
  reflexivity.
Qed.

Lemma process_report_files_effect
    (report_files : list (string * option qa_report)) (w : Processor.world) :
  let n := fst (Processor.process_report_files lower invenio_url output_dir
                  curl_json now_iso report_files w) in
  let w' := snd (Processor.process_report_files lower invenio_url output_dir
                   curl_json now_iso report_files w) in
  (forall l r, Processor.heap w !! l = Some r ->
               Processor.heap w' !! l = Some r)
  /\ batch_counters (Processor.self_stats w')
     = (Processor.records_processed (Processor.self_stats w)
        + length report_files,
        Processor.records_corrected (Processor.self_stats w) + n,
        Processor.errors (Processor.self_stats w)
        + length (filter (fun f => is_unparsable f = true) report_files))
  /\ (exists new, Processor.files w' = Processor.files w ++ new
                  /\ length new = n)
  /\ n + length (filter (fun f => is_unparsable f = true) report_files)
     <= length report_files.
Proof.
  revert w. induction report_files as [|[report_path parsed] rest IH];
    intros w; cbv zeta.
  - cbn. split; [auto|]. split.
    + unfold batch_counters. f_equal; [f_equal|]; lia.
    + split; [|lia]. exists []. now rewrite app_nil_r.
  - rewrite process_report_files_cons.
    set (w1 := Processor.mk_world (Processor.heap w)
                 (Processor.incr_records_processed (Processor.self_stats w))
                 (Processor.files w)).
    pose proof (process_qa_report_effect report_path parsed w1) as Hone.
    cbv zeta in Hone. unfold process in *.
    destruct (Processor.process_qa_report lower invenio_url output_dir
                curl_json now_iso report_path parsed w1) as [res w2].
    cbn [fst snd] in Hone. destruct Hone as (Hh1 & Hc1 & new1 & Hf1 & Hl1 & Hp1).
    specialize (IH w2). cbv zeta in IH.
    destruct (Processor.process_report_files lower invenio_url output_dir
                curl_json now_iso rest w2) as [n w3].
    cbn [fst snd] in IH. destruct IH as (Hh2 & Hc2 & (new2 & Hf2 & Hl2) & Hle).
    cbn [Processor.ret fst snd].
    unfold batch_counters in Hc1, Hc2.
    injection Hc1 as P1 C1 E1. injection Hc2 as P2 C2 E2.
    subst w1. cbn [Processor.heap Processor.self_stats Processor.files
                   Processor.incr_records_processed
                   Processor.records_processed Processor.records_corrected
                   Processor.errors] in *.
    assert (Hfilter :
              length (filter (fun f => is_unparsable f = true)
                        ((report_path, parsed) :: rest))
              = (if is_some parsed then 0 else 1)
                + length (filter (fun f => is_unparsable f = true) rest)).
    { destruct parsed; reflexivity. }
    rewrite Hfilter. cbn [length].
    split; [auto|]. split.
    + unfold batch_counters. rewrite P2, C2, E2, P1, C1, E1.
      destruct res, parsed; cbn [is_some]; (f_equal; [f_equal|]); lia.
    + split.
      * exists (new1 ++ new2). rewrite Hf2, Hf1, <- app_assoc.
        split; [reflexivity|]. rewrite length_app, Hl1, Hl2.
        destruct res; cbn [is_some]; lia.
      * destruct res, parsed; cbn [is_some] in *; try lia;
          specialize (Hp1 eq_refl); discriminate.
Qed.

End ProcessorBatch.

(** A batch of [process_qa_reports] counts every report file as
    processed, returns the number of records it corrected, which is also the
    growth of [records_corrected] and the number of corrected documents
    written, counts one error per file that is no JSON, and leaves every
    object that was in the store untouched.  The statistics file holds the
    final statistics and the paths of all the files, in order. *)
Theorem process_qa_reports_statistics (lower : string -> string)
    (invenio_url output_dir : string) (curl_json : string -> record)
    (now_iso : string) (report_files : list (string * option qa_report))
    (w : Processor.world) :
  let out := Processor.process_qa_reports lower invenio_url output_dir
               curl_json now_iso report_files w in
  let corrections_applied := fst (fst out) in
  let stats_file := snd (fst out) in
  let w' := snd out in
  let unparsable :=
    length (filter (fun f => is_unparsable f = true) report_files) in
  batch_counters (Processor.self_stats w')
  = (Processor.records_processed (Processor.self_stats w)
     + length report_files,
     Processor.records_corrected (Processor.self_stats w)
     + corrections_applied,
     Processor.errors (Processor.self_stats w) + unparsable)
  /\ corrections_applied + unparsable <= length report_files
  /\ (exists new, Processor.files w' = Processor.files w ++ new
                  /\ length new = corrections_applied)
  /\ Processor.statistics stats_file = Processor.self_stats w'
  /\ Processor.processed_files stats_file = map fst report_files
  /\ Processor.processing_date stats_file = now_iso
  /\ (forall l r, Processor.heap w !! l = Some r ->
                  Processor.heap w' !! l = Some r).
Proof.
  cbv zeta. unfold Processor.process_qa_reports, Processor.bind.
  pose proof (process_report_files_effect lower invenio_url output_dir
                curl_json now_iso report_files w) as H.
  cbv zeta in H.
  destruct (Processor.process_report_files lower invenio_url output_dir
              curl_json now_iso report_files w) as [n w'].
  cbn [fst snd Processor.statistics Processor.processed_files
       Processor.processing_date] in *.
  destruct H as (Hh & Hc & Hf & Hle).
  repeat split; assumption.
Qed.

(** ** Descriptor deletions, composed *)

Lemma kept_app lower (A B : list string) (d : string) :
  kept lower (A ++ B) d = kept lower A d && kept lower B d.
Proof.
  unfold kept. rewrite map_app, <- negb_orb. f_equal.
  apply eq_true_iff_eq. rewrite orb_true_iff, !str_in_In, in_app_iff.
  reflexivity.
Qed.

Lemma filter_kept_app lower (A B : list string) (l : list string) :
  List.filter (kept lower B) (List.filter (kept lower A) l)
  = List.filter (kept lower (A ++ B)) l.
Proof.
  induction l as [|d l IH]; [reflexivity|].
  cbn [List.filter]. rewrite kept_app.
  destruct (kept lower A d); cbn [List.filter andb]; [|exact IH].
  destruct (kept lower B d); now rewrite IH.
Qed.

Lemma filter_kept_comm lower (A B : list string) (l : list string) :
  List.filter (kept lower B) (List.filter (kept lower A) l)
  = List.filter (kept lower A) (List.filter (kept lower B) l).
Proof.
  induction l as [|d l IH]; [reflexivity|].
  cbn [List.filter].
  destruct (kept lower A d) eqn:EA, (kept lower B d) eqn:EB;
    cbn [List.filter]; rewrite ?EA, ?EB, IH; reflexivity.
Qed.

Lemma apply_descriptor_deletions_listed lower rid md qa lid
    (l dels : list string) :
  Processor.apply_descriptor_deletions lower
    (mk_record rid md (Some (mk_custom_fields qa (Some l) lid))) dels
  = (mk_record rid md
       (Some (mk_custom_fields qa (Some (List.filter (kept lower dels) l))
                lid)),
     (length (List.filter (kept lower dels) l) <? length l)%nat).
Proof.
  unfold Processor.apply_descriptor_deletions.
  destruct l as [|d ds]; [reflexivity|].
  cbn [rec_custom_fields cf_descriptors_cai_text].
  unfold set_rec_custom_fields, set_cf_descriptors. cbn [rec_id rec_metadata
    cf_qa_checked cf_lead_record_id]. fold (kept lower dels).
  pose proof (filter_length_le (kept lower dels) (d :: ds)) as Hle.
  f_equal. apply eq_true_iff_eq. rewrite !Nat.ltb_lt. lia.
Qed.

(** Descriptor deletions compose: deleting the list [A] and then the
    list [B] leaves the same record as deleting [A ++ B] in one call, and as
    deleting [B] first and [A] second; the one call reports a change iff one
    of the two calls does.  An empty deletion list changes nothing and
    returns false.  A deletion touches nothing but the descriptor list: the
    id, the metadata, the QA marker and the lead record id stay. *)
Theorem descriptor_deletions_compose (lower : string -> string) (r : record)
    (A B : list string) :
  let del := Processor.apply_descriptor_deletions lower in
  fst (del (fst (del r A)) B) = fst (del r (A ++ B))
  /\ fst (del (fst (del r A)) B) = fst (del (fst (del r B)) A)
  /\ snd (del r (A ++ B)) = snd (del r A) || snd (del (fst (del r A)) B)
  /\ del r [] = (r, false)
  /\ rec_id (fst (del r A)) = rec_id r
  /\ rec_metadata (fst (del r A)) = rec_metadata r
  /\ qa_checked_of (fst (del r A)) = qa_checked_of r
  /\ rec_custom_fields (fst (del r A)) ≫= cf_lead_record_id
     = rec_custom_fields r ≫= cf_lead_record_id.
Proof.
  cbv zeta.
  destruct r as [rid md [[qa [l|] lid]|]]; try (repeat split; reflexivity).
  rewrite !apply_descriptor_deletions_listed. cbn [fst snd].
  rewrite !apply_descriptor_deletions_listed. cbn [fst snd].
  rewrite (filter_kept_comm lower B A), !filter_kept_app.
  assert (Hnil : List.filter (kept lower []) l = l).
  { apply forallb_filter_id. now apply forallb_forall. }
  rewrite Hnil, Nat.ltb_irrefl.
  pose proof (filter_length_le (kept lower A) l) as HleA.
  pose proof (filter_length_le (kept lower B)
                (List.filter (kept lower A) l)) as HleB.
  rewrite filter_kept_app in HleB.
  repeat split.
  apply eq_true_iff_eq. rewrite orb_true_iff, !Nat.ltb_lt. lia.
Qed.

(** ** The loop over related identifiers *)

Lemma append_new_spec (ids rel : list related_identifier) :
  let ident := fun ri : related_identifier => get_str (ri_identifier ri) in
  exists added,
    append_new ids rel = rel ++ added
    /\ sublist added ids
    /\ (forall i, In i added ->
          ident i <> "" /\ ~ In (ident i) (map ident rel))
    /\ (List.NoDup (map ident rel) -> List.NoDup (map ident (rel ++ added)))
    /\ (forall i, In i ids -> ident i <> "" ->
          In (ident i) (map ident (rel ++ added))).
Proof.
  intros ident. revert rel.
  induction ids as [|i ids IH]; intros rel.
  - exists []. rewrite app_nil_r. cbn [append_new].
    split; [reflexivity|]. split; [constructor|].
    split; [intros i []|]. split; [auto|]. intros i [].
  - cbn [append_new]. change (get_str (ri_identifier i)) with (ident i).
    change (fun ri : related_identifier => get_str (ri_identifier ri))
      with ident.
    destruct (str_truthy (ident i)) eqn:Et;
      [destruct (str_in (ident i) (map ident rel)) eqn:Ei|];
      cbn [negb andb].
    + (* already present *)
      destruct (IH rel) as (added & E & Hs & Hnew & Hnd & Hall).
      exists added. split; [exact E|]. split; [now apply sublist_cons|].
      split; [exact Hnew|]. split; [exact Hnd|].
      intros j [<- | Hj] Hne; [|now apply Hall].
      apply str_in_In in Ei. rewrite map_app, in_app_iff. now left.
    + (* appended *)
      apply not_true_iff_false in Ei. rewrite str_in_In in Ei.
      apply str_truthy_true in Et.
      destruct (IH (rel ++ [i])) as (added & E & Hs & Hnew & Hnd & Hall).
      exists (i :: added). rewrite E, <- app_assoc. cbn [app].
      split; [reflexivity|]. split; [now apply sublist_skip|].
      replace (rel ++ i :: added) with ((rel ++ [i]) ++ added)
        by now rewrite <- app_assoc.
      split; [|split].
      * intros j [<- | Hj]; [now split|].
        destruct (Hnew j Hj) as [H1 H2]. split; [exact H1|].
        intros Hin. apply H2. rewrite map_app, in_app_iff. now left.
      * intros Hrel. apply Hnd. rewrite map_app. cbn [map].
        apply NoDup_ListNoDup, NoDup_app. repeat split.
        -- now apply NoDup_ListNoDup.
        -- intros x Hx Hx'. apply list_elem_of_singleton in Hx'. subst x.
           apply Ei. now apply list_elem_of_In.
        -- apply NoDup_singleton.
      * intros j [<- | Hj] Hne; [|now apply Hall].
        rewrite !map_app, !in_app_iff. cbn. auto.
    + (* empty identifier string *)
      apply str_truthy_false in Et.
      destruct (IH rel) as (added & E & Hs & Hnew & Hnd & Hall).
      exists added. split; [exact E|]. split; [now apply sublist_cons|].
      split; [exact Hnew|]. split; [exact Hnd|].
      intros j [<- | Hj] Hne; [contradiction | now apply Hall].
Qed.

Lemma append_new_twice (ids rel : list related_identifier) :
  (forall i, In i ids -> get_str (ri_identifier i) <> "" ->
     In (get_str (ri_identifier i))
        (map (fun ri => get_str (ri_identifier ri)) rel)) ->
  append_new ids rel = rel.
Proof.
  induction ids as [|i ids IH]; intros Hall; [reflexivity|].
  cbn [append_new].
  destruct (str_truthy (get_str (ri_identifier i))) eqn:Et; cbn [andb].
  - apply str_truthy_true in Et.
    assert (Hin : str_in (get_str (ri_identifier i))
                    (map (fun ri => get_str (ri_identifier ri)) rel) = true).
    { apply str_in_In, Hall; [now left | exact Et]. }
    rewrite Hin. cbn [negb]. apply IH. intros j Hj. apply Hall. now right.
  - apply IH. intros j Hj. apply Hall. now right.
Qed.

(** On a record with a metadata section, the loop that adds a list of
    related identifiers keeps the identifiers the record had, in order, and
    appends after them a subsequence of the list; the number it returns is
    the number appended.  Every appended object has a non-empty identifier
    string that the record did not have; identifier strings that were
    pairwise distinct stay so; afterwards every non-empty identifier string
    of the list is present; and running the same list again appends nothing
    and returns 0. *)
Theorem related_identifiers_loop (r : record)
    (ids : list related_identifier) :
  has_metadata r = true ->
  let res := Processor.add_related_identifiers r ids in
  let again := Processor.add_related_identifiers (fst res) ids in
  (exists added,
     related_identifiers_of (fst res) = related_identifiers_of r ++ added
     /\ snd res = length added
     /\ sublist added ids
     /\ forall i, In i added ->
          get_str (ri_identifier i) <> ""
          /\ ~ In (get_str (ri_identifier i)) (existing_identifiers r))
  /\ (List.NoDup (existing_identifiers r) ->
      List.NoDup (existing_identifiers (fst res)))
  /\ (forall i, In i ids -> get_str (ri_identifier i) <> "" ->
        In (get_str (ri_identifier i)) (existing_identifiers (fst res)))
  /\ related_identifiers_of (fst again) = related_identifiers_of (fst res)
  /\ snd again = 0.
Proof.
  intros Hmd res again.
  destruct (add_related_identifiers_view r ids) as [Hv Hc].
  destruct (add_related_identifiers_view (fst res) ids) as [Hv2 Hc2].
  fold res in Hv, Hc. fold again in Hv2, Hc2.
  apply (f_equal v_related) in Hv as Hrel.
  apply (f_equal v_has_metadata) in Hv as Hmd'.
  apply (f_equal v_related) in Hv2 as Hrel2.
  unfold add_count in Hc, Hc2.
  cbn [view_of add_view v_related v_has_metadata] in Hrel, Hmd', Hrel2, Hc,
    Hc2.
  rewrite Hmd in *. rewrite Hmd' in *.
  destruct (append_new_spec ids (related_identifiers_of r))
    as (added & E & Hs & Hnew & Hnd & Hall).
  cbv zeta in Hnew, Hnd, Hall.
  rewrite E in Hrel.
  assert (Htwice : append_new ids (related_identifiers_of (fst res))
                   = related_identifiers_of (fst res)).
  { apply append_new_twice. rewrite Hrel. exact Hall. }
  rewrite Htwice in Hrel2, Hc2.
  unfold existing_identifiers. rewrite Hrel.
  split; [|split; [exact Hnd | split; [exact Hall | split]]].
  - exists added. split; [reflexivity|]. split; [|split; assumption].
    rewrite Hc, E, length_app. lia.
  - rewrite Hrel2. exact Hrel.
  - rewrite Hc2. lia.
Qed.

Lemma related_identifiers_loop_witness :
  has_metadata (record_with_related [doi_x]) = true
  /\ snd (Processor.add_related_identifiers
            (fst (Processor.add_related_identifiers
                    (record_with_related [doi_x]) [doi_x; doi_y]))
            [doi_x; doi_y]) = 0.
Proof.
  split; [reflexivity|].
  apply (related_identifiers_loop (record_with_related [doi_x])
           [doi_x; doi_y]).
  reflexivity.
Defined.

(** ** The statistics of the applier *)

Lemma applier_counts_refl st : applier_counts st st 0 0.
Proof. unfold applier_counts. lia. Qed.

Lemma applier_counts_trans st1 st2 st3 a1 u1 a2 u2 :
  applier_counts st1 st2 a1 u1 -> applier_counts st2 st3 a2 u2 ->
  applier_counts st1 st3 (a1 + a2) (u1 + u2).
Proof. unfold applier_counts. lia. Qed.

Section ApplierStatistics.

Variable base_url : string.
Variable dry_run : bool.
Variable respond : list Applier.request -> Applier.request -> record.

Lemma correct_draft_counts q d st :
  let st' := snd (fst (Applier.correct_draft q d st)) in
  Applier.records_processed st' = Applier.records_processed st
  /\ Applier.records_updated st' = Applier.records_updated st
  /\ Applier.records_qa_checked_only st'
     = Applier.records_qa_checked_only st
  /\ Applier.errors st' = Applier.errors st
  /\ Applier.title_corrections st <= Applier.title_corrections st'
     <= Applier.title_corrections st + 1
  /\ Applier.affiliation_corrections_n st
     <= Applier.affiliation_corrections_n st'
     <= Applier.affiliation_corrections_n st + 1
  /\ Applier.organizational_author_corrections_n st
     <= Applier.organizational_author_corrections_n st'
     <= Applier.organizational_author_corrections_n st + 1.
Proof.
  unfold Applier.correct_draft.
  destruct (c_title (get_corrections q)) as [t|];
    cbn [Applier.apply_title_correction];
    destruct (get_list (affiliation_corrections q)) as [|a affs];
    destruct (get_list (organizational_author_corrections q)) as [|o orgs];
    repeat match goal with
    | |- context [Applier.apply_affiliation_corrections ?x ?y] =>
        destruct (Applier.apply_affiliation_corrections x y) as [? []]
    | |- context [Applier.apply_organizational_author_corrections ?x ?y] =>
        destruct (Applier.apply_organizational_author_corrections x y)
          as [? []]
    end; cbn; lia.
Qed.

Lemma apply_or_log_counts rid d on_success s :
  Applier.self_stats
    (snd (Applier.apply_or_log base_url dry_run respond rid d on_success s))
  = on_success (Applier.self_stats s)
  \/ Applier.self_stats
       (snd (Applier.apply_or_log base_url dry_run respond rid d on_success
               s))
     = Applier.incr_errors (Applier.self_stats s).
Proof.
  unfold Applier.apply_or_log, Applier.bind, Applier.update_stats,
    Applier.curl_post, Applier.curl_put, Applier.ret.
  destruct dry_run; cbn [negb]; [now left|].
  cbn [Applier.self_stats Applier.sent].
  destruct (_ && _); cbn; auto.
Qed.

Lemma update_record_counts rid q s :
  applier_counts (Applier.self_stats s)
    (Applier.self_stats
       (snd (Applier.update_record base_url dry_run respond rid q s))) 1 0.
Proof.
  unfold Applier.update_record.
  unfold Applier.bind at 1. cbn [Applier.update_stats].
  unfold Applier.bind at 1. unfold Applier.curl_post at 1.
  cbn [Applier.sent Applier.self_stats].
  destruct (Applier.has_id (respond (Applier.sent s) _)); cbn [negb];
    [|unfold applier_counts; cbn; lia].
  unfold Applier.bind at 1. unfold Applier.curl_get at 1.
  cbn [Applier.sent Applier.self_stats].
  destruct (is_empty_dict _); [unfold applier_counts; cbn; lia|].
  cbn [Applier.sent Applier.self_stats].
  match goal with
  | |- context [Applier.correct_draft ?a ?b ?c] =>
      pose proof (correct_draft_counts a b c) as Hc;
      destruct (Applier.correct_draft a b c) as [[d st'] n]
  end.
  cbv zeta in Hc. cbn [fst snd] in Hc.
  match goal with
  | |- context [Applier.apply_or_log ?a ?b ?c ?e ?f ?g ?h] =>
      destruct (apply_or_log_counts e f g h) as [E | E]
  end; rewrite E; cbn [Applier.self_stats]; unfold applier_counts;
    cbn in *; lia.
Qed.

Lemma mark_only_counts rid s :
  applier_counts (Applier.self_stats s)
    (Applier.self_stats
       (snd (Applier.mark_record_as_qa_checked_only base_url dry_run respond
               rid s))) 1 0.
Proof.
  unfold Applier.mark_record_as_qa_checked_only.
  unfold Applier.bind at 1. cbn [Applier.update_stats].
  unfold Applier.bind at 1. unfold Applier.curl_post at 1.
  cbn [Applier.sent Applier.self_stats].
  destruct (Applier.has_id (respond (Applier.sent s) _)); cbn [negb];
    [|unfold applier_counts; cbn; lia].
  unfold Applier.bind at 1. unfold Applier.curl_get at 1.
  cbn [Applier.sent Applier.self_stats].
  destruct (is_empty_dict _); [unfold applier_counts; cbn; lia|].
  match goal with
  | |- context [Applier.apply_or_log ?a ?b ?c ?e ?f ?g ?h] =>
      destruct (apply_or_log_counts e f g h) as [E | E]
  end; rewrite E; cbn [Applier.self_stats]; unfold applier_counts;
    cbn in *; lia.
Qed.

Lemma process_report_file_counts f s :
  applier_counts (Applier.self_stats s)
    (Applier.self_stats
       (snd (Applier.process_report_file base_url dry_run respond f s)))
    (if is_addressed f then 1 else 0) (if is_some f then 0 else 1).
Proof.
  unfold Applier.process_report_file, is_addressed.
  destruct f as [q|]; cbn [is_some].
  - destruct (str_truthy (get_str (record_id q))); cbn [negb].
    + destruct (Applier.has_applicable_corrections q); unfold Applier.bind.
      * pose proof (update_record_counts (get_str (record_id q)) q s) as H.
        destruct (Applier.update_record _ _ _ _ _ s) as [b s']. exact H.
      * pose proof (mark_only_counts (get_str (record_id q)) s) as H.
        destruct (Applier.mark_record_as_qa_checked_only _ _ _ _ s)
          as [b s']. exact H.
    + apply applier_counts_refl.
  - unfold applier_counts. cbn. lia.
Qed.

Lemma process_report_files_counts files s :
  applier_counts (Applier.self_stats s)
    (Applier.self_stats
       (snd (Applier.process_report_files base_url dry_run respond files s)))
    (length (List.filter is_addressed files))
    (length (List.filter (fun f => negb (is_some f)) files)).
Proof.
  revert s. induction files as [|f files IH]; intros s.
  - apply applier_counts_refl.
  - cbn [Applier.process_report_files]. unfold Applier.bind.
    pose proof (process_report_file_counts f s) as H1.
    destruct (Applier.process_report_file _ _ _ f s) as [u s1].
    specialize (IH s1). cbn [snd] in H1.
    pose proof (applier_counts_trans _ _ _ _ _ _ _ H1 IH) as H.
    cbn [List.filter].
    destruct (is_addressed f), (is_some f); cbn [negb length] in *;
      exact H.
Qed.

End ApplierStatistics.

(** After [process_qa_folder] on a folder of report files,
    [records_processed] has grown by the number of files that are valid JSON
    with a non-empty record id: each of them is one call on a record.  Each
    such call and each file that is no JSON adds exactly one to either
    [records_updated] or [errors], so together these two grow by the number
    of such files; no counter ever decreases;
    [records_qa_checked_only] grows by no more than [records_updated]; and
    [title_corrections], [affiliation_corrections] and
    [organizational_author_corrections] each grow by at most one per call
    on a record.  All of this holds in a dry run as well. *)
Theorem applier_folder_statistics (base_url : string) (dry_run : bool)
    (respond : list Applier.request -> Applier.request -> record)
    (files : list (option qa_report)) (s : Applier.state) :
  let st := Applier.self_stats s in
  let st' := Applier.self_stats
               (snd (Applier.process_qa_folder base_url dry_run respond
                       (Some files) s)) in
  let addressed := length (List.filter is_addressed files) in
  let unparsable := length (List.filter (fun f => negb (is_some f)) files) in
  Applier.records_processed st' = Applier.records_processed st + addressed
  /\ Applier.records_updated st' + Applier.errors st'
     = Applier.records_updated st + Applier.errors st
       + addressed + unparsable
  /\ Applier.records_updated st <= Applier.records_updated st'
  /\ Applier.errors st <= Applier.errors st'
  /\ Applier.records_qa_checked_only st
     <= Applier.records_qa_checked_only st'
  /\ Applier.records_qa_checked_only st' + Applier.records_updated st
     <= Applier.records_qa_checked_only st + Applier.records_updated st'
  /\ Applier.title_corrections st <= Applier.title_corrections st'
     <= Applier.title_corrections st + addressed
  /\ Applier.affiliation_corrections_n st
     <= Applier.affiliation_corrections_n st'
     <= Applier.affiliation_corrections_n st + addressed
  /\ Applier.organizational_author_corrections_n st
     <= Applier.organizational_author_corrections_n st'
     <= Applier.organizational_author_corrections_n st + addressed.
Proof.
  cbv zeta.
  pose proof (process_report_files_counts base_url dry_run respond files s)
    as H.
  unfold Applier.process_qa_folder.
  destruct files as [|f files]; [cbn; lia|].
  unfold Applier.bind.
  destruct (Applier.process_report_files _ _ _ (f :: files) s) as [u s'].
  exact H.
Qed.

(** ** The counters and the flagged records of the summary *)

Section AggregatorTotals.

Variable str_of_identifiers : identifiers_arg -> string.

Let scan := Aggregator.scan_file str_of_identifiers.

Lemma flagged_ids_cons_true p x l :
  p (snd x) = true ->
  flagged_ids p (x :: l) = {[fst x]} ∪ flagged_ids p l.
Proof.
  intros H. unfold flagged_ids. cbn [List.filter]. rewrite H. reflexivity.
Qed.

Lemma flagged_ids_cons_false p x l :
  p (snd x) = false -> flagged_ids p (x :: l) = flagged_ids p l.
Proof.
  intros H. unfold flagged_ids. cbn [List.filter]. now rewrite H.
Qed.

Lemma add_if_flagged p k d (s : gset string) l :
  Aggregator.add_if (p d) k s ∪ flagged_ids p l
  = s ∪ flagged_ids p ((k, d) :: l).
Proof.
  unfold Aggregator.add_if. destruct (p d) eqn:E.
  - rewrite (flagged_ids_cons_true p (k, d) l E). cbn [fst].
    now rewrite (comm_L (∪) {[k]} s), <- (assoc_L (∪)).
  - now rewrite (flagged_ids_cons_false p (k, d) l E).
Qed.

Lemma bump_count p k d n l :
  Aggregator.bump (p d) n + count_reports p l
  = n + count_reports p ((k, d) :: l).
Proof.
  unfold Aggregator.bump, count_reports. cbn [List.filter snd].
  destruct (p d); cbn [length]; lia.
Qed.

Lemma list_sum_head (n : nat) (l : list nat) :
  list_sum (n :: l) = n + list_sum l.
Proof. reflexivity. Qed.

Lemma scan_all_totals files acc :
  let result := fold_left scan files acc in
  let reports := parsed_reports files in
  let s := Aggregator.summary_of acc in
  let s' := Aggregator.summary_of result in
  Aggregator.title_corrections s'
  = Aggregator.title_corrections s
    + count_reports (fun d => flag_truthy (title_corrected d)) reports
  /\ Aggregator.abstract_corrections s'
     = Aggregator.abstract_corrections s
       + count_reports (fun d => flag_truthy (abstract_corrected d)) reports
  /\ Aggregator.descriptor_corrections s'
     = Aggregator.descriptor_corrections s
       + count_reports (fun d => flag_truthy (descriptor_corrected d))
           reports
  /\ Aggregator.date_corrections s'
     = Aggregator.date_corrections s
       + count_reports (fun d => flag_truthy (date_corrected d)) reports
  /\ Aggregator.affiliation_corrections_n s'
     = Aggregator.affiliation_corrections_n s
       + sum_reports counted_affiliations reports
  /\ Aggregator.organizational_author_corrections_n s'
     = Aggregator.organizational_author_corrections_n s
       + sum_reports counted_organizations reports
  /\ Aggregator.duplicates result
     = Aggregator.duplicates acc ∪ flagged_ids is_duplicate reports
  /\ Aggregator.out_of_scope result
     = Aggregator.out_of_scope acc ∪ flagged_ids is_out_of_scope reports
  /\ Aggregator.suspicious_content_ids result
     = Aggregator.suspicious_content_ids acc
       ∪ flagged_ids (fun d => flag_truthy (suspicious_content d)) reports
  /\ Aggregator.historical_context result
     = Aggregator.historical_context acc
       ∪ flagged_ids (fun d => flag_truthy (historical_context_required d))
           reports.
Proof.
  cbv zeta. revert acc. induction files as [|f files IH]; intros acc.
  - cbn. unfold count_reports, sum_reports, flagged_ids. cbn.
    rewrite !Nat.add_0_r, !(right_id_L ∅ (∪)). repeat split; reflexivity.
  - cbn [fold_left parsed_reports flat_map].
    specialize (IH (scan acc f)).
    destruct IH as (H1 & H2 & H3 & H4 & H5 & H6 & H7 & H8 & H9 & H10).
    fold (parsed_reports files).
    rewrite H1, H2, H3, H4, H5, H6, H7, H8, H9, H10.
    unfold scan, Aggregator.scan_file.
    destruct (Aggregator.content f) as [e|e|data]; cbn [app];
      try (repeat split; reflexivity).
    set (k := default (Aggregator.stem_id f) (record_id data)).
    unfold Aggregator.aggregate_report.
    cbn [Aggregator.summary_of Aggregator.title_corrections
         Aggregator.abstract_corrections Aggregator.descriptor_corrections
         Aggregator.date_corrections Aggregator.affiliation_corrections_n
         Aggregator.organizational_author_corrections_n
         Aggregator.duplicates Aggregator.out_of_scope
         Aggregator.suspicious_content_ids Aggregator.historical_context].
    rewrite (bump_count (fun d => flag_truthy (title_corrected d)) k data).
    rewrite (bump_count (fun d => flag_truthy (abstract_corrected d)) k data).
    rewrite (bump_count (fun d => flag_truthy (descriptor_corrected d)) k
               data).
    rewrite (bump_count (fun d => flag_truthy (date_corrected d)) k data).
    rewrite (add_if_flagged is_duplicate k data).
    rewrite (add_if_flagged is_out_of_scope k data).
    rewrite (add_if_flagged (fun d => flag_truthy (suspicious_content d)) k
               data).
    rewrite (add_if_flagged
               (fun d => flag_truthy (historical_context_required d)) k
               data).
    repeat split; try reflexivity.
    + unfold sum_reports, counted_affiliations. cbn [map snd].
      rewrite list_sum_head.
      destruct (flag_truthy (affiliation_correction_recommended data)); lia.
    + unfold sum_reports, counted_organizations. cbn [map snd].
      rewrite list_sum_head.
      lia.
Qed.

End AggregatorTotals.

Lemma flagged_ids_spec p (l : list (string * qa_report)) (r : string) :
  r ∈ flagged_ids p l <-> exists d, In (r, d) l /\ p d = true.
Proof.
  unfold flagged_ids. rewrite elem_of_list_to_set, list_elem_of_In.
  rewrite in_map_iff. split.
  - intros ([k d] & <- & H). apply filter_In in H. exists d. exact H.
  - intros (d & H1 & H2). exists (r, d). split; [reflexivity|].
    apply filter_In. auto.
Qed.

(** In the summary of a folder, [title_corrections],
    [abstract_corrections], [descriptor_corrections] and [date_corrections]
    count the parsed reports whose flag is set, whether or not the report
    holds a correction; [affiliation_corrections] is the total number of
    affiliation corrections in the reports that set
    [affiliation_correction_recommended], and
    [organizational_author_corrections] the total number of organizational
    author corrections in all parsed reports.  A record id is listed as
    duplicate, out of scope, suspicious or needing historical context iff
    some parsed report filed under that id says so; a report without
    [scope_ok] is in scope. *)
Theorem summary_counts_and_flags
    (str_of_identifiers : identifiers_arg -> string)
    (files : list Aggregator.report_file) :
  let result := Aggregator.create_summary_report str_of_identifiers files in
  let reports := parsed_reports files in
  let s := Aggregator.summary_of result in
  Aggregator.title_corrections s
  = count_reports (fun d => flag_truthy (title_corrected d)) reports
  /\ Aggregator.abstract_corrections s
     = count_reports (fun d => flag_truthy (abstract_corrected d)) reports
  /\ Aggregator.descriptor_corrections s
     = count_reports (fun d => flag_truthy (descriptor_corrected d)) reports
  /\ Aggregator.date_corrections s
     = count_reports (fun d => flag_truthy (date_corrected d)) reports
  /\ Aggregator.affiliation_corrections_n s
     = sum_reports counted_affiliations reports
  /\ Aggregator.organizational_author_corrections_n s
     = sum_reports counted_organizations reports
  /\ (forall r, r ∈ Aggregator.duplicates result <->
        exists d, In (r, d) reports
                  /\ (duplicate_by_title d = Some true
                      \/ duplicate_by_doi d = Some true))
  /\ (forall r, r ∈ Aggregator.out_of_scope result <->
        exists d, In (r, d) reports /\ scope_ok d = Some false)
  /\ (forall r, r ∈ Aggregator.suspicious_content_ids result <->
        exists d, In (r, d) reports /\ suspicious_content d = Some true)
  /\ (forall r, r ∈ Aggregator.historical_context result <->
        exists d, In (r, d) reports
                  /\ historical_context_required d = Some true).
Proof.
  cbv zeta. unfold Aggregator.create_summary_report.
  destruct (scan_all_totals str_of_identifiers files
              Aggregator.initial_report_data)
    as (H1 & H2 & H3 & H4 & H5 & H6 & H7 & H8 & H9 & H10).
  rewrite H1, H2, H3, H4, H5, H6, H7, H8, H9, H10. cbn.
  rewrite !(left_id_L ∅ (∪)).
  repeat split; try (intros (d & Hin & Hd)); try intros Hr.
  - apply flagged_ids_spec in Hr. destruct Hr as (d & Hin & Hd).
    exists d. split; [exact Hin|]. unfold is_duplicate in Hd.
    apply orb_true_iff in Hd.
    destruct (duplicate_by_title d) as [[]|], (duplicate_by_doi d) as [[]|];
      cbn in Hd; intuition discriminate.
  - apply flagged_ids_spec. exists d. split; [exact Hin|].
    unfold is_duplicate. destruct Hd as [-> | ->]; cbn;
      [reflexivity | apply orb_true_r].
  - apply flagged_ids_spec in Hr. destruct Hr as (d & Hin & Hd).
    exists d. split; [exact Hin|]. unfold is_out_of_scope in Hd.
    destruct (scope_ok d) as [[]|]; cbn in Hd; congruence.
  - apply flagged_ids_spec. exists d. split; [exact Hin|].
    unfold is_out_of_scope. now rewrite Hd.
  - apply flagged_ids_spec in Hr. destruct Hr as (d & Hin & Hd).
    exists d. split; [exact Hin|].
    destruct (suspicious_content d) as [[]|]; cbn in Hd; congruence.
  - apply flagged_ids_spec. exists d. split; [exact Hin|]. now rewrite Hd.
  - apply flagged_ids_spec in Hr. destruct Hr as (d & Hin & Hd).
    exists d. split; [exact Hin|].
    destruct (historical_context_required d) as [[]|]; cbn in Hd;
      congruence.
  - apply flagged_ids_spec. exists d. split; [exact Hin|]. now rewrite Hd.
Qed.

(** ** The summary does not depend on the order of the files *)

Lemma count_reports_perm p (l l' : list (string * qa_report)) :
  Permutation l l' -> count_reports p l = count_reports p l'.
Proof.
  unfold count_reports.
  induction 1 as [|x l l' _ IH|x y l|l l' l'' _ IH1 _ IH2];
    cbn [List.filter]; try reflexivity.
  - destruct (p (snd x)); cbn [length]; now rewrite IH.
  - destruct (p (snd x)), (p (snd y)); reflexivity.
  - congruence.
Qed.

Lemma sum_reports_perm weight (l l' : list (string * qa_report)) :
  Permutation l l' -> sum_reports weight l = sum_reports weight l'.
Proof.
  unfold sum_reports.
  induction 1 as [|x l l' _ IH|x y l|l l' l'' _ IH1 _ IH2];
    cbn [map]; rewrite ?list_sum_head; try reflexivity; lia.
Qed.

Lemma flagged_ids_perm p (l l' : list (string * qa_report)) :
  Permutation l l' -> flagged_ids p l = flagged_ids p l'.
Proof.
  intros H. apply set_eq. intros r. rewrite !flagged_ids_spec.
  split; intros (d & Hin & Hd); exists d; split; try exact Hd.
  - now apply (Permutation_in _ H).
  - now apply (Permutation_in _ (Permutation_sym H)).
Qed.

Lemma parsed_reports_length files :
  length (parsed_reports files) = length (List.filter is_parsed files).
Proof.
  unfold parsed_reports, is_parsed.
  induction files as [|f files IH]; [reflexivity|].
  cbn [flat_map List.filter].
  destruct (Aggregator.content f); cbn [app length]; now rewrite IH.
Qed.

Lemma unparsed_length files :
  length (List.filter (fun f => negb (is_parsed f)) files)
  = length (error_messages files).
Proof.
  unfold error_messages, is_parsed.
  induction files as [|f files IH]; [reflexivity|].
  cbn [flat_map List.filter].
  destruct (Aggregator.content f); cbn [negb app length]; now rewrite IH.
Qed.

(** The order in which the folder lists the report files does not
    matter for the summary: two listings of the same files give the same
    counters and the same sets of duplicate, out-of-scope, suspicious and
    historical records, and the same error messages up to their order. *)
Theorem summary_is_order_independent
    (str_of_identifiers : identifiers_arg -> string)
    (files files' : list Aggregator.report_file) :
  Permutation files files' ->
  let result := Aggregator.create_summary_report str_of_identifiers files in
  let result' := Aggregator.create_summary_report str_of_identifiers files' in
  Aggregator.summary_of result = Aggregator.summary_of result'
  /\ Aggregator.duplicates result = Aggregator.duplicates result'
  /\ Aggregator.out_of_scope result = Aggregator.out_of_scope result'
  /\ Aggregator.suspicious_content_ids result
     = Aggregator.suspicious_content_ids result'
  /\ Aggregator.historical_context result
     = Aggregator.historical_context result'
  /\ Permutation (Aggregator.errors result) (Aggregator.errors result').
Proof.
  intros Hperm. cbv zeta. unfold Aggregator.create_summary_report.
  assert (Hrep : Permutation (parsed_reports files) (parsed_reports files'))
    by now apply Permutation_flat_map.
  assert (Herr : Permutation (error_messages files) (error_messages files'))
    by now apply Permutation_flat_map.
  destruct (scan_all_totals str_of_identifiers files
              Aggregator.initial_report_data)
    as (H1 & H2 & H3 & H4 & H5 & H6 & H7 & H8 & H9 & H10).
  destruct (scan_all_totals str_of_identifiers files'
              Aggregator.initial_report_data)
    as (K1 & K2 & K3 & K4 & K5 & K6 & K7 & K8 & K9 & K10).
  destruct (scan_all_errors str_of_identifiers files
              Aggregator.initial_report_data) as [E1 E2].
  destruct (scan_all_errors str_of_identifiers files'
              Aggregator.initial_report_data) as [F1 F2].
  pose proof (scan_all_records_checked str_of_identifiers files
                Aggregator.initial_report_data) as R1.
  pose proof (scan_all_records_checked str_of_identifiers files'
                Aggregator.initial_report_data) as R2.
  rewrite H7, H8, H9, H10, K7, K8, K9, K10, E2, F2.
  rewrite !(flagged_ids_perm _ _ _ Hrep).
  split; [|repeat split; try reflexivity; exact Herr].
  rewrite <- parsed_reports_length in R1, R2.
  rewrite unparsed_length in E1, F1.
  rewrite (Permutation_length Hrep) in R1.
  rewrite (Permutation_length Herr) in E1.
  rewrite (count_reports_perm _ _ _ Hrep) in H1.
  rewrite (count_reports_perm _ _ _ Hrep) in H2.
  rewrite (count_reports_perm _ _ _ Hrep) in H3.
  rewrite (count_reports_perm _ _ _ Hrep) in H4.
  rewrite (sum_reports_perm _ _ _ Hrep) in H5.
  rewrite (sum_reports_perm _ _ _ Hrep) in H6.
  destruct (Aggregator.summary_of
              (fold_left (Aggregator.scan_file str_of_identifiers) files
                 Aggregator.initial_report_data)).
  destruct (Aggregator.summary_of
              (fold_left (Aggregator.scan_file str_of_identifiers) files'
                 Aggregator.initial_report_data)).
  cbn in *. congruence.
Qed.

Lemma summary_is_order_independent_witness :
  Permutation sample_files (rev sample_files)
  /\ Aggregator.summary_of
       (Aggregator.create_summary_report (fun _ => "") sample_files)
     = Aggregator.summary_of
         (Aggregator.create_summary_report (fun _ => "")
            (rev sample_files)).
Proof.
  split; [apply Permutation_rev|].
  apply (summary_is_order_independent (fun _ => "") sample_files
           (rev sample_files)).
  apply Permutation_rev.
Defined.

(** ** The retries of the assistant call *)

Lemma send_attempts_spec (api : nat -> Checker.checked_record -> Checker.api_result)
    (rec : Checker.checked_record) (first n : nat) (s : Checker.run_state) :
  let out := Checker.send_attempts api rec (List.seq first n) s in
  exists failures : nat,
    failures <= n
    /\ (forall i, i < failures ->
          api (Checker.calls s + i) rec = Checker.TransientError)
    /\ Checker.sleeps (snd out)
       = Checker.sleeps s ++ map (Nat.pow 2) (List.seq first failures)
    /\ Checker.searches (snd out) = Checker.searches s
    /\ Checker.written (snd out) = Checker.written s
    /\ match fst out with
       | Checker.Returned content =>
           failures < n
           /\ api (Checker.calls s + failures) rec
              = Checker.Completion content
           /\ Checker.calls (snd out) = Checker.calls s + failures + 1
       | Checker.Raised e =>
           (failures = n /\ e = "Max retries exceeded"
            /\ Checker.calls (snd out) = Checker.calls s + n)
           \/ (failures < n
               /\ api (Checker.calls s + failures) rec
                  = Checker.OtherException e
               /\ Checker.calls (snd out) = Checker.calls s + failures + 1)
       end.
Proof.
  cbv zeta. revert first s. induction n as [|n IH]; intros first s.
  - exists 0. cbn. rewrite app_nil_r, Nat.add_0_r.
    split; [lia|]. split; [intros i Hi; lia|]. repeat split. now left.
  - cbn [List.seq Checker.send_attempts].
    destruct (api (Checker.calls s) rec) as [content| |e] eqn:E.
    + exists 0. cbn. rewrite app_nil_r, Nat.add_0_r.
      split; [lia|]. split; [intros i Hi; lia|].
      repeat split; [lia | exact E | lia].
    + cbn [Checker.calls Checker.sleeps Checker.searches Checker.written].
      set (s1 := Checker.mk_run_state _ _ _ _).
      destruct (IH (S first) s1) as (k & Hk & Htr & Hsl & Hse & Hwr & Hres).
      exists (S k). subst s1.
      cbn [Checker.calls Checker.sleeps Checker.searches Checker.written]
        in *.
      split; [lia|]. split.
      { intros [|i] Hi; [now rewrite Nat.add_0_r|].
        replace (Checker.calls s + S i) with (S (Checker.calls s) + i)
          by lia.
        apply Htr. lia. }
      split; [rewrite Hsl, <- app_assoc; reflexivity|].
      split; [exact Hse|]. split; [exact Hwr|].
      replace (Checker.calls s + S k) with (S (Checker.calls s) + k) by lia.
      destruct (fst (Checker.send_attempts api rec (List.seq (S first) n) _))
        as [content|e].
      * destruct Hres as (H1 & H2 & H3). repeat split; [lia | exact H2 | lia].
      * destruct Hres as [(H1 & H2 & H3) | (H1 & H2 & H3)].
        -- left. repeat split; [lia | exact H2 | lia].
        -- right. repeat split; [lia | exact H2 | lia].
    + exists 0. cbn. rewrite app_nil_r, Nat.add_0_r.
      split; [lia|]. split; [intros i Hi; lia|].
      repeat split. right. repeat split; [lia | exact E | lia].
Qed.

Lemma backoff_total (failures : nat) :
  list_sum (map (Nat.pow 2) (List.seq 0 failures)) = 2 ^ failures - 1.
Proof.
  induction failures as [|k IH]; [reflexivity|].
  rewrite seq_S, map_app, list_sum_app, IH. cbn [map list_sum Nat.add].
  rewrite list_sum_head. cbn [list_sum fold_right].
  pose proof (Nat.pow_nonzero 2 k). rewrite Nat.pow_succ_r'. lia.
Qed.

(** [send_to_gpt] calls the assistant until a call returns, at most
    four times.  After each transient error (rate limit, timeout,
    connection) it sleeps 1, 2, 4, 8 seconds in turn, also after the fourth
    one, so that [f] transient errors cost [2 ^ f - 1] seconds of sleep.
    It returns the content of the first call that completes; after four
    transient errors it raises "Max retries exceeded"; any other exception
    of a call is raised at once, with no further call and no sleep.  It
    sends no search and writes no report. *)
Theorem send_to_gpt_retries
    (api : nat -> Checker.checked_record -> Checker.api_result)
    (rec : Checker.checked_record) (s : Checker.run_state) :
  let out := Checker.send_to_gpt api rec s in
  exists failures : nat,
    failures <= 4
    /\ (forall i, i < failures ->
          api (Checker.calls s + i) rec = Checker.TransientError)
    /\ Checker.sleeps (snd out)
       = Checker.sleeps s ++ map (Nat.pow 2) (List.seq 0 failures)
    /\ list_sum (map (Nat.pow 2) (List.seq 0 failures)) = 2 ^ failures - 1
    /\ Checker.searches (snd out) = Checker.searches s
    /\ Checker.written (snd out) = Checker.written s
    /\ match fst out with
       | Checker.Returned content =>
           failures < 4
           /\ api (Checker.calls s + failures) rec
              = Checker.Completion content
           /\ Checker.calls (snd out) = Checker.calls s + failures + 1
       | Checker.Raised e =>
           (failures = 4 /\ e = "Max retries exceeded"
            /\ Checker.calls (snd out) = Checker.calls s + 4)
           \/ (failures < 4
               /\ api (Checker.calls s + failures) rec
                  = Checker.OtherException e
               /\ Checker.calls (snd out) = Checker.calls s + failures + 1)
       end.
Proof.
  cbv zeta. unfold Checker.send_to_gpt.
  destruct (send_attempts_spec api rec 0 4 s)
    as (k & Hk & Htr & Hsl & Hse & Hwr & Hres).
  exists k. pose proof (backoff_total k). tauto.
Qed.

(** ** The reports of the QA loop *)

Section CheckerRun.

Variable now : Checker.datetime.
Variable quote : string -> string.
Variable invenio_url : string.
Variable search_total : list string -> string -> Z.
Variable api : nat -> Checker.checked_record -> Checker.api_result.
Variable parse : string -> qa_report + string.
Variable report_path_of : string -> string.

Lemma check_duplicates_frame rec s :
  let s' := snd (Checker.check_duplicates quote invenio_url search_total
                   rec s) in
  Checker.calls s' = Checker.calls s
  /\ Checker.sleeps s' = Checker.sleeps s
  /\ Checker.written s' = Checker.written s
  /\ exists urls, Checker.searches s' = Checker.searches s ++ urls
                  /\ length urls <= 2.
Proof.
  unfold Checker.check_duplicates, Checker.curl_total.
  destruct (Checker.first_doi _) as [doi|];
    [destruct (str_truthy doi)|];
    destruct (str_truthy (get_str (md_title _)));
    cbn; repeat split; try reflexivity;
    first [ exists []; rewrite app_nil_r; split; [reflexivity | cbn; lia]
          | eexists [_]; split; [reflexivity | cbn; lia]
          | eexists [_; _]; rewrite <- app_assoc; split;
            [reflexivity | cbn; lia] ].
Qed.



End CheckerRun.



(** ** A reply that is no JSON, downstream *)

Lemma error_report_shape now parse rec flags raw :
  is_json parse raw = false ->
  let q := Checker.ro_report (Checker.build_report now parse rec flags raw) in
  record_id q = rec_id (Checker.document rec)
  /\ qa_corrections q = None
  /\ affiliation_corrections q = None
  /\ organizational_author_corrections q = None
  /\ title_corrected q = None /\ abstract_corrected q = None
  /\ descriptor_corrected q = None /\ date_corrected q = None
  /\ affiliation_correction_recommended q = None.
Proof.
  unfold is_json, Checker.build_report. intros H.
  destruct (parse raw) as [q|e]; [discriminate|].
  cbn [Checker.ro_report].
  destruct (Checker.lead_record_recommendation _
            ++ Checker.future_date_recommendation _ _);
    repeat split; reflexivity.
Qed.

(** When the assistant's reply for a record is no JSON, the report
    that [qa_check] writes still carries the record's id and no correction.
    The applier therefore treats it like a record without findings: it
    goes through [mark_record_as_qa_checked_only], which marks the record
    as QA-checked in the repository.  The processor fetches the record,
    applies nothing, writes no corrected document and counts neither a
    correction nor an error. *)
Theorem unparsed_reply_is_marked_checked
    (now : Checker.datetime) (parse : string -> qa_report + string)
    (rec : Checker.checked_record) (flags : Checker.duplicate_flags)
    (raw rid : string)
    (base_url : string) (dry_run : bool)
    (respond : list Applier.request -> Applier.request -> record)
    (st : Applier.state)
    (lower : string -> string) (invenio_url output_dir : string)
    (curl_json : string -> record) (now_iso report_path : string)
    (w : Processor.world) :
  is_json parse raw = false ->
  rec_id (Checker.document rec) = Some rid ->
  rid <> "" ->
  let report :=
    Checker.ro_report (Checker.build_report now parse rec flags raw) in
  let processed :=
    Processor.process_qa_report lower invenio_url output_dir curl_json
      now_iso report_path (Some report) w in
  is_some (Checker.ro_error
             (Checker.build_report now parse rec flags raw)) = true
  /\ Applier.has_applicable_corrections report = false
  /\ Applier.process_report_file base_url dry_run respond (Some report) st
     = (tt, snd (Applier.mark_record_as_qa_checked_only base_url dry_run
                   respond rid st))
  /\ fst processed = None
  /\ Processor.files (snd processed) = Processor.files w
  /\ Processor.self_stats (snd processed) = Processor.self_stats w.
Proof.
  intros Hjson Hid Hne. cbv zeta.
  destruct (error_report_shape now parse rec flags raw Hjson)
    as (Hrid & Hc & Ha & Ho & Ht & Hab & Hde & Hda & Haf).
  set (report := Checker.ro_report
                   (Checker.build_report now parse rec flags raw)) in *.
  rewrite Hid in Hrid.
  assert (Happ : Applier.has_applicable_corrections report = false).
  { unfold Applier.has_applicable_corrections, get_corrections.
    rewrite Hc, Ha, Ho. reflexivity. }
  split.
  { unfold Checker.build_report, is_json in *.
    destruct (parse raw); [discriminate | reflexivity]. }
  split; [exact Happ|]. split.
  { unfold Applier.process_report_file. rewrite Happ, Hrid.
    unfold get_str. cbn [default from_option id].
    rewrite (proj2 (str_truthy_true rid) Hne). cbn [negb]. unfold Applier.bind.
    destruct (Applier.mark_record_as_qa_checked_only _ _ _ rid st).
    reflexivity. }
  assert (Htruthy : str_truthy (get_str (record_id report)) = true).
  { rewrite Hrid. now apply str_truthy_true. }
  destruct (Processor.fetch_record invenio_url curl_json
              (get_str (record_id report))) as [fetched|] eqn:Hfetch.
  - rewrite (process_qa_report_spec lower invenio_url output_dir curl_json
               now_iso report_path report w fetched Htruthy Hfetch).
    cbv zeta.
    assert (Hnone : compose_blocks (Processor.correction_blocks lower report)
                      fetched (Processor.self_stats w)
                    = (fetched, Processor.self_stats w, 0)).
    { unfold Processor.correction_blocks, Processor.title_block,
        Processor.abstract_block, Processor.affiliation_block,
        Processor.descriptor_block, Processor.date_block,
        Processor.related_identifier_block, get_corrections.
      rewrite Hc, Ht, Hab, Hde, Hda, Haf. reflexivity. }
    rewrite Hnone. cbn. repeat split; reflexivity.
  - unfold Processor.process_qa_report. rewrite Htruthy, Hfetch.
    cbn. repeat split; reflexivity.
Qed.

Lemma unparsed_reply_is_marked_checked_witness :
  Applier.has_applicable_corrections
    (Checker.ro_report
       (Checker.build_report (midnight 2024 1 1)
          (fun _ => inr "Expecting value")
          (Checker.mk_checked_record (record_with_related []) None)
          (Checker.mk_duplicate_flags false false) "I cannot answer"))
  = false.
Proof.
  apply (unparsed_reply_is_marked_checked (midnight 2024 1 1)
           (fun _ => inr "Expecting value")
           (Checker.mk_checked_record (record_with_related []) None)
           (Checker.mk_duplicate_flags false false) "I cannot answer"
           "abcde-12345" "https://inis.iaea.org/api/records" true
           (fun _ _ => empty_record) Applier.initial_state
           ascii_lower "https://inis.iaea.org" "out" (fun _ => empty_record)
           "2024-01-01T00:00:00" "r-report.json"
           (Processor.mk_world ∅ Processor.initial_stats []));
    [reflexivity | reflexivity | discriminate].
Defined.

(** ** The daily run *)

Ltac run_step :=
  cbv beta iota delta
    [Automation.bind Automation.create_dated_directory
     Automation.path_exists Automation.log Automation.send Automation.ret
     Automation.dirs Automation.events Automation.requests].

Section DailyRun.

Variable getenv : string -> option string.
Variable default_access_token : string.
Variable temp_dir : string.
Variable yesterday : string.
Variable checker : string -> string -> option Z.
Variable reports_in : string -> list (option qa_report).
Variable send_qa_report : string -> string -> bool.
Variable respond : list Applier.request -> Applier.request -> record.

Let token := Automation.access_token getenv default_access_token.
Let run := Automation.run_daily_automation getenv default_access_token
             temp_dir yesterday checker reports_in send_qa_report respond.

Lemma or_yesterday_idem date :
  Automation.or_yesterday yesterday
    (Some (Automation.or_yesterday yesterday date))
  = Automation.or_yesterday yesterday date.
Proof.
  unfold Automation.or_yesterday.
  destruct date as [d|]; [destruct (str_truthy d) eqn:E|];
    rewrite ?E; try reflexivity;
    destruct (str_truthy yesterday); reflexivity.
Qed.

Lemma process_qa_folder_success base dry_run files st :
  fst (Applier.process_qa_folder base dry_run respond (Some files) st)
  = (0 <? length files)%nat.
Proof.
  unfold Applier.process_qa_folder. destruct files as [|f files];
    [reflexivity|].
  unfold Applier.bind.
  destruct (Applier.process_report_files _ _ _ _ _). reflexivity.
Qed.

Lemma run_qa_checker_eq d ds ev rq :
  Automation.or_yesterday yesterday (Some d) = d ->
  Automation.run_qa_checker temp_dir yesterday checker (Some d)
    (Automation.mk_world ds ev rq)
  = (match checker (Automation.qa_date_dir_of temp_dir d) d with
     | Some returncode => (returncode =? 0)%Z
     | None => false
     end,
     Automation.mk_world
       ({[Automation.qa_date_dir_of temp_dir d]}
        ∪ ({[Automation.qa_results_dir temp_dir]} ∪ ds))
       (ev ++ [Automation.RunChecker (Automation.qa_date_dir_of temp_dir d)
                 d])
       rq).
Proof.
  intros Hd. unfold Automation.run_qa_checker. rewrite Hd. reflexivity.
Qed.

Lemma process_corrections_eq d ds ev rq :
  Automation.or_yesterday yesterday (Some d) = d ->
  let out_dir :=
    Automation.path_join (Automation.corrected_records_dir temp_dir)
      ("QAChecked-" ++ d) in
  let ds' := {[out_dir]} ∪ ({[Automation.corrected_records_dir temp_dir]}
                              ∪ ds) in
  Automation.process_corrections temp_dir yesterday reports_in (Some d)
    (Automation.mk_world ds ev rq)
  = if bool_decide (Automation.qa_date_dir_of temp_dir d ∈ ds')
    then (true,
          Automation.mk_world ds'
            (ev ++ [Automation.ProcessReports
                      (Automation.qa_date_dir_of temp_dir d) out_dir])
            (rq ++ Automation.processor_requests
                     (reports_in (Automation.qa_date_dir_of temp_dir d))))
    else (false, Automation.mk_world ds' ev rq).
Proof.
  intros Hd. cbv zeta. unfold Automation.process_corrections. rewrite Hd.
  run_step. cbn [str_truthy negb].
  destruct (bool_decide _); reflexivity.
Qed.

Lemma send_daily_report_eq d ds ev rq :
  Automation.or_yesterday yesterday (Some d) = d ->
  let dir := Automation.qa_date_dir_of temp_dir d in
  Automation.send_daily_report temp_dir yesterday send_qa_report (Some d)
    (Automation.mk_world ds ev rq)
  = if bool_decide (dir ∈ ds)
    then (send_qa_report dir d,
          Automation.mk_world ds (ev ++ [Automation.SendReport dir d]) rq)
    else (false, Automation.mk_world ds ev rq).
Proof.
  intros Hd. cbv zeta. unfold Automation.send_daily_report. rewrite Hd.
  run_step. destruct (bool_decide _); reflexivity.
Qed.

Lemma apply_corrections_to_inis_eq d apply_changes ds ev rq :
  Automation.or_yesterday yesterday (Some d) = d ->
  let dir := Automation.qa_date_dir_of temp_dir d in
  let applier :=
    Applier.process_qa_folder (Automation.base_url getenv)
      (negb apply_changes) respond (Some (reports_in dir))
      Applier.initial_state in
  Automation.apply_corrections_to_inis getenv default_access_token temp_dir
    yesterday reports_in respond (Some d) apply_changes
    (Automation.mk_world ds ev rq)
  = if negb (str_truthy token) then (true, Automation.mk_world ds ev rq)
    else if bool_decide (dir ∈ ds)
    then ((0 <? length (reports_in dir))%nat,
          Automation.mk_world ds
            (ev ++ [Automation.ApplyFolder dir (negb apply_changes)])
            (rq ++ Applier.sent (snd applier)))
    else (false, Automation.mk_world ds ev rq).
Proof.
  intros Hd. cbv zeta. subst token.
  unfold Automation.apply_corrections_to_inis. rewrite Hd.
  destruct (str_truthy _); cbn [negb]; [|reflexivity].
  run_step. destruct (bool_decide _); [|reflexivity].
  match goal with
  | |- context [Applier.process_qa_folder ?a ?b ?c (Some ?e) ?f] =>
      pose proof (process_qa_folder_success a b e f) as Hs;
      destruct (Applier.process_qa_folder a b c (Some e) f) as [success st]
  end.
  cbn [fst snd] in *. subst success. reflexivity.
Qed.

Lemma cleanup_eq ds ev rq :
  Automation.cleanup_temp_files temp_dir (Automation.mk_world ds ev rq)
  = if bool_decide (temp_dir ∈ ds)
    then (tt, Automation.mk_world ∅ (ev ++ [Automation.RemoveTemp]) rq)
    else (tt, Automation.mk_world ds ev rq).
Proof.
  unfold Automation.cleanup_temp_files. run_step.
  destruct (bool_decide _); reflexivity.
Qed.

Lemma daily_run_spec date apply_corrections :
  let d := Automation.or_yesterday yesterday date in
  let dir := Automation.qa_date_dir_of temp_dir d in
  let out_dir :=
    Automation.path_join (Automation.corrected_records_dir temp_dir)
      ("QAChecked-" ++ d) in
  let dry_run :=
    negb (match apply_corrections with
          | Some b => b
          | None => str_truthy token
          end) in
  let applier :=
    Applier.process_qa_folder
      (Automation.base_url getenv) dry_run respond
      (Some (reports_in dir)) Applier.initial_state in
  run date apply_corrections (Automation.initial_world temp_dir)
  = match checker dir d with
    | Some 0%Z =>
        (send_qa_report dir d
         && (negb (str_truthy token) || (0 <? length (reports_in dir))%nat),
         Automation.mk_world ∅
           ([Automation.RunChecker dir d;
             Automation.ProcessReports dir out_dir;
             Automation.SendReport dir d]
            ++ (if str_truthy token
                then [Automation.ApplyFolder dir dry_run] else [])
            ++ [Automation.RemoveTemp])
           (Automation.processor_requests (reports_in dir)
            ++ (if str_truthy token then Applier.sent (snd applier)
                else [])))
    | _ =>
        (false,
         Automation.mk_world ∅
           [Automation.RunChecker dir d; Automation.RemoveTemp] [])
    end.
Proof.
  cbv zeta. subst run.
  unfold Automation.run_daily_automation.
  set (d := Automation.or_yesterday yesterday date).
  assert (Hd : Automation.or_yesterday yesterday (Some d) = d)
    by apply or_yesterday_idem.
  set (dir := Automation.qa_date_dir_of temp_dir d).
  unfold Automation.initial_world.
  unfold Automation.bind at 1. unfold Automation.bind at 1.
  rewrite (run_qa_checker_eq d _ _ _ Hd). fold dir. cbn [app].
  destruct (checker dir d) as [[|p|p]|] eqn:Ec; cbn [Z.eqb negb];
    try (cbv beta iota delta [Automation.ret Automation.bind];
         rewrite cleanup_eq;
         rewrite bool_decide_eq_true_2 by set_solver; reflexivity).
  unfold Automation.bind at 1.
  rewrite (process_corrections_eq d _ _ _ Hd). cbv zeta. fold dir.
  rewrite bool_decide_eq_true_2 by set_solver. cbn [app].
  unfold Automation.bind at 1.
  rewrite (send_daily_report_eq d _ _ _ Hd). cbv zeta. fold dir.
  rewrite bool_decide_eq_true_2 by set_solver. cbn [app].
  unfold Automation.bind at 1.
  rewrite (apply_corrections_to_inis_eq d _ _ _ _ Hd). cbv zeta. fold dir.
  fold token.
  destruct (str_truthy token) eqn:Et; cbn [negb orb].
  - rewrite bool_decide_eq_true_2 by set_solver.
    cbv beta iota delta [Automation.ret Automation.bind].
    rewrite cleanup_eq.
    rewrite bool_decide_eq_true_2 by set_solver. cbn [app andb].
    reflexivity.
  - cbv beta iota delta [Automation.ret Automation.bind].
    rewrite cleanup_eq.
    rewrite bool_decide_eq_true_2 by set_solver.
    cbn [app andb]. rewrite app_nil_r. reflexivity.
Qed.

End DailyRun.







(** A day on which the checker succeeds but leaves no report makes
    the daily run return false when an access token is configured: the
    mail is sent, the applier is started and sends nothing, and its
    refusal of a folder without JSON files counts as a failure of the
    run. *)
Theorem day_without_reports_fails
    (getenv : string -> option string) (default_access_token : string)
    (temp_dir yesterday : string) (checker : string -> string -> option Z)
    (reports_in : string -> list (option qa_report))
    (send_qa_report : string -> string -> bool)
    (respond : list Applier.request -> Applier.request -> record)
    (date : option string) (apply_corrections : option bool) :
  let d := Automation.or_yesterday yesterday date in
  let dir := Automation.qa_date_dir_of temp_dir d in
  let out :=
    Automation.run_daily_automation getenv default_access_token temp_dir
      yesterday checker reports_in send_qa_report respond date
      apply_corrections (Automation.initial_world temp_dir) in
  checker dir d = Some 0%Z ->
  reports_in dir = [] ->
  Automation.access_token getenv default_access_token <> "" ->
  fst out = false
  /\ In (Automation.SendReport dir d) (Automation.events (snd out))
  /\ (exists dry_run,
        In (Automation.ApplyFolder dir dry_run)
           (Automation.events (snd out)))
  /\ Automation.requests (snd out) = [].
Proof.
  cbv zeta. intros Hc Hr Ht.
  rewrite (daily_run_spec getenv default_access_token temp_dir yesterday
             checker reports_in send_qa_report respond date
             apply_corrections).
  cbv zeta. rewrite Hc, Hr.
  rewrite (proj2 (str_truthy_true _) Ht).
  cbn [fst snd Automation.events Automation.requests negb orb length
       Nat.ltb Nat.leb app Applier.process_qa_folder Applier.ret
       Applier.sent Applier.initial_state Automation.processor_requests
       flat_map].
  rewrite andb_false_r.
  split; [reflexivity|]. split; [cbn; tauto|].
  split; [eexists; cbn; eauto|reflexivity].
Qed.

Lemma day_without_reports_fails_witness :
  fst (Automation.run_daily_automation (fun _ => None) "token" "/tmp/inis_qa_x"
         "2024-01-01" (fun _ _ => Some 0%Z) (fun _ => [])
         (fun _ _ => true) (fun _ _ => empty_record) None None
         (Automation.initial_world "/tmp/inis_qa_x"))
  = false.
Proof.
  apply (day_without_reports_fails (fun _ => None) "token" "/tmp/inis_qa_x"
           "2024-01-01" (fun _ _ => Some 0%Z) (fun _ => [])
           (fun _ _ => true) (fun _ _ => empty_record) None None);
    [reflexivity | reflexivity | discriminate].
Defined.

Section OnlyModes.

Variable getenv : string -> option string.
Variable default_access_token : string.
Variable temp_dir : string.
Variable yesterday : string.
Variable checker : string -> string -> option Z.
Variable reports_in : string -> list (option qa_report).
Variable send_qa_report : string -> string -> bool.
Variable respond : list Applier.request -> Applier.request -> record.




End OnlyModes.





(** ** Applying a report twice *)

Lemma map_count_stable {A : Type} (f : A -> A * nat) (l : list A) :
  (forall x, In x l -> f x = (x, 0)) -> map_count f l = (l, 0).
Proof.
  induction l as [|x l IH]; intros H; cbn [map_count]; [reflexivity|].
  rewrite (H x) by now left. rewrite IH by (intros y Hy; apply H; now right).
  reflexivity.
Qed.

Lemma map_count_In {A : Type} (f : A -> A * nat) (l : list A) (y : A) :
  In y (fst (map_count f l)) -> exists x, In x l /\ y = fst (f x).
Proof.
  rewrite map_count_spec. cbn [fst]. rewrite in_map_iff.
  intros (x & E & Hx). eauto.
Qed.

Section Twice.

Variable affs : list affiliation_correction.
Variable orgs : list organizational_author_correction.
Hypothesis affs_no_chain : no_chain_affiliations affs.
Hypothesis orgs_no_chain : no_chain_organizations orgs.

(** One affiliation entry. *)

Lemma correct_affiliation_unmatched current cs a :
  (forall c, In c cs ->
     String.eqb current (get_str (old_affiliation c))
     && str_truthy (get_str (recommended_affiliation c)) = false) ->
  Applier.correct_affiliation current cs a = (a, 0).
Proof.
  induction cs as [|c cs IH]; intros H; cbn [Applier.correct_affiliation];
    [reflexivity|].
  rewrite (H c) by now left. apply IH. intros c' Hc'. apply H. now right.
Qed.

Lemma correct_affiliation_cases current cs a :
  Applier.correct_affiliation current cs a = (a, 0)
  /\ (forall c, In c cs ->
        String.eqb current (get_str (old_affiliation c))
        && str_truthy (get_str (recommended_affiliation c)) = false)
  \/ exists c, In c cs
       /\ fst (Applier.correct_affiliation current cs a)
          = set_aff_name (get_str (recommended_affiliation c)) a.
Proof.
  revert a. induction cs as [|c cs IH]; intros a.
  - left. split; [reflexivity | intros c []].
  - cbn [Applier.correct_affiliation].
    destruct (_ && _) eqn:E.
    + right.
      destruct (IH (set_aff_name (get_str (recommended_affiliation c)) a))
        as [[E1 _] | (c' & Hc' & E1)].
      * exists c. split; [now left|]. now rewrite E1.
      * exists c'. split; [now right|].
        destruct (Applier.correct_affiliation current cs _) as [a' n].
        cbn [fst] in *. rewrite E1. reflexivity.
    + destruct (IH a) as [[E1 H1] | (c' & Hc' & E1)].
      * left. split; [exact E1|]. intros c' [<- | Hc']; auto.
      * right. exists c'. split; [now right | exact E1].
Qed.

Lemma correct_affiliation_twice a :
  let a' := fst (Applier.correct_affiliation (get_str (aff_name a)) affs a) in
  Applier.correct_affiliation (get_str (aff_name a')) affs a' = (a', 0).
Proof.
  cbv zeta.
  destruct (correct_affiliation_cases (get_str (aff_name a)) affs a)
    as [[E H] | (c & Hc & E)].
  - rewrite E. cbn [fst]. exact E.
  - rewrite E. apply correct_affiliation_unmatched.
    intros c' Hc'. cbn [set_aff_name aff_name get_str default from_option id].
    apply andb_false_intro1. apply String.eqb_neq.
    exact (affs_no_chain c c' Hc Hc').
Qed.

Lemma correct_creator_twice c :
  let c' := fst (Applier.correct_creator affs c) in
  Applier.correct_creator affs c' = (c', 0).
Proof.
  cbv zeta. unfold Applier.correct_creator at 2 3.
  destruct c as [po [l|]]; cbn [cr_affiliations]; [|reflexivity].
  destruct (map_count _ l) as [l' n] eqn:E. cbn [fst].
  unfold Applier.correct_creator. cbn [set_cr_affiliations cr_affiliations
    cr_person_or_org].
  rewrite map_count_stable; [reflexivity|].
  intros a' Ha'.
  assert (Hl' : l' = fst (map_count
                            (fun a => Applier.correct_affiliation
                                        (get_str (aff_name a)) affs a) l))
    by now rewrite E.
  rewrite Hl' in Ha'. apply map_count_In in Ha'.
  destruct Ha' as (a & _ & ->). apply correct_affiliation_twice.
Qed.

Lemma apply_affiliation_corrections_twice r :
  let r' := fst (Applier.apply_affiliation_corrections r affs) in
  Applier.apply_affiliation_corrections r' affs = (r', false).
Proof.
  cbv zeta. unfold Applier.apply_affiliation_corrections,
    Applier.affiliation_corrections_applied.
  destruct r as [rid [[t d p [creators|] ri]|] cf];
    cbn [rec_metadata md_creators]; try reflexivity.
  destruct (map_count (Applier.correct_creator affs) creators)
    as [creators' n] eqn:E.
  cbn [fst set_rec_metadata set_md_creators rec_metadata md_creators
       rec_id rec_custom_fields md_title md_description md_publication_date
       md_related_identifiers].
  rewrite map_count_stable; [reflexivity|].
  intros c' Hc'.
  assert (Hl : creators'
               = fst (map_count (Applier.correct_creator affs) creators))
    by now rewrite E.
  rewrite Hl in Hc'. apply map_count_In in Hc'.
  destruct Hc' as (c & _ & ->). apply correct_creator_twice.
Qed.

(** One organizational author. *)

Lemma correct_org_name_unmatched current cs p :
  (forall c, In c cs ->
     String.eqb current (get_str (old_organizational_author c))
     && str_truthy (get_str (recommended_organizational_author c))
     = false) ->
  Applier.correct_org_name current cs p = (p, 0).
Proof.
  induction cs as [|c cs IH]; intros H; cbn [Applier.correct_org_name];
    [reflexivity|].
  rewrite (H c) by now left. apply IH. intros c' Hc'. apply H. now right.
Qed.

Lemma correct_org_name_cases current cs p :
  Applier.correct_org_name current cs p = (p, 0)
  \/ exists c, In c cs
       /\ fst (Applier.correct_org_name current cs p)
          = set_po_name (get_str (recommended_organizational_author c)) p.
Proof.
  revert p. induction cs as [|c cs IH]; intros p.
  - left. reflexivity.
  - cbn [Applier.correct_org_name].
    destruct (_ && _) eqn:E.
    + right.
      destruct (IH (set_po_name
                      (get_str (recommended_organizational_author c)) p))
        as [E1 | (c' & Hc' & E1)].
      * exists c. split; [now left|]. now rewrite E1.
      * exists c'. split; [now right|].
        destruct (Applier.correct_org_name current cs _) as [p' n].
        cbn [fst] in *. rewrite E1. reflexivity.
    + destruct (IH p) as [E1 | (c' & Hc' & E1)].
      * left. exact E1.
      * right. exists c'. split; [now right | exact E1].
Qed.

Lemma correct_org_creator_twice c :
  let c' := fst (Applier.correct_org_creator orgs c) in
  Applier.correct_org_creator orgs c' = (c', 0).
Proof.
  cbv zeta.
  destruct c as [[[[ty|] nm]|] l]; try reflexivity.
  destruct (String.eqb ty "organizational") eqn:Et.
  - assert (E1 : Applier.correct_org_creator orgs
                   (mk_creator (Some (mk_person_or_org (Some ty) nm)) l)
                 = (mk_creator
                      (Some (fst (Applier.correct_org_name (get_str nm) orgs
                                    (mk_person_or_org (Some ty) nm)))) l,
                    snd (Applier.correct_org_name (get_str nm) orgs
                           (mk_person_or_org (Some ty) nm)))).
    { unfold Applier.correct_org_creator.
      cbn [cr_person_or_org po_type po_name]. rewrite Et.
      destruct (Applier.correct_org_name _ _ _). reflexivity. }
    rewrite E1. cbn [fst].
    destruct (correct_org_name_cases (get_str nm) orgs
                (mk_person_or_org (Some ty) nm)) as [E | (c & Hc & E)].
    + rewrite E. cbn [fst]. rewrite E1, E. reflexivity.
    + rewrite E. unfold Applier.correct_org_creator.
      cbn [set_po_name cr_person_or_org po_type po_name get_str default
           from_option id cr_affiliations set_cr_person_or_org].
      rewrite Et.
      rewrite correct_org_name_unmatched; [reflexivity|].
      intros c' Hc'. apply andb_false_intro1. apply String.eqb_neq.
      exact (orgs_no_chain c c' Hc Hc').
  - assert (E1 : Applier.correct_org_creator orgs
                   (mk_creator (Some (mk_person_or_org (Some ty) nm)) l)
                 = (mk_creator (Some (mk_person_or_org (Some ty) nm)) l, 0)).
    { unfold Applier.correct_org_creator.
      cbn [cr_person_or_org po_type po_name]. now rewrite Et. }
    rewrite E1. cbn [fst]. exact E1.
Qed.

Lemma apply_organizational_author_corrections_twice r :
  let r' := fst (Applier.apply_organizational_author_corrections r orgs) in
  Applier.apply_organizational_author_corrections r' orgs = (r', false).
Proof.
  cbv zeta. unfold Applier.apply_organizational_author_corrections,
    Applier.organizational_author_corrections_applied.
  destruct r as [rid [[t d p [creators|] ri]|] cf];
    cbn [rec_metadata md_creators]; try reflexivity.
  destruct (map_count (Applier.correct_org_creator orgs) creators)
    as [creators' n] eqn:E.
  cbn [fst set_rec_metadata set_md_creators rec_metadata md_creators
       rec_id rec_custom_fields md_title md_description md_publication_date
       md_related_identifiers].
  rewrite map_count_stable; [reflexivity|].
  intros c' Hc'.
  assert (Hl : creators'
               = fst (map_count (Applier.correct_org_creator orgs) creators))
    by now rewrite E.
  rewrite Hl in Hc'. apply map_count_In in Hc'.
  destruct Hc' as (c & _ & ->). apply correct_org_creator_twice.
Qed.

End Twice.

Lemma reaffiliated_creators r affs :
  fst (Applier.apply_affiliation_corrections r affs)
  = map_creators (fun c => fst (Applier.correct_creator affs c)) r.
Proof.
  unfold Applier.apply_affiliation_corrections,
    Applier.affiliation_corrections_applied, map_creators.
  destruct r as [rid [[t d p [creators|] ri]|] cf];
    cbn [rec_metadata md_creators]; try reflexivity.
  rewrite map_count_spec. reflexivity.
Qed.

Lemma reorganized_creators r orgs :
  fst (Applier.apply_organizational_author_corrections r orgs)
  = map_creators (fun c => fst (Applier.correct_org_creator orgs c)) r.
Proof.
  unfold Applier.apply_organizational_author_corrections,
    Applier.organizational_author_corrections_applied, map_creators.
  destruct r as [rid [[t d p [creators|] ri]|] cf];
    cbn [rec_metadata md_creators]; try reflexivity.
  rewrite map_count_spec. reflexivity.
Qed.

Lemma map_creators_comm g h r :
  (forall c, g (h c) = h (g c)) ->
  map_creators g (map_creators h r) = map_creators h (map_creators g r).
Proof.
  intros H. unfold map_creators.
  destruct r as [rid [[t d p [creators|] ri]|] cf]; cbn; try reflexivity.
  rewrite !map_map.
  rewrite (map_ext (fun x => g (h x)) (fun x => h (g x)) H). reflexivity.
Qed.

Lemma map_creators_mark g r :
  map_creators g (Applier.mark_qa_checked r)
  = Applier.mark_qa_checked (map_creators g r).
Proof.
  unfold map_creators, Applier.mark_qa_checked.
  destruct r as [rid [[t d p [creators|] ri]|] cf]; reflexivity.
Qed.

Lemma mark_qa_checked_twice r :
  Applier.mark_qa_checked (Applier.mark_qa_checked r)
  = Applier.mark_qa_checked r.
Proof. destruct r as [rid md [cf|]]; reflexivity. Qed.

Lemma correct_creator_keeps_author affs c :
  exists l, fst (Applier.correct_creator affs c)
            = mk_creator (cr_person_or_org c) l.
Proof.
  unfold Applier.correct_creator. destruct c as [po [l|]]; cbn.
  - destruct (map_count _ l). eexists. reflexivity.
  - eexists. reflexivity.
Qed.

Lemma correct_creators_commute affs orgs c :
  fst (Applier.correct_creator affs
         (fst (Applier.correct_org_creator orgs c)))
  = fst (Applier.correct_org_creator orgs
           (fst (Applier.correct_creator affs c))).
Proof.
  destruct c as [po l].
  assert (Ha : exists l2, forall po',
            fst (Applier.correct_creator affs (mk_creator po' l))
            = mk_creator po' l2).
  { unfold Applier.correct_creator. destruct l as [l|]; cbn.
    - destruct (map_count _ l) as [l2 n]. exists (Some l2). reflexivity.
    - exists None. reflexivity. }
  assert (Ho : exists po2, forall l',
            fst (Applier.correct_org_creator orgs (mk_creator po l'))
            = mk_creator po2 l').
  { unfold Applier.correct_org_creator.
    destruct po as [[[ty|] nm]|]; cbn; try (eexists; reflexivity).
    destruct (String.eqb ty "organizational"); cbn;
      [|eexists; reflexivity].
    destruct (Applier.correct_org_name _ _ _) as [p2 n].
    exists (Some p2). reflexivity. }
  destruct Ha as [l2 Ha], Ho as [po2 Ho].
  now rewrite (Ho l), (Ha po2), (Ha po), (Ho l2).
Qed.

(** The draft that [update_record] builds, step by step. *)
Lemma correct_draft_steps q d st :
  Applier.correct_draft q d st
  = let '(d1, st1, n1) :=
      match c_title (get_corrections q) with
      | Some t =>
          (fst (Applier.apply_title_correction d t),
           Applier.incr_title_corrections st, 1)
      | None => (d, st, 0)
      end in
    let affs := get_list (affiliation_corrections q) in
    let orgs := get_list (organizational_author_corrections q) in
    let a := Applier.apply_affiliation_corrections d1 affs in
    let o := Applier.apply_organizational_author_corrections (fst a) orgs in
    (Applier.mark_qa_checked (fst o),
     (if snd o
      then Applier.incr_organizational_author_corrections
      else fun s => s)
       ((if snd a then Applier.incr_affiliation_corrections
         else fun s => s) st1),
     (if snd o then 1 else 0) + ((if snd a then 1 else 0) + n1)).
Proof.
  unfold Applier.correct_draft.
  assert (Ha : forall r, Applier.apply_affiliation_corrections r []
                         = (r, false)).
  { intros r. unfold Applier.apply_affiliation_corrections,
      Applier.affiliation_corrections_applied.
    destruct r as [rid [[t d0 p [creators|] ri]|] cf]; try reflexivity.
    cbn [rec_metadata md_creators].
    rewrite map_count_stable; [reflexivity|].
    intros c _. unfold Applier.correct_creator.
    destruct c as [po [l|]]; cbn; [|reflexivity].
    rewrite map_count_stable; [reflexivity|]. reflexivity. }
  assert (Ho : forall r,
            Applier.apply_organizational_author_corrections r []
            = (r, false)).
  { intros r. unfold Applier.apply_organizational_author_corrections,
      Applier.organizational_author_corrections_applied.
    destruct r as [rid [[t d0 p [creators|] ri]|] cf]; try reflexivity.
    cbn [rec_metadata md_creators].
    rewrite map_count_stable; [reflexivity|].
    intros c _. unfold Applier.correct_org_creator.
    destruct c as [[[[ty|] nm]|] l]; cbn; try reflexivity.
    destruct (String.eqb ty "organizational"); reflexivity. }
  destruct (c_title (get_corrections q)) as [t|];
    cbn [Applier.apply_title_correction fst];
    destruct (get_list (affiliation_corrections q)) as [|a affs];
    destruct (get_list (organizational_author_corrections q)) as [|o orgs];
    rewrite ?Ha, ?Ho; cbn [fst snd];
    repeat (match goal with
            | |- context [Applier.apply_affiliation_corrections ?x ?y] =>
                destruct (Applier.apply_affiliation_corrections x y)
                  as [? []]
            | |- context [Applier.apply_organizational_author_corrections
                            ?x ?y] =>
                destruct (Applier.apply_organizational_author_corrections
                            x y) as [? []]
            end; cbn [fst snd]; rewrite ?Ho; cbn [fst snd]);
    reflexivity.
Qed.

(** Applying a report to a draft that the same report has already
    corrected changes nothing, provided that no recommended affiliation of
    the report is one of its old affiliations and no recommended
    organizational author is one of its old ones: the second call builds
    the same document, finds no affiliation and no organizational author
    to correct, and counts only the title correction again. *)
Theorem applier_second_application (q : qa_report) (d : record)
    (st : Applier.stats) :
  no_chain_affiliations (get_list (affiliation_corrections q)) ->
  no_chain_organizations (get_list (organizational_author_corrections q)) ->
  Applier.correct_draft q (corrected_draft q d) st
  = (corrected_draft q d, fst (title_again q st), snd (title_again q st)).
Proof.
  intros Haffs Horgs.
  set (affs := get_list (affiliation_corrections q)) in *.
  set (orgs := get_list (organizational_author_corrections q)) in *.
  set (fa := fun c => fst (Applier.correct_creator affs c)).
  set (fo := fun c => fst (Applier.correct_org_creator orgs c)).
  set (x := match c_title (get_corrections q) with
            | Some t => fst (Applier.apply_title_correction d t)
            | None => d
            end).
  assert (Hy : corrected_draft q d
               = Applier.mark_qa_checked (map_creators fo (map_creators fa x))).
  { unfold corrected_draft. rewrite correct_draft_steps. fold affs orgs.
    subst x. destruct (c_title (get_corrections q)); cbn [fst];
      now rewrite reorganized_creators, reaffiliated_creators. }
  set (y := corrected_draft q d) in *.
  (* the title is already there *)
  assert (Ht : match c_title (get_corrections q) with
               | Some t => fst (Applier.apply_title_correction y t)
               | None => y
               end = y).
  { destruct (c_title (get_corrections q)) as [t|] eqn:Et; [|reflexivity].
    rewrite Hy. subst x. unfold Applier.apply_title_correction,
      map_creators, Applier.mark_qa_checked.
    destruct d as [rid [[t0 d0 p [creators|] ri]|] cf]; reflexivity. }
  (* the affiliations and the organizational authors are already there *)
  assert (Ha : Applier.apply_affiliation_corrections y affs = (y, false)).
  { assert (E : y = fst (Applier.apply_affiliation_corrections
                           (Applier.mark_qa_checked (map_creators fo x))
                           affs)).
    { rewrite reaffiliated_creators. fold fa.
      rewrite map_creators_mark, Hy. f_equal.
      apply map_creators_comm. intros c. subst fa fo. cbv beta.
      symmetry. apply correct_creators_commute. }
    rewrite E. now apply apply_affiliation_corrections_twice. }
  assert (Ho : Applier.apply_organizational_author_corrections y orgs
               = (y, false)).
  { assert (E : y = fst (Applier.apply_organizational_author_corrections
                           (Applier.mark_qa_checked (map_creators fa x))
                           orgs)).
    { rewrite reorganized_creators. fold fo.
      now rewrite map_creators_mark, Hy. }
    rewrite E. now apply apply_organizational_author_corrections_twice. }
  assert (Hm : Applier.mark_qa_checked y = y).
  { rewrite Hy. apply mark_qa_checked_twice. }
  rewrite correct_draft_steps. fold affs orgs. unfold title_again.
  destruct (c_title (get_corrections q)) as [t|]; try rewrite Ht;
    rewrite Ha; cbn [fst snd]; rewrite Ho; cbn [fst snd]; rewrite Hm;
    reflexivity.
Qed.

Lemma applier_second_application_witness :
  no_chain_affiliations
    (get_list (affiliation_corrections
                 (report_with_affiliations (Some true) [pair_of "MIT" "M.I.T."])))
  /\ fst (fst (Applier.correct_draft
                 (report_with_affiliations (Some true) [pair_of "MIT" "M.I.T."])
                 (corrected_draft
                    (report_with_affiliations (Some true) [pair_of "MIT" "M.I.T."])
                    (record_with_affiliation "MIT"))
                 Applier.initial_stats))
     = corrected_draft (report_with_affiliations (Some true) [pair_of "MIT" "M.I.T."])
         (record_with_affiliation "MIT").
Proof.
  assert (H : no_chain_affiliations
                (get_list (affiliation_corrections
                   (report_with_affiliations (Some true) [pair_of "MIT" "M.I.T."])))).
  { intros c c' [<- | []] [<- | []]. discriminate. }
  split; [exact H|].
  rewrite (applier_second_application
             (report_with_affiliations (Some true) [pair_of "MIT" "M.I.T."])
             (record_with_affiliation "MIT") Applier.initial_stats H).
  - reflexivity.
  - intros c c' [].
Defined.

(** ** The processor and the applier on the same affiliation pairs *)

Lemma map_count_compose {A : Type} (f g h : A -> A * nat) (l : list A) :
  (forall x, h x = (fst (g (fst (f x))), snd (f x) + snd (g (fst (f x))))) ->
  map_count h l
  = (fst (map_count g (fst (map_count f l))),
     snd (map_count f l) + snd (map_count g (fst (map_count f l)))).
Proof.
  intros H. induction l as [|x l IH]; cbn [map_count]; [reflexivity|].
  rewrite IH, (H x).
  destruct (f x) as [x1 n1]. destruct (map_count f l) as [l1 m1].
  cbn [fst snd map_count].
  destruct (g x1) as [x2 n2]. destruct (map_count g l1) as [l2 m2].
  cbn [fst snd]. f_equal. lia.
Qed.

Lemma on_affiliations_id c :
  on_affiliations (fun a => (a, 0)) c = (c, 0).
Proof.
  unfold on_affiliations. destruct c as [po [l|]]; cbn; [|reflexivity].
  rewrite map_count_stable; reflexivity.
Qed.

Lemma on_affiliations_compose f g h c :
  (forall x, h x = (fst (g (fst (f x))), snd (f x) + snd (g (fst (f x))))) ->
  on_affiliations h c
  = (fst (on_affiliations g (fst (on_affiliations f c))),
     snd (on_affiliations f c)
     + snd (on_affiliations g (fst (on_affiliations f c)))).
Proof.
  intros H. unfold on_affiliations.
  destruct c as [po [l|]]; cbn [cr_affiliations]; [|reflexivity].
  rewrite (map_count_compose f g h l H).
  destruct (map_count f l) as [l1 n1].
  cbn [fst snd set_cr_affiliations cr_affiliations cr_person_or_org].
  destruct (map_count g l1) as [l2 n2]. reflexivity.
Qed.

Lemma passes_on_entry_cons c rest a :
  negb (str_truthy (get_str (old_affiliation c)))
  || negb (str_truthy (get_str (recommended_affiliation c))) = false ->
  let f := Processor.correct_affiliation (get_str (old_affiliation c))
             (get_str (recommended_affiliation c)) in
  passes_on_entry (c :: rest) a
  = (fst (passes_on_entry rest (fst (f a))),
     snd (f a) + snd (passes_on_entry rest (fst (f a)))).
Proof.
  intros H. cbv zeta. cbn [passes_on_entry]. rewrite H.
  destruct (Processor.correct_affiliation _ _ a) as [a1 n].
  cbn [fst snd]. destruct (passes_on_entry rest a1). reflexivity.
Qed.

(** The scans of the processor, creator by creator. *)
Lemma processor_passes_by_entry cs creators :
  Processor.affiliation_passes cs creators
  = map_count (on_affiliations (passes_on_entry cs)) creators.
Proof.
  revert creators. induction cs as [|c cs IH]; intros creators.
  - cbn [Processor.affiliation_passes passes_on_entry].
    rewrite map_count_stable; [reflexivity|].
    intros x _. apply on_affiliations_id.
  - cbn [Processor.affiliation_passes].
    destruct (negb (str_truthy (get_str (old_affiliation c)))
              || negb (str_truthy (get_str (recommended_affiliation c))))
      eqn:E.
    + rewrite IH. apply map_count_ext. intros x.
      unfold on_affiliations. destruct (cr_affiliations x); [|reflexivity].
      erewrite map_count_ext; [reflexivity|].
      intros a. cbn [passes_on_entry]. now rewrite E.
    + rewrite (map_count_compose
                 (Processor.correct_creator (get_str (old_affiliation c))
                    (get_str (recommended_affiliation c)))
                 (on_affiliations (passes_on_entry cs))
                 (on_affiliations (passes_on_entry (c :: cs)))).
      * destruct (map_count (Processor.correct_creator _ _) creators)
          as [creators1 n].
        rewrite IH. cbn [fst snd].
        destruct (map_count _ creators1). reflexivity.
      * intros x.
        apply (on_affiliations_compose
                 (Processor.correct_affiliation
                    (get_str (old_affiliation c))
                    (get_str (recommended_affiliation c)))
                 (passes_on_entry cs) (passes_on_entry (c :: cs))).
        intros a. now apply passes_on_entry_cons.
Qed.

Lemma passes_on_entry_unmatched cs a :
  (forall c, In c cs ->
     get_str (aff_name a) <> get_str (old_affiliation c)) ->
  passes_on_entry cs a = (a, 0).
Proof.
  induction cs as [|c cs IH]; intros H; cbn [passes_on_entry];
    [reflexivity|].
  assert (IH' : passes_on_entry cs a = (a, 0))
    by (apply IH; intros c' Hc'; apply H; now right).
  destruct (_ || _); [exact IH'|].
  unfold Processor.correct_affiliation.
  destruct (String.eqb_spec (get_str (aff_name a))
              (get_str (old_affiliation c))) as [E|_].
  - exfalso. apply (H c); [now left | exact E].
  - now rewrite IH'.
Qed.

Lemma entry_agreement cs a :
  no_chain_affiliations cs ->
  List.NoDup (old_names cs) ->
  ~ In "" (old_names cs) ->
  passes_on_entry cs a
  = Applier.correct_affiliation (get_str (aff_name a)) cs a.
Proof.
  induction cs as [|c cs IH]; intros Hchain Hdup Hne; [reflexivity|].
  assert (Hchain' : no_chain_affiliations cs).
  { intros x y Hx Hy. apply Hchain; now right. }
  unfold old_names in *. cbn [map] in Hdup, Hne.
  apply List.NoDup_cons_iff in Hdup as [Hnotin Hdup].
  assert (Hold : str_truthy (get_str (old_affiliation c)) = true).
  { apply str_truthy_true. intros E. apply Hne. left. exact E. }
  assert (Hne' : ~ In "" (map (fun c => get_str (old_affiliation c)) cs))
    by (intros H; apply Hne; now right).
  specialize (IH Hchain' Hdup Hne').
  cbn [passes_on_entry Applier.correct_affiliation].
  rewrite Hold. cbn [negb orb].
  destruct (str_truthy (get_str (recommended_affiliation c))) eqn:Enew;
    cbn [negb]; [|rewrite andb_false_r; exact IH].
  rewrite andb_true_r. unfold Processor.correct_affiliation.
  destruct (String.eqb_spec (get_str (aff_name a))
              (get_str (old_affiliation c))) as [E|E].
  - (* the pair matches: no later pair does, for either program *)
    rewrite passes_on_entry_unmatched.
    + rewrite correct_affiliation_unmatched; [reflexivity|].
      intros c' Hc'. apply andb_false_intro1. apply String.eqb_neq.
      rewrite E. intros E'. apply Hnotin. rewrite E'.
      apply in_map_iff. eauto.
    + intros c' Hc'.
      cbn [set_aff_name aff_name get_str default from_option id].
      apply Hchain; [now left | now right].
  - rewrite IH. destruct (Applier.correct_affiliation _ cs a). reflexivity.
Qed.

(** The processor and the applier correct affiliations in different
    loops, but on a list of pairs whose old names are non-empty and
    pairwise distinct and none of whose recommended names is an old name,
    they leave the same record and count the same number of renamed
    entries. *)
Theorem processor_and_applier_agree_on_affiliations (r : record)
    (cs : list affiliation_correction) :
  no_chain_affiliations cs ->
  List.NoDup (old_names cs) ->
  ~ In "" (old_names cs) ->
  Processor.affiliation_corrections_applied r cs
  = Applier.affiliation_corrections_applied r cs
  /\ Processor.apply_affiliation_corrections r cs
     = Applier.apply_affiliation_corrections r cs.
Proof.
  intros Hchain Hdup Hne.
  assert (E : Processor.affiliation_corrections_applied r cs
              = Applier.affiliation_corrections_applied r cs).
  { unfold Processor.affiliation_corrections_applied,
      Applier.affiliation_corrections_applied.
    destruct r as [rid [[t d p [creators|] ri]|] cf];
      cbn [rec_metadata md_creators]; try reflexivity.
    rewrite processor_passes_by_entry.
    rewrite (map_count_ext (on_affiliations (passes_on_entry cs))
               (Applier.correct_creator cs)); [reflexivity|].
    intros c. unfold on_affiliations, Applier.correct_creator.
    destruct (cr_affiliations c) as [l|]; [|reflexivity].
    erewrite map_count_ext; [reflexivity|].
    intros a. now apply entry_agreement. }
  split; [exact E|].
  unfold Processor.apply_affiliation_corrections,
    Applier.apply_affiliation_corrections. now rewrite E.
Qed.

Lemma processor_and_applier_agree_on_affiliations_witness :
  no_chain_affiliations [pair_of "MIT" "M.I.T."]
  /\ Processor.apply_affiliation_corrections (record_with_affiliation "MIT")
       [pair_of "MIT" "M.I.T."]
     = Applier.apply_affiliation_corrections (record_with_affiliation "MIT")
         [pair_of "MIT" "M.I.T."].
Proof.
  assert (H : no_chain_affiliations [pair_of "MIT" "M.I.T."]).
  { intros c c' [<- | []] [<- | []]. discriminate. }
  split; [exact H|].
  apply (processor_and_applier_agree_on_affiliations
           (record_with_affiliation "MIT") [pair_of "MIT" "M.I.T."] H).
  - repeat constructor. intros [].
  - intros [E | []]. discriminate E.
Defined.

(** ** A report is applied to the record as fetched *)

Lemma compose_blocks_blind (bs : list Processor.block) :
  Forall (fun b => forall r st st',
            fst (fst (b r st)) = fst (fst (b r st'))
            /\ snd (b r st) = snd (b r st')) bs ->
  forall r st st',
    fst (fst (compose_blocks bs r st)) = fst (fst (compose_blocks bs r st'))
    /\ snd (compose_blocks bs r st) = snd (compose_blocks bs r st').
Proof.
  induction 1 as [|b bs Hb _ IH]; intros r st st'; [split; reflexivity|].
  cbn [compose_blocks]. destruct (Hb r st st') as [E1 E2].
  destruct (b r st) as [[r1 st1] n1], (b r st') as [[r1' st1'] n1'].
  cbn [fst snd] in E1, E2. subst r1' n1'.
  destruct (IH r1 st1 st1') as [E3 E4].
  destruct (compose_blocks bs r1 st1) as [[r2 st2] n2],
           (compose_blocks bs r1 st1') as [[r2' st2'] n2'].
  cbn [fst snd] in *. subst. split; reflexivity.
Qed.

Lemma correction_blocks_blind lower q r st st' :
  fst (fst (compose_blocks (Processor.correction_blocks lower q) r st))
  = fst (fst (compose_blocks (Processor.correction_blocks lower q) r st'))
  /\ snd (compose_blocks (Processor.correction_blocks lower q) r st)
     = snd (compose_blocks (Processor.correction_blocks lower q) r st').
Proof.
  apply compose_blocks_blind.
  unfold Processor.correction_blocks.
  repeat (apply List.Forall_cons || apply List.Forall_nil);
    intros r0 st0 st0';
    unfold Processor.title_block, Processor.abstract_block,
      Processor.affiliation_block, Processor.descriptor_block,
      Processor.date_block, Processor.related_identifier_block;
    cbv zeta;
    repeat match goal with
           | |- context [match ?x with _ => _ end] => destruct x
           end;
    split; reflexivity.
Qed.

(** What [process_qa_report] does for a report does not depend on
    the reports processed before: whatever the state of the processor,
    it returns a result in the same cases and writes the same file, with
    the same correction metadata.  The file is named after the record id,
    and its original is the record as the repository gives it; so a second
    report on the same record starts from the fetched record again, and
    its file replaces that of the first. *)
Theorem report_processing_ignores_history
    (lower : string -> string) (invenio_url output_dir : string)
    (curl_json : string -> record) (now_iso report_path : string)
    (parsed : option qa_report) (w1 w2 : Processor.world) :
  let process :=
    Processor.process_qa_report lower invenio_url output_dir curl_json
      now_iso report_path parsed in
  exists new,
    Processor.files (snd (process w1)) = Processor.files w1 ++ new
    /\ Processor.files (snd (process w2)) = Processor.files w2 ++ new
    /\ length new = (if is_some (fst (process w1)) then 1 else 0)
    /\ option_map Processor.correction_metadata_of (fst (process w1))
       = option_map Processor.correction_metadata_of (fst (process w2))
    /\ forall name snap, In (name, snap) new ->
         exists q,
           parsed = Some q
           /\ name
              = (output_dir ++ "/" ++ get_str (record_id q)
                 ++ "_corrected.json")%string
           /\ Processor.fetch_record invenio_url curl_json
                (get_str (record_id q))
              = Some (Processor.snap_original_record snap).
Proof.
  cbv zeta.
  assert (Hnone : forall (o1 o2 : option Processor.corrected_data * Processor.world),
            o1 = (None, snd o1) -> o2 = (None, snd o2) ->
            Processor.files (snd o1) = Processor.files w1 ->
            Processor.files (snd o2) = Processor.files w2 ->
            exists new : list (string * Processor.snapshot),
              Processor.files (snd o1) = Processor.files w1 ++ new
              /\ Processor.files (snd o2) = Processor.files w2 ++ new
              /\ length new = (if is_some (fst o1) then 1 else 0)
              /\ option_map Processor.correction_metadata_of (fst o1)
                 = option_map Processor.correction_metadata_of (fst o2)
              /\ forall name snap, In (name, snap) new ->
                   exists q,
                     parsed = Some q
                     /\ name
                        = (output_dir ++ "/" ++ get_str (record_id q)
                           ++ "_corrected.json")%string
                     /\ Processor.fetch_record invenio_url curl_json
                          (get_str (record_id q))
                        = Some (Processor.snap_original_record snap)).
  { intros o1 o2 E1 E2 F1 F2. exists []. rewrite !app_nil_r.
    rewrite E1, E2. cbn [fst snd is_some option_map].
    repeat split; try assumption. intros name snap []. }
  destruct parsed as [q|].
  - destruct (str_truthy (get_str (record_id q))) eqn:Hrid.
    + destruct (Processor.fetch_record invenio_url curl_json
                  (get_str (record_id q))) as [fetched|] eqn:Hfetch.
      * rewrite !(process_qa_report_spec lower invenio_url output_dir
                    curl_json now_iso report_path q _ fetched Hrid Hfetch).
        cbv zeta.
        destruct (correction_blocks_blind lower q fetched
                    (Processor.self_stats w1) (Processor.self_stats w2))
          as [E1 E2].
        destruct (compose_blocks (Processor.correction_blocks lower q)
                    fetched (Processor.self_stats w1)) as [[rc st1] n].
        destruct (compose_blocks (Processor.correction_blocks lower q)
                    fetched (Processor.self_stats w2)) as [[rc' st2] n'].
        cbn [fst snd] in E1, E2. subst rc' n'.
        destruct (0 <? n)%nat;
          cbn [fst snd Processor.files is_some option_map
               Processor.correction_metadata_of].
        -- eexists. split; [reflexivity|]. split; [reflexivity|].
           split; [reflexivity|]. split; [reflexivity|].
           intros name snap [E | []]. injection E as <- <-.
           exists q. cbn [Processor.snap_original_record]. auto.
        -- exists []. rewrite !app_nil_r. repeat split.
           intros name snap [].
      * apply Hnone; unfold Processor.process_qa_report;
          rewrite Hrid, Hfetch; reflexivity.
    + apply Hnone; unfold Processor.process_qa_report; rewrite Hrid;
        reflexivity.
  - apply Hnone; reflexivity.
Qed.

(** ** The lists that the summary keeps per record *)





Section AggregatorLists.

Variable str_of_identifiers : identifiers_arg -> string.

Let scan := Aggregator.scan_file str_of_identifiers.



End AggregatorLists.

(** The other corrections of a report follow the order of the keys of its
    [corrections] object, whichever keys they are. *)
Lemma other_corrections_follow_keys
    (str_of_identifiers : identifiers_arg -> string) :
  Aggregator.other_corrections str_of_identifiers
    (mk_corrections (Some "T") (Some "A") None (Some "2020") None
       [("note", "n")] ["publication_date"; "abstract"; "note"; "title"])
  = ["publication_date: 2020"; "note: n"; "title: T"].
Proof. reflexivity. Qed.


(** ** The checker inside the daily run *)

Lemma send_to_gpt_unavailable
    (api : nat -> Checker.checked_record -> Checker.api_result)
    (rec : Checker.checked_record) (s : Checker.run_state) :
  (forall n r, api n r = Checker.TransientError) ->
  Checker.send_to_gpt api rec s
  = (Checker.Raised "Max retries exceeded",
     Checker.mk_run_state (Checker.calls s + 4)
       (Checker.sleeps s ++ [1; 2; 4; 8]) (Checker.searches s)
       (Checker.written s)).
Proof.
  intros H. unfold Checker.send_to_gpt.
  cbn [List.seq Checker.send_attempts]. rewrite !H.
  cbn [Checker.calls Checker.sleeps Checker.searches Checker.written].
  rewrite <- !app_assoc. cbn [app Nat.pow Nat.mul Nat.add].
  f_equal. f_equal. lia.
Qed.

(** When the assistant is unavailable (every call ends in a rate
    limit, timeout or connection error) and the repository has records to
    check, the checker gives up on the first record after four calls and
    15 seconds of sleep, writes no report at all and exits with status 1;
    the daily run that started it then stops: it returns false, sends no
    mail and sends nothing to the repository. *)
Theorem unavailable_assistant_fails_the_day
    (getenv : string -> option string) (default_access_token : string)
    (temp_dir yesterday : string)
    (reports_in : string -> list (option qa_report))
    (send_qa_report : string -> string -> bool)
    (respond : list Applier.request -> Applier.request -> record)
    (now : Checker.datetime) (quote : string -> string)
    (invenio_url : string) (search_total : list string -> string -> Z)
    (api : nat -> Checker.checked_record -> Checker.api_result)
    (parse : string -> qa_report + string) (json_is_object : string -> bool)
    (report_path_in : string -> string -> string)
    (yesterday_iso : string) (str_of_nat : nat -> string)
    (search_hits : string -> list Checker.checked_record)
    (date : option string) (apply_corrections : option bool) :
  let script := fun out_dir date =>
    Checker.main_live now quote invenio_url search_total api parse
      json_is_object (report_path_in out_dir) yesterday_iso str_of_nat
      search_hits (Some date) new_run in
  let d := Automation.or_yesterday yesterday date in
  let dir := Automation.qa_date_dir_of temp_dir d in
  let out :=
    Automation.run_daily_automation getenv default_access_token temp_dir
      yesterday (fun out_dir date => Some (fst (script out_dir date)))
      reports_in send_qa_report respond date apply_corrections
      (Automation.initial_world temp_dir) in
  (forall n r, api n r = Checker.TransientError) ->
  fst (Checker.fetch_records_by_date quote invenio_url yesterday_iso
         search_hits (Some d) new_run) <> [] ->
  fst (script dir d) = 1%Z
  /\ Checker.written (snd (script dir d)) = []
  /\ Checker.calls (snd (script dir d)) = 4
  /\ Checker.sleeps (snd (script dir d)) = [1; 2; 4; 8]
  /\ fst out = false
  /\ Automation.events (snd out)
     = [Automation.RunChecker dir d; Automation.RemoveTemp]
  /\ Automation.requests (snd out) = [].
Proof.
  cbv beta zeta. intros Hapi Hfetched.
  assert (Hscript :
            Checker.main_live now quote invenio_url search_total api parse
              json_is_object
              (report_path_in
                 (Automation.qa_date_dir_of temp_dir
                    (Automation.or_yesterday yesterday date)))
              yesterday_iso str_of_nat search_hits
              (Some (Automation.or_yesterday yesterday date)) new_run
            = (1%Z,
               Checker.mk_run_state 4 [1; 2; 4; 8]
                 (Checker.searches
                    (snd (Checker.main_live now quote invenio_url
                            search_total api parse json_is_object
                            (report_path_in
                               (Automation.qa_date_dir_of temp_dir
                                  (Automation.or_yesterday yesterday date)))
                            yesterday_iso str_of_nat search_hits
                            (Some (Automation.or_yesterday yesterday date))
                            new_run)))
                 [])).
  { unfold Checker.main_live.
    destruct (Checker.fetch_records_by_date quote invenio_url yesterday_iso
                search_hits (Some (Automation.or_yesterday yesterday date))
                new_run) as [fetched s1] eqn:Ef.
    assert (Hs1 : Checker.calls s1 = 0 /\ Checker.sleeps s1 = []
                  /\ Checker.written s1 = []).
    { unfold Checker.fetch_records_by_date in Ef. injection Ef as _ <-.
      repeat split. }
    destruct Hs1 as (Hc & Hsl & Hw).
    cbn [fst] in Hfetched.
    destruct fetched as [|r fetched]; [now elim Hfetched|].
    cbn [Checker.name_records Checker.qa_check].
    pose proof (check_duplicates_frame quote invenio_url search_total r s1)
      as Hd. cbv zeta in Hd.
    destruct (Checker.check_duplicates quote invenio_url search_total r s1)
      as [flags s2].
    cbn [snd] in Hd. destruct Hd as (Hc2 & Hsl2 & Hw2 & _).
    rewrite (send_to_gpt_unavailable api r s2 Hapi).
    cbn [fst snd Checker.searches].
    rewrite Hc2, Hsl2, Hw2, Hc, Hsl, Hw. reflexivity. }
  rewrite Hscript. cbn [fst snd Checker.written Checker.calls Checker.sleeps].
  repeat (split; [reflexivity|]).
  rewrite (daily_run_spec getenv default_access_token temp_dir yesterday
             _ reports_in send_qa_report respond date apply_corrections).
  cbv beta zeta. rewrite Hscript. cbn [fst snd Automation.events
    Automation.requests].
  repeat split; reflexivity.
Qed.

Lemma unavailable_assistant_fails_the_day_witness :
  fst (Automation.run_daily_automation (fun _ => None) "token"
         "/tmp/inis_qa_x" "2024-01-01"
         (fun out_dir date =>
            Some (fst (Checker.main_live (midnight 2024 1 2) (fun q => q)
                         "https://inis.iaea.org" (fun _ _ => 0%Z)
                         (fun _ _ => Checker.TransientError)
                         (fun _ => inr "Expecting value") (fun _ => true)
                         (fun src => (out_dir ++ "/" ++ src)%string)
                         "2024-01-01" (fun _ => "0")
                         (fun _ =>
                            [Checker.mk_checked_record
                               (record_with_related []) None])
                         (Some date) new_run)))
         (fun _ => []) (fun _ _ => true) (fun _ _ => empty_record)
         None None (Automation.initial_world "/tmp/inis_qa_x"))
  = false.
Proof.
  apply (unavailable_assistant_fails_the_day (fun _ => None) "token"
           "/tmp/inis_qa_x" "2024-01-01" (fun _ => [])
           (fun _ _ => true) (fun _ _ => empty_record)
           (midnight 2024 1 2) (fun q => q) "https://inis.iaea.org"
           (fun _ _ => 0%Z) (fun _ _ => Checker.TransientError)
           (fun _ => inr "Expecting value") (fun _ => true)
           (fun out_dir src => (out_dir ++ "/" ++ src)%string)
           "2024-01-01" (fun _ => "0")
           (fun _ =>
              [Checker.mk_checked_record (record_with_related []) None])
           None None);
    [reflexivity | discriminate].
Defined.

(** ** The flag [--no-apply-corrections] *)

Section OpenedDrafts.

Variable base_url : string.
Variable dry_run : bool.
Variable respond : list Applier.request -> Applier.request -> record.




End OpenedDrafts.



